(** * NRML hazard writers (nrmllib/hazard/writers.py)

    A shallow embedding of the six XML writers of [nrmllib.hazard.writers]
    and of the metadata validation and attribute mapping they share.

    Python objects are modelled by the values the writers really handle
    ([pyval], and [number] where the records hold numbers); a keyword
    dictionary is a [gmap string pyval]; an exception is a value of [exn]
    carried by [result]; the lxml tree is an inductive [element], and storing
    a string in it fails as lxml does when the string is not XML compatible;
    the file system is a map from paths to contents. *)

From Stdlib Require Import ZArith String Ascii List PrimFloat.
From Stdlib Require Import DecimalString DecimalPos DecimalZ.
From stdpp Require Import base option list gmap strings.

Import ListNotations.
Local Open Scope string_scope.
Local Open Scope Z_scope.
Local Open Scope list_scope.
Local Open Scope stdpp_scope.

Set Warnings "-register-all,-inexact-float".

(** ** Python values *)

(** The values that metadata keywords and record attributes hold.  A float is
    an IEEE binary64 number, as in CPython. *)
Inductive pyval : Type :=
  | PyNone
  | PyStr (s : string)
  | PyInt (z : Z)
  | PyFloat (f : float)
  | PyList (l : list pyval).

(** The numbers that the records handed to serialize hold: coordinates,
    magnitudes, periods, probabilities, the cells of a matrix. *)
Inductive number : Type :=
  | NInt (z : Z)
  | NFloat (f : float).

Definition num_val (n : number) : pyval :=
  match n with
  | NInt z => PyInt z
  | NFloat f => PyFloat f
  end.
Coercion num_val : number >-> pyval.

(** [v is not None] *)
Definition is_not_None (v : pyval) : bool :=
  match v with PyNone => false | _ => true end.

(** [v is None] *)
Definition is_None (v : pyval) : bool := negb (is_not_None v).

(** [v == s] for a string literal [s]: only a string compares equal to a
    string. *)
Definition py_eq_str (v : pyval) (s : string) : bool :=
  match v with PyStr s' => String.eqb s' s | _ => false end.

(** [v in (s1, s2, ...)] for a tuple of string literals. *)
Definition py_in_strs (v : pyval) (ss : list string) : bool :=
  existsb (py_eq_str v) ss.

(** ** Exceptions *)

Inductive exn : Type :=
  | ValueError (msg : string)
  | AssertionError (msg : string)
  | KeyError (key : string)
  | TypeError
  | IndexError
  | AttributeError (name : string)
  | NameError (name : string)
  | IOError (path : string).

Inductive result (A : Type) : Type :=
  | Ok (a : A)
  | Raise (e : exn).
Arguments Ok {A} a.
Arguments Raise {A} e.

#[global] Instance result_ret : MRet result := fun A a => Ok a.
#[global] Instance result_bind : MBind result := fun A B k r =>
  match r with Ok a => k a | Raise e => Raise e end.
#[global] Instance result_fmap : FMap result := fun A B f r =>
  match r with Ok a => Ok (f a) | Raise e => Raise e end.

(** [for x in xs: acc = body(acc, x)] where the body may raise: the loop stops
    at the first exception. *)
Fixpoint for_each {A S : Type} (body : S → A → result S) (xs : list A) (acc : S)
    : result S :=
  match xs with
  | [] => Ok acc
  | x :: xs' => acc' ← body acc x; for_each body xs' acc'
  end.

(** [try: r  except NameError: handler] *)
Definition try_except_NameError {A : Type} (r handler : result A) : result A :=
  match r with
  | Raise (NameError _) => handler
  | _ => r
  end.

(** Reading a local variable that a loop may have left unbound. *)
Definition read_local {A : Type} (name : string) (v : option A) : result A :=
  match v with
  | Some a => Ok a
  | None => Raise (NameError name)
  end.

(** [enumerate(xs)] *)
Definition enumerate {A : Type} (xs : list A) : list (nat * A) :=
  zip (seq 0 (length xs)) xs.

(** [xs[i]] for an index that is not negative. *)
Definition list_item {A : Type} (xs : list A) (i : nat) : result A :=
  match xs !! i with
  | Some a => Ok a
  | None => Raise IndexError
  end.

(** [sep.join(parts)] *)
Definition join (sep : string) (parts : list string) : string :=
  String.concat sep parts.

(** [str(n)] for an integer. *)
Definition str_int (z : Z) : string :=
  NilZero.string_of_int (Z.to_int z).

(** The characters of a string, each as a string of length one: what
    iterating over a Python string yields. *)
Fixpoint chars (s : string) : list string :=
  match s with
  | EmptyString => []
  | String c s' => String c EmptyString :: chars s'
  end.

(** [for x in v]: lists and strings are the iterable values. *)
Definition py_iter (v : pyval) : result (list pyval) :=
  match v with
  | PyList l => Ok l
  | PyStr s => Ok (PyStr <$> chars s)
  | _ => Raise TypeError
  end.

(** ** The document tree (lxml.etree) *)

Inductive element : Type :=
  Element (tag : string) (nsmap : list (option string * string))
          (attrib : list (string * string)) (text : option string)
          (children : list element).

Definition tag (e : element) : string :=
  match e with Element t _ _ _ _ => t end.
Definition attrib (e : element) : list (string * string) :=
  match e with Element _ _ a _ _ => a end.
Definition text (e : element) : option string :=
  match e with Element _ _ _ x _ => x end.
Definition children (e : element) : list element :=
  match e with Element _ _ _ _ c => c end.

(** [etree.Element(tag, nsmap=nsmap)] *)
Definition etree_Element (t : string) (ns : list (option string * string))
    : element :=
  Element t ns [] None [].

(** Setting a key of an ordered attribute dictionary: an existing key keeps
    its place and takes the new value, a new key goes last. *)
Fixpoint attrib_set (a : list (string * string)) (k v : string)
    : list (string * string) :=
  match a with
  | [] => [(k, v)]
  | (k', v') :: a' =>
      if String.eqb k' k then (k, v) :: a' else (k', v') :: attrib_set a' k v
  end.

(** [etree.SubElement(parent, tag)] creates a child and appends it to
    [parent]; the code then fills the child in place.  Here the child is
    built first, from [new_element], and appended once it is complete: every
    parent receives its children one after the other and each child is
    finished before its next sibling is created, so the tree is the same. *)
Definition new_element (t : string) : element := etree_Element t [].

Definition append_child (parent child : element) : element :=
  match parent with
  | Element t ns a x c => Element t ns a x (c ++ [child])
  end.

(** ** What the writers take from outside this module *)

(** A string of printable ASCII characters (codes 32 to 126). *)
Definition printable_char (c : ascii) : bool :=
  (32 <=? nat_of_ascii c)%nat && (nat_of_ascii c <=? 126)%nat.

Fixpoint printable (s : string) : bool :=
  match s with
  | EmptyString => true
  | String c s' => printable_char c && printable s'
  end.

(** The builtin [str] on floats and [repr] (which [str] of a list applies to
    the items), the constants of the [nrmllib] package, lxml's
    [etree.tostring(root, pretty_print=True, xml_declaration=True,
    encoding='UTF-8')], whether [open(path, 'w')] succeeds, and the check
    lxml makes on every string it is asked to store as an attribute value or
    as a text: "All strings must be XML compatible: Unicode or ASCII, no
    NULL bytes or control characters", a [ValueError] with the message
    [xml_error].

    Two facts about them are used: [str] of a float is made of digits,
    signs, a point and letters, and lxml accepts every string of printable
    ASCII characters.  The GML namespace is taken to be one that lxml
    accepts in a tag name, as are the tag and attribute names that the
    module writes as literals. *)
Class Env : Type := {
  str_float : float → string;
  py_repr : pyval → string;
  SERIALIZE_NS_MAP : list (option string * string);
  gml_ns : string;
  tostring : element → string;
  can_open : string → bool;
  xml_compatible : string → bool;
  xml_error : string;
  str_float_printable : ∀ f, printable (str_float f) = true;
  xml_compatible_printable : ∀ s, printable s = true → xml_compatible s = true;
}.

(** [str(v)] *)
Definition py_str `{Env} (v : pyval) : string :=
  match v with
  | PyNone => "None"
  | PyStr s => s
  | PyInt z => str_int z
  | PyFloat f => str_float f
  | PyList l => "[" +:+ join ", " (py_repr <$> l) +:+ "]"
  end.

(** What lxml does with a string it is asked to store. *)
Definition xml_checked `{Env} (s : string) : result string :=
  if xml_compatible s then Ok s else Raise (ValueError xml_error).

(** [e.set(k, v)].  The attribute names the writers pass are literals of
    the module, which lxml accepts; the value is checked. *)
Definition elem_set `{Env} (e : element) (k v : string) : result element :=
  v ← xml_checked v;
  Ok (match e with
      | Element t ns a x c => Element t ns (attrib_set a k v) x c
      end).

(** [e.text = s] *)
Definition set_text `{Env} (e : element) (s : string) : result element :=
  s ← xml_checked s;
  Ok (match e with
      | Element t ns a _ c => Element t ns a (Some s) c
      end).

(** ** Files *)

(** [with open(path, 'w') as fh: ...; fh.write(content)]: opening truncates
    the file; the body builds the text that is written last; the file is
    closed on both exits. *)
Definition with_open_w `{Env} (path : string) (body : result string)
    (fs : gmap string string) : gmap string string * result unit :=
  if can_open path then
    let fs1 := <[path := ""]> fs in
    match body with
    | Ok content => (<[path := content]> fs1, Ok tt)
    | Raise e => (fs1, Raise e)
    end
  else (fs, Raise (IOError path)).

(** ** Metadata dictionaries *)

(** [md.get(k)]: the value under [k], or [None] when the key is missing. *)
Definition md_get (md : gmap string pyval) (k : string) : pyval :=
  default PyNone (md !! k).

(** [md.get(k)] for a key that is itself a Python value: the keyword
    dictionary has string keys only, so any other hashable key is missing. *)
Definition md_get_val (md : gmap string pyval) (k : pyval) : pyval :=
  match k with
  | PyStr s => md_get md s
  | _ => PyNone
  end.

(** [md[k]] *)
Definition md_item (md : gmap string pyval) (k : string) : result pyval :=
  match md !! k with
  | Some v => Ok v
  | None => Raise (KeyError k)
  end.

(** ** _validate_hazard_metadata *)

Definition _validate_hazard_metadata (md : gmap string pyval) : result unit :=
  (if is_not_None (md_get md "statistics")
      && (is_not_None (md_get md "smlt_path")
          || is_not_None (md_get md "gsimlt_path"))
   then Raise (ValueError "Cannot specify both `statistics` and logic tree paths")
   else Ok tt) ;;
  (if is_not_None (md_get md "statistics")
   then
     if negb (py_in_strs (md_get md "statistics") ["mean"; "quantile"])
     then Raise (ValueError "`statistics` must be either `mean` or `quantile`")
     else Ok tt
   else
     if is_None (md_get md "smlt_path") || is_None (md_get md "gsimlt_path")
     then Raise (ValueError
                   "Both logic tree paths are required for non-statistical results")
     else Ok tt) ;;
  (if py_eq_str (md_get md "statistics") "quantile"
   then
     if is_None (md_get md "quantile_value")
     then Raise (ValueError
                   "quantile stastics results require a quantile value to be specified")
     else Ok tt
   else Ok tt) ;;
  (if negb (py_eq_str (md_get md "statistics") "quantile")
   then
     if is_not_None (md_get md "quantile_value")
     then Raise (ValueError
                   "Quantile value must be specified with quantile statistics")
     else Ok tt
   else Ok tt) ;;
  (if py_eq_str (md_get md "imt") "SA"
   then
     (if is_None (md_get md "sa_period")
      then Raise (ValueError "`sa_period` is required for IMT == `SA`")
      else Ok tt) ;;
     (if is_None (md_get md "sa_damping")
      then Raise (ValueError "`sa_damping` is required for IMT == `SA`")
      else Ok tt)
   else Ok tt).

(** ** Module constants and _set_metadata *)

Definition SM_TREE_PATH : string := "sourceModelTreePath".
Definition GSIM_TREE_PATH : string := "gsimTreePath".

(** Maps XML writer constructor keywords to XML attribute names. *)
Definition _ATTR_MAP : list (string * string) :=
  [ ("statistics", "statistics");
    ("quantile_value", "quantileValue");
    ("smlt_path", "sourceModelTreePath");
    ("gsimlt_path", "gsimTreePath");
    ("imt", "IMT");
    ("investigation_time", "investigationTime");
    ("sa_period", "saPeriod");
    ("sa_damping", "saDamping");
    ("poe", "poE");
    ("lon", "lon");
    ("lat", "lat") ].

Definition _set_metadata `{Env} (elt : element) (metadata : gmap string pyval)
    (attr_map : list (string * string)) (transform : pyval → result string)
    : result element :=
  for_each
    (fun element '(kw, attr) =>
       let value := md_get metadata kw in
       if is_not_None value
       then v ← transform value; elem_set element attr v
       else Ok element)
    attr_map elt.
Arguments _set_metadata : simpl never.

(** ** Records handed to serialize *)

(** The objects the writers read attributes from.  An attribute that a
    record may lack is an [option].  The attributes that the docstrings of
    the writers give as numbers (coordinates, intensity levels,
    probabilities, magnitudes, angles, periods, investigation times, the
    cells of a matrix) are numbers; [imt], the logic-tree paths and the
    dimension labels are strings; the tectonic region type is any value. *)
Record location : Type := { x : number; y : number }.

Record hazard_curve : Type := {
  poes : list number;
  hc_location : location;
}.

Record gmf_node : Type := {
  gmf_iml : number;
  gmf_location : location;
}.

Record gmf : Type := {
  imt : string;
  sa_period : option number;
  sa_damping : option number;
  gmf_nodes : list gmf_node;
}.

Record gmf_set : Type := {
  gmf_investigation_time : number;
  gmfs : list gmf;
}.

Record rupture : Type := {
  magnitude : number;
  strike : number;
  dip : number;
  rake : number;
  tectonic_region_type : pyval;
  is_from_fault_source : bool;
  lons : list (list number);
  lats : list (list number);
  depths : list (list number);
  top_left_corner : list number;
  top_right_corner : list number;
  bottom_right_corner : list number;
  bottom_left_corner : list number;
}.

Record ses : Type := {
  ses_investigation_time : number;
  ruptures : list rupture;
}.

(** A numpy array of numbers: its shape and its cells in C (row-major)
    order. *)
Record ndarray : Type := {
  shape : list nat;
  flat : list number;
}.

Record disagg_result : Type := {
  matrix : ndarray;
  dim_labels : list string;
  poe : number;
  iml : number;
}.

(** [getattr(obj, name)] for an attribute the object may lack. *)
Definition getattr {A : Type} (name : string) (v : option A) : result A :=
  match v with
  | Some a => Ok a
  | None => Raise (AttributeError name)
  end.

(** ** HazardCurveXMLWriter *)

Module HazardCurveXMLWriter.
Section Defs.
Context `{Env}.

Record t : Type := { path : string; metadata : gmap string pyval }.

Definition __init__ (path : string) (metadata : gmap string pyval) : result t :=
  _validate_hazard_metadata metadata;;
  Ok {| path := path; metadata := metadata |}.

(** The body of the loop over [data]. *)
Definition add_curve (hazard_curves : element) (hc : hazard_curve)
    : result element :=
  gml_pos ←
    set_text (new_element ("{" +:+ gml_ns +:+ "}pos"))
             (py_str (x (hc_location hc)) +:+ " " +:+ py_str (y (hc_location hc)));
  let gml_point := append_child (new_element ("{" +:+ gml_ns +:+ "}Point")) gml_pos in
  poes_elem ←
    set_text (new_element "poEs")
             (join " " ((fun p : number => py_str (num_val p)) <$> poes hc));
  let hc_elem :=
    append_child (append_child (new_element "hazardCurve") gml_point) poes_elem in
  Ok (append_child hazard_curves hc_elem).

(** The tree built inside the [with] block. *)
Definition build (self : t) (data : list hazard_curve) : result element :=
  let root := etree_Element "nrml" SERIALIZE_NS_MAP in
  hazard_curves ←
    _set_metadata (new_element "hazardCurves") (metadata self) _ATTR_MAP
                  (fun v => Ok (py_str v));
  imls ← md_item (metadata self) "imls";
  xs ← py_iter imls;
  imls_elem ← set_text (new_element "IMLs") (join " " (py_str <$> xs));
  let hazard_curves := append_child hazard_curves imls_elem in
  hazard_curves ← for_each add_curve data hazard_curves;
  Ok (append_child root hazard_curves).

Definition serialize (self : t) (data : list hazard_curve)
    (fs : gmap string string) : gmap string string * result unit :=
  with_open_w (path self) (tostring <$> build self data) fs.
End Defs.
End HazardCurveXMLWriter.

(** ** GMF elements shared by the two GMF writers *)

Section GMF.
Context `{Env}.

Definition add_gmf_node (gmf_elem : element) (gmf_node : gmf_node)
    : result element :=
  let node_elem := new_element "node" in
  node_elem ← elem_set node_elem "iml" (py_str (gmf_iml gmf_node));
  node_elem ← elem_set node_elem "lon" (py_str (x (gmf_location gmf_node)));
  node_elem ← elem_set node_elem "lat" (py_str (y (gmf_location gmf_node)));
  Ok (append_child gmf_elem node_elem).

(** The body of the loop over the GMFs of a set (or of the scenario). *)
Definition add_gmf (parent : element) (g : gmf) : result element :=
  gmf_elem ← elem_set (new_element "gmf") "IMT" (imt g);
  gmf_elem ←
    (if String.eqb (imt g) "SA" then
       p ← getattr "sa_period" (sa_period g);
       gmf_elem ← elem_set gmf_elem "saPeriod" (py_str (num_val p));
       d ← getattr "sa_damping" (sa_damping g);
       elem_set gmf_elem "saDamping" (py_str (num_val d))
     else Ok gmf_elem);
  gmf_elem ← for_each add_gmf_node (gmf_nodes g) gmf_elem;
  Ok (append_child parent gmf_elem).
End GMF.

(** ** EventBasedGMFXMLWriter *)

Module EventBasedGMFXMLWriter.
Section Defs.
Context `{Env}.

Record t : Type := {
  path : string;
  sm_lt_path : option string;
  gsim_lt_path : option string;
}.

Definition __init__ (path : string) (sm_lt_path gsim_lt_path : option string)
    : result t :=
  Ok {| path := path; sm_lt_path := sm_lt_path; gsim_lt_path := gsim_lt_path |}.

Definition add_gmf_set (gmf_container : element) (s : gmf_set) : result element :=
  gmf_set_elem ←
    elem_set (new_element "gmfSet") "investigationTime"
             (py_str (gmf_investigation_time s));
  gmf_set_elem ← for_each add_gmf (gmfs s) gmf_set_elem;
  Ok (append_child gmf_container gmf_set_elem).

Definition build (self : t) (data : list gmf_set) : result element :=
  let root := etree_Element "nrml" SERIALIZE_NS_MAP in
  match sm_lt_path self, gsim_lt_path self with
  | Some sm, Some gsim =>
      (* A normal GMF collection *)
      let gmf_container := new_element "gmfCollection" in
      gmf_container ← elem_set gmf_container SM_TREE_PATH sm;
      gmf_container ← elem_set gmf_container GSIM_TREE_PATH gsim;
      gmf_container ← for_each add_gmf_set data gmf_container;
      Ok (append_child root gmf_container)
  | _, _ =>
      (* no <gmfCollection>: the sets go underneath the root *)
      for_each add_gmf_set data root
  end.

Definition serialize (self : t) (data : list gmf_set)
    (fs : gmap string string) : gmap string string * result unit :=
  with_open_w (path self) (tostring <$> build self data) fs.
End Defs.
End EventBasedGMFXMLWriter.

(** ** SESXMLWriter *)

Module SESXMLWriter.
Section Defs.
Context `{Env}.

Record t : Type := {
  path : string;
  sm_lt_path : option string;
  gsim_lt_path : option string;
}.

Definition __init__ (path : string) (sm_lt_path gsim_lt_path : option string)
    : result t :=
  Ok {| path := path; sm_lt_path := sm_lt_path; gsim_lt_path := gsim_lt_path |}.

(** The state of the two nested loops of [_create_rupture_mesh]: the mesh
    element and the loop variables [i] and [j], unbound until a loop
    assigns them. *)
Definition mesh_state : Type := (element * option nat * option nat)%type.

Definition add_mesh_node (rupture : rupture) (i : nat)
    (st : mesh_state) (jc : nat * number) : result mesh_state :=
  let '(mesh_elem, _, _) := st in
  let j := jc.1 in
  let node_elem := new_element "node" in
  node_elem ← elem_set node_elem "row" (str_int (Z.of_nat i));
  node_elem ← elem_set node_elem "col" (str_int (Z.of_nat j));
  lon ← (row ← list_item (lons rupture) i; list_item row j);
  node_elem ← elem_set node_elem "lon" (py_str (num_val lon));
  lat ← (row ← list_item (lats rupture) i; list_item row j);
  node_elem ← elem_set node_elem "lat" (py_str (num_val lat));
  depth ← (row ← list_item (depths rupture) i; list_item row j);
  node_elem ← elem_set node_elem "depth" (py_str (num_val depth));
  Ok (append_child mesh_elem node_elem, Some i, Some j).

Definition add_mesh_row (rupture : rupture)
    (st : mesh_state) (ir : nat * list number) : result mesh_state :=
  let '(mesh_elem, _, j) := st in
  let i := ir.1 in
  for_each (add_mesh_node rupture i) (enumerate ir.2) (mesh_elem, Some i, j).

Definition _create_rupture_mesh (rupture : rupture) (rup_elem : element)
    : result element :=
  let mesh_elem := new_element "mesh" in
  (* we assume the mesh components (lons, lats, depths) are of uniform shape *)
  st ← for_each (add_mesh_row rupture) (enumerate (lons rupture))
                (mesh_elem, None, None);
  let '(mesh_elem, i, j) := st in
  mesh_elem ←
    try_except_NameError
      (i ← read_local "i" i;
       mesh_elem ← elem_set mesh_elem "rows" (str_int (Z.of_nat i + 1));
       j ← read_local "j" j;
       elem_set mesh_elem "cols" (str_int (Z.of_nat j + 1)))
      (Raise (ValueError "Invalid rupture mesh"));
  Ok (append_child rup_elem mesh_elem).

Definition add_corner (ps_elem : element) (nc : string * list number)
    : result element :=
  let '(el_name, corner) := nc in
  let corner_elem := new_element el_name in
  lon ← list_item corner 0%nat;
  corner_elem ← elem_set corner_elem "lon" (py_str (num_val lon));
  lat ← list_item corner 1%nat;
  corner_elem ← elem_set corner_elem "lat" (py_str (num_val lat));
  depth ← list_item corner 2%nat;
  corner_elem ← elem_set corner_elem "depth" (py_str (num_val depth));
  Ok (append_child ps_elem corner_elem).

Definition _create_planar_surface (rupture : rupture) (rup_elem : element)
    : result element :=
  ps_elem ←
    for_each add_corner
      [ ("topLeft", top_left_corner rupture);
        ("topRight", top_right_corner rupture);
        ("bottomRight", bottom_right_corner rupture);
        ("bottomLeft", bottom_left_corner rupture) ]
      (new_element "planarSurface");
  Ok (append_child rup_elem ps_elem).

Definition add_rupture (ses_elem : element) (rupture : rupture) : result element :=
  let rup_elem := new_element "rupture" in
  rup_elem ← elem_set rup_elem "magnitude" (py_str (magnitude rupture));
  rup_elem ← elem_set rup_elem "strike" (py_str (strike rupture));
  rup_elem ← elem_set rup_elem "dip" (py_str (dip rupture));
  rup_elem ← elem_set rup_elem "rake" (py_str (rake rupture));
  rup_elem ←
    elem_set rup_elem "tectonicRegion" (py_str (tectonic_region_type rupture));
  rup_elem ←
    (if is_from_fault_source rupture
     then _create_rupture_mesh rupture rup_elem
     else _create_planar_surface rupture rup_elem);
  Ok (append_child ses_elem rup_elem).

Definition add_ses (ses_container : element) (s : ses) : result element :=
  ses_elem ←
    elem_set (new_element "stochasticEventSet") "investigationTime"
             (py_str (ses_investigation_time s));
  ses_elem ← for_each add_rupture (ruptures s) ses_elem;
  Ok (append_child ses_container ses_elem).

Definition build (self : t) (data : list ses) : result element :=
  let root := etree_Element "nrml" SERIALIZE_NS_MAP in
  match sm_lt_path self, gsim_lt_path self with
  | Some sm, Some gsim =>
      (* A normal stochastic event set collection *)
      let ses_container := new_element "stochasticEventSetCollection" in
      ses_container ← elem_set ses_container SM_TREE_PATH sm;
      ses_container ← elem_set ses_container GSIM_TREE_PATH gsim;
      ses_container ← for_each add_ses data ses_container;
      Ok (append_child root ses_container)
  | _, _ =>
      (* no `stochasticEventSetCollection` tag *)
      for_each add_ses data root
  end.

Definition serialize (self : t) (data : list ses)
    (fs : gmap string string) : gmap string string * result unit :=
  with_open_w (path self) (tostring <$> build self data) fs.
End Defs.
End SESXMLWriter.

(** ** HazardMapXMLWriter *)

Module HazardMapXMLWriter.
Section Defs.
Context `{Env}.

Record t : Type := { path : string; metadata : gmap string pyval }.

Definition __init__ (path : string) (metadata : gmap string pyval) : result t :=
  _validate_hazard_metadata metadata;;
  Ok {| path := path; metadata := metadata |}.

Definition add_node (hazard_map : element) (datum : number * number * number)
    : result element :=
  let '(lon, lat, iml) := datum in
  let node := new_element "node" in
  node ← elem_set node "lon" (py_str (num_val lon));
  node ← elem_set node "lat" (py_str (num_val lat));
  node ← elem_set node "iml" (py_str (num_val iml));
  Ok (append_child hazard_map node).

Definition build (self : t) (data : list (number * number * number))
    : result element :=
  let root := etree_Element "nrml" SERIALIZE_NS_MAP in
  hazard_map ←
    _set_metadata (new_element "hazardMap") (metadata self) _ATTR_MAP
                  (fun v => Ok (py_str v));
  hazard_map ← for_each add_node data hazard_map;
  Ok (append_child root hazard_map).

Definition serialize (self : t) (data : list (number * number * number))
    (fs : gmap string string) : gmap string string * result unit :=
  with_open_w (path self) (tostring <$> build self data) fs.
End Defs.
End HazardMapXMLWriter.

(** ** nrmllib.utils *)

Module utils.
(** All index tuples of an array of the given shape, in lexicographic
    (row-major) order. *)
Fixpoint ndindex (shape : list nat) : list (list nat) :=
  match shape with
  | [] => [[]]
  | n :: shape' => i ← seq 0 n; (cons i) <$> ndindex shape'
  end.

(** The number of cells of an array of the given shape. *)
Definition size (shape : list nat) : nat := foldr Nat.mul 1%nat shape.

(** The offset of the cell at [idx] among the cells in row-major order. *)
Fixpoint ravel (shape idx : list nat) : nat :=
  match shape, idx with
  | _ :: shape', i :: idx' => (i * size shape' + ravel shape' idx')%nat
  | _, _ => 0%nat
  end.

(** [a[idx]] *)
Definition item (a : ndarray) (idx : list nat) : option number :=
  flat a !! ravel (shape a) idx.

(** Modelled from the spec: [utils.ndenumerate] lives in nrmllib/utils.py,
    which is not among the sources.  The specification describes it as the
    numeric table enumerator that, given an N-dimensional matrix, yields
    (index-tuple, value) pairs in a fixed canonical order, the row-major /
    lexicographic enumeration over all axes, covering every cell exactly
    once. *)
Definition ndenumerate (a : ndarray) : list (list nat * number) :=
  omap (fun idx => pair idx <$> item a idx) (ndindex (shape a)).
End utils.

(** ** DisaggXMLWriter *)

Module DisaggXMLWriter.
Section Defs.
Context `{Env}.

Record t : Type := { path : string; metadata : gmap string pyval }.

(** Maps metadata keywords to XML attribute names for bin edge
    information passed to the constructor. *)
Definition BIN_EDGE_ATTR_MAP : list (string * string) :=
  [ ("mag_bin_edges", "magBinEdges");
    ("dist_bin_edges", "distBinEdges");
    ("lon_bin_edges", "lonBinEdges");
    ("lat_bin_edges", "latBinEdges");
    ("eps_bin_edges", "epsBinEdges");
    ("tectonic_region_types", "tectonicRegionTypes") ].

Definition DIM_LABEL_TO_BIN_EDGE_MAP : gmap string string :=
  list_to_map
    [ ("Mag", "mag_bin_edges");
      ("Dist", "dist_bin_edges");
      ("Lon", "lon_bin_edges");
      ("Lat", "lat_bin_edges");
      ("Eps", "eps_bin_edges");
      ("TRT", "tectonic_region_types") ].

Definition __init__ (path : string) (metadata : gmap string pyval) : result t :=
  _validate_hazard_metadata metadata;;
  Ok {| path := path; metadata := metadata |}.

(** [lambda val: ', '.join([str(x) for x in val])] *)
Definition transform (val : pyval) : result string :=
  xs ← py_iter val; Ok (join ", " (py_str <$> xs)).

(** [self.DIM_LABEL_TO_BIN_EDGE_MAP.get(label)] *)
Definition bin_edge_attr (label : string) : pyval :=
  from_option PyStr PyNone (DIM_LABEL_TO_BIN_EDGE_MAP !! label).

(** The body of the loop over [result.dim_labels]: the [assert] statement
    (executed, as Python does unless run with -O). *)
Definition check_label (self : t) (_ : unit) (label : string) : result unit :=
  let bin_edge_attr := bin_edge_attr label in
  if is_not_None (md_get_val (metadata self) bin_edge_attr)
  then Ok tt
  else Raise (AssertionError
                ("Writer is missing '" +:+ py_str bin_edge_attr +:+ "' metadata")).

Definition add_prob (diss_matrix : element) (cell : list nat * number)
    : result element :=
  let '(idxs, value) := cell in
  let prob := new_element "prob" in
  let index := join "," ((fun x => str_int (Z.of_nat x)) <$> idxs) in
  prob ← elem_set prob "index" index;
  prob ← elem_set prob "value" (py_str value);
  Ok (append_child diss_matrix prob).

(** The body of the loop over [data]. *)
Definition add_result (self : t) (diss_matrices : element) (res : disagg_result)
    : result element :=
  let diss_matrix := new_element "disaggMatrix" in
  (* Check that we have bin edges defined for each dimension label *)
  for_each (check_label self) (dim_labels res) tt;;
  let result_type := join "," (dim_labels res) in
  diss_matrix ← elem_set diss_matrix "type" result_type;
  let dims := join "," ((fun x => str_int (Z.of_nat x)) <$> shape (matrix res)) in
  diss_matrix ← elem_set diss_matrix "dims" dims;
  diss_matrix ← elem_set diss_matrix "poE" (py_str (poe res));
  diss_matrix ← elem_set diss_matrix "iml" (py_str (iml res));
  diss_matrix ← for_each add_prob (utils.ndenumerate (matrix res)) diss_matrix;
  Ok (append_child diss_matrices diss_matrix).

Definition build (self : t) (data : list disagg_result) : result element :=
  let root := etree_Element "nrml" SERIALIZE_NS_MAP in
  diss_matrices ←
    _set_metadata (new_element "disaggMatrices") (metadata self) _ATTR_MAP
                  (fun v => Ok (py_str v));
  diss_matrices ←
    _set_metadata diss_matrices (metadata self) BIN_EDGE_ATTR_MAP transform;
  diss_matrices ← for_each (add_result self) data diss_matrices;
  Ok (append_child root diss_matrices).

Definition serialize (self : t) (data : list disagg_result)
    (fs : gmap string string) : gmap string string * result unit :=
  with_open_w (path self) (tostring <$> build self data) fs.
End Defs.
End DisaggXMLWriter.

(** ** ScenarioGMFXMLWriter *)

Module ScenarioGMFXMLWriter.
Section Defs.
Context `{Env}.

Record t : Type := { path : string }.

Definition __init__ (path : string) : result t := Ok {| path := path |}.

Definition build (self : t) (data : list gmf) : result element :=
  let root := etree_Element "nrml" SERIALIZE_NS_MAP in
  let gmfset := new_element "gmfSet" in
  gmfset ← for_each add_gmf data gmfset;
  Ok (append_child root gmfset).

Definition serialize (self : t) (data : list gmf)
    (fs : gmap string string) : gmap string string * result unit :=
  with_open_w (path self) (tostring <$> build self data) fs.
End Defs.
End ScenarioGMFXMLWriter.

(** The validity condition in the words of the specification: exactly one of
    the two result kinds, a quantile value exactly for quantile statistics,
    and both SA fields exactly for [imt == 'SA']. *)
Definition statistics_kind (md : gmap string pyval) : bool :=
  py_in_strs (md_get md "statistics") ["mean"; "quantile"]
  && is_None (md_get md "smlt_path") && is_None (md_get md "gsimlt_path").

Definition logic_tree_kind (md : gmap string pyval) : bool :=
  is_not_None (md_get md "smlt_path") && is_not_None (md_get md "gsimlt_path")
  && is_None (md_get md "statistics").

Definition quantile_rule (md : gmap string pyval) : bool :=
  Bool.eqb (is_not_None (md_get md "quantile_value"))
           (py_eq_str (md_get md "statistics") "quantile").

Definition spec_valid_metadata (md : gmap string pyval) : bool :=
  xorb (statistics_kind md) (logic_tree_kind md)
  && quantile_rule md
  && Bool.eqb (is_not_None (md_get md "sa_period")
               && is_not_None (md_get md "sa_damping"))
              (py_eq_str (md_get md "imt") "SA").

(** What the validator checks: the SA fields are required for [imt == 'SA']
    and not looked at otherwise. *)
Definition valid_metadata (md : gmap string pyval) : bool :=
  xorb (statistics_kind md) (logic_tree_kind md)
  && quantile_rule md
  && implb (py_eq_str (md_get md "imt") "SA")
           (is_not_None (md_get md "sa_period")
            && is_not_None (md_get md "sa_damping")).

(** ** The emitted elements, one input record at a time

    What each writer emits for one record of its input, written as a value
    rather than as a sequence of tree updates.  The properties below relate
    the loops of the writers to these descriptions. *)

Definition append_children (parent : element) (es : list element) : element :=
  match parent with
  | Element t ns a x c => Element t ns a x (c ++ es)
  end.

Section Descriptions.
Context `{Env}.

Definition hazard_curve_elem (hc : hazard_curve) : element :=
  Element "hazardCurve" [] [] None
    [ Element ("{" +:+ gml_ns +:+ "}Point") [] [] None
        [ Element ("{" +:+ gml_ns +:+ "}pos") [] []
            (Some (py_str (x (hc_location hc)) +:+ " " +:+ py_str (y (hc_location hc))))
            [] ];
      Element "poEs" [] []
        (Some (join " " ((fun p : number => py_str (num_val p)) <$> poes hc))) [] ].

(** The [hazardCurves] container before the first curve: the mapped
    metadata and the [IMLs] child. *)
Definition hazard_curves_head (md : gmap string pyval) : result element :=
  hazard_curves ←
    _set_metadata (new_element "hazardCurves") md _ATTR_MAP (fun v => Ok (py_str v));
  imls ← md_item md "imls";
  xs ← py_iter imls;
  imls_text ← xml_checked (join " " (py_str <$> xs));
  Ok (append_child hazard_curves (Element "IMLs" [] [] (Some imls_text) [])).

Definition hazard_map_node_elem (datum : number * number * number) : element :=
  Element "node" []
    [ ("lon", py_str datum.1.1); ("lat", py_str datum.1.2); ("iml", py_str datum.2) ]
    None [].

Definition gmf_node_elem (n : gmf_node) : element :=
  Element "node" []
    [ ("iml", py_str (gmf_iml n));
      ("lon", py_str (x (gmf_location n)));
      ("lat", py_str (y (gmf_location n))) ]
    None [].

Definition gmf_attrs (g : gmf) : result (list (string * string)) :=
  if String.eqb (imt g) "SA" then
    p ← getattr "sa_period" (sa_period g);
    d ← getattr "sa_damping" (sa_damping g);
    Ok [ ("IMT", imt g); ("saPeriod", py_str (num_val p)); ("saDamping", py_str (num_val d)) ]
  else
    imt ← xml_checked (imt g);
    Ok [ ("IMT", imt) ].

Definition gmf_elem (g : gmf) : result element :=
  a ← gmf_attrs g;
  Ok (Element "gmf" [] a None (gmf_node_elem <$> gmf_nodes g)).

Definition gmf_set_elem (s : gmf_set) : result element :=
  es ← mapM gmf_elem (gmfs s);
  Ok (Element "gmfSet" []
        [ ("investigationTime", py_str (gmf_investigation_time s)) ] None es).

(** The [rupture] element: its five attributes, then the geometry that
    the mesh or the planar-surface encoder adds. *)
Definition rupture_elem (r : rupture) : result element :=
  tectonic_region ← xml_checked (py_str (tectonic_region_type r));
  let rup_elem :=
    Element "rupture" []
      [ ("magnitude", py_str (magnitude r));
        ("strike", py_str (strike r));
        ("dip", py_str (dip r));
        ("rake", py_str (rake r));
        ("tectonicRegion", tectonic_region) ]
      None [] in
  if is_from_fault_source r
  then SESXMLWriter._create_rupture_mesh r rup_elem
  else SESXMLWriter._create_planar_surface r rup_elem.

Definition ses_elem (s : ses) : result element :=
  es ← mapM rupture_elem (ruptures s);
  Ok (Element "stochasticEventSet" []
        [ ("investigationTime", py_str (ses_investigation_time s)) ] None es).

Definition str_ints (ns : list nat) : string :=
  join "," ((fun n => str_int (Z.of_nat n)) <$> ns).

Definition prob_elem (cell : list nat * number) : element :=
  Element "prob" [] [ ("index", str_ints cell.1); ("value", py_str cell.2) ] None [].

Definition disagg_matrix_elem (w : DisaggXMLWriter.t) (res : disagg_result)
    : result element :=
  for_each (DisaggXMLWriter.check_label w) (dim_labels res) tt;;
  Ok (Element "disaggMatrix" []
        [ ("type", join "," (dim_labels res));
          ("dims", str_ints (shape (matrix res)));
          ("poE", py_str (poe res));
          ("iml", py_str (iml res)) ]
        None (prob_elem <$> utils.ndenumerate (matrix res))).

(** The [disaggMatrices] container before the first result. *)
Definition disagg_head (md : gmap string pyval) : result element :=
  diss_matrices ←
    _set_metadata (new_element "disaggMatrices") md _ATTR_MAP (fun v => Ok (py_str v));
  _set_metadata diss_matrices md DisaggXMLWriter.BIN_EDGE_ATTR_MAP
                DisaggXMLWriter.transform.

(** The children of the root of a GMF or SES document: a collection
    element around the sets when both logic-tree paths are given, the sets
    themselves otherwise. *)
Definition collection (tag : string) (sm_lt_path gsim_lt_path : option string)
    (sets : list element) : list element :=
  match sm_lt_path, gsim_lt_path with
  | Some sm, Some gsim =>
      [ Element tag [] [ (SM_TREE_PATH, sm); (GSIM_TREE_PATH, gsim) ] None sets ]
  | _, _ => sets
  end.

(** lxml accepts the two logic-tree paths as attribute values of the
    collection element; nothing is stored when one of them is missing. *)
Definition paths_accepted (sm_lt_path gsim_lt_path : option string) : bool :=
  match sm_lt_path, gsim_lt_path with
  | Some sm, Some gsim => xml_compatible sm && xml_compatible gsim
  | _, _ => true
  end.

(** The two logic-tree paths, as lxml takes them for the collection
    element; nothing is stored when one of them is missing. *)
Definition checked_paths (sm_lt_path gsim_lt_path : option string) : result unit :=
  match sm_lt_path, gsim_lt_path with
  | Some sm, Some gsim => xml_checked sm;; xml_checked gsim;; Ok tt
  | _, _ => Ok tt
  end.

Definition nrml (cs : list element) : element :=
  Element "nrml" SERIALIZE_NS_MAP [] None cs.
End Descriptions.

(** ** A concrete environment

    Used to run the writers on concrete inputs: a plain rendering of the
    tree, a table for the floats that the examples use (with the twelve
    significant digits of Python 2's [str]), every path writable, and the
    check lxml makes on a byte string: ASCII only, and no control character
    other than tab, line feed and carriage return. *)

Definition show_attr (kv : string * string) : string :=
  " " +:+ kv.1 +:+ "='" +:+ kv.2 +:+ "'".

Fixpoint show_element (e : element) : string :=
  match e with
  | Element t _ a x c =>
      "<" +:+ t +:+ String.concat "" (show_attr <$> a) +:+ ">"
      +:+ default "" x
      +:+ String.concat "" (map show_element c)
      +:+ "</" +:+ t +:+ ">"
  end.

Definition table_str_float (f : float) : string :=
  default "?"
    (snd <$> find (fun kv => PrimFloat.eqb f kv.1)
       [ (0.1, "0.1"); (0.10000000000000002, "0.1"); (0.2, "0.2"); (0.3, "0.3");
         (0.5, "0.5"); (0.9, "0.9"); (1.0, "1.0"); (2.0, "2.0") ]%float).

Definition xml_char (c : ascii) : bool :=
  ((32 <=? nat_of_ascii c)%nat && (nat_of_ascii c <=? 127)%nat)
  || Nat.eqb (nat_of_ascii c) 9 || Nat.eqb (nat_of_ascii c) 10
  || Nat.eqb (nat_of_ascii c) 13.

Fixpoint xml_ascii (s : string) : bool :=
  match s with
  | EmptyString => true
  | String c s' => xml_char c && xml_ascii s'
  end.

Definition table_str_float_printable (f : float)
    : printable (table_str_float f) = true.
Proof.
  unfold table_str_float. cbn [find fst].
  repeat (destruct (PrimFloat.eqb f _); [reflexivity|]).
  reflexivity.
Qed.

Definition xml_ascii_printable (s : string)
    : printable s = true → xml_ascii s = true.
Proof.
  induction s as [|c s IH]; [done|].
  cbn [printable xml_ascii]. intros [Hc Hs]%andb_true_iff.
  rewrite (IH Hs), andb_true_r. unfold xml_char.
  unfold printable_char in Hc. apply andb_true_iff in Hc as [Hlo Hhi].
  rewrite Hlo. apply Nat.leb_le in Hhi.
  replace (nat_of_ascii c <=? 127)%nat with true; [done|].
  symmetry. apply Nat.leb_le. lia.
Qed.

#[local] Instance demo_env : Env := {|
  str_float := table_str_float;
  py_repr := fun _ => "?";
  SERIALIZE_NS_MAP := [(None, "http://openquake.org/xmlns/nrml/0.4");
                       (Some "gml", "http://www.opengis.net/gml")];
  gml_ns := "http://www.opengis.net/gml";
  tostring := show_element;
  can_open := fun _ => true;
  xml_compatible := xml_ascii;
  xml_error :=
    "All strings must be XML compatible: Unicode or ASCII, "
    +:+ "no NULL bytes or control characters";
  str_float_printable := table_str_float_printable;
  xml_compatible_printable := xml_ascii_printable;
|}.

(** ** Concrete inputs *)

(** Logic-tree paths given, [imt='PGA'], and the two SA fields given all the
    same. *)
Definition md_pga_with_sa : gmap string pyval :=
  <["smlt_path" := PyStr "b1"]>
  (<["gsimlt_path" := PyStr "g1"]>
  (<["imt" := PyStr "PGA"]>
  (<["sa_period" := PyFloat 0.1]>
  (<["sa_damping" := PyInt 5]> ∅)))).

(** Scenario B: statistics together with a logic-tree path. *)
Definition md_B : gmap string pyval :=
  <["statistics" := PyStr "mean"]> (<["smlt_path" := PyStr "b1"]> ∅).

(** A valid record without the [imls] keyword. *)
Definition md_no_imls : gmap string pyval :=
  <["statistics" := PyStr "mean"]> (<["imt" := PyStr "PGA"]> ∅).

(** A record that passes the validator, lacks [imls], and whose [imt] is
    the control character of code 1, a string lxml refuses. *)
Definition md_control_char : gmap string pyval :=
  <["statistics" := PyStr "mean"]>
  (<["imt" := PyStr (String (ascii_of_nat 1) EmptyString)]> ∅).

(** ** The writers and their constructor arguments *)

(** The arguments each of the six constructors takes. *)
Inductive writer_args : Type :=
  | HazardCurveArgs (path : string) (metadata : gmap string pyval)
  | HazardMapArgs (path : string) (metadata : gmap string pyval)
  | DisaggArgs (path : string) (metadata : gmap string pyval)
  | EventBasedGMFArgs (path : string) (sm_lt_path gsim_lt_path : option string)
  | SESArgs (path : string) (sm_lt_path gsim_lt_path : option string)
  | ScenarioGMFArgs (path : string).

Inductive writer : Type :=
  | AHazardCurveXMLWriter (w : HazardCurveXMLWriter.t)
  | AHazardMapXMLWriter (w : HazardMapXMLWriter.t)
  | ADisaggXMLWriter (w : DisaggXMLWriter.t)
  | AnEventBasedGMFXMLWriter (w : EventBasedGMFXMLWriter.t)
  | ASESXMLWriter (w : SESXMLWriter.t)
  | AScenarioGMFXMLWriter (w : ScenarioGMFXMLWriter.t).

Definition construct (a : writer_args) : result writer :=
  match a with
  | HazardCurveArgs p md => AHazardCurveXMLWriter <$> HazardCurveXMLWriter.__init__ p md
  | HazardMapArgs p md => AHazardMapXMLWriter <$> HazardMapXMLWriter.__init__ p md
  | DisaggArgs p md => ADisaggXMLWriter <$> DisaggXMLWriter.__init__ p md
  | EventBasedGMFArgs p sm gsim =>
      AnEventBasedGMFXMLWriter <$> EventBasedGMFXMLWriter.__init__ p sm gsim
  | SESArgs p sm gsim => ASESXMLWriter <$> SESXMLWriter.__init__ p sm gsim
  | ScenarioGMFArgs p => AScenarioGMFXMLWriter <$> ScenarioGMFXMLWriter.__init__ p
  end.

(** The logic-tree paths of a GMF or SES writer as a metadata record. *)
Definition paths_metadata (sm_lt_path gsim_lt_path : option string)
    : gmap string pyval :=
  <["smlt_path" := from_option PyStr PyNone sm_lt_path]>
  (<["gsimlt_path" := from_option PyStr PyNone gsim_lt_path]> ∅).

(** The metadata that the constructor arguments carry. *)
Definition args_metadata (a : writer_args) : gmap string pyval :=
  match a with
  | HazardCurveArgs _ md | HazardMapArgs _ md | DisaggArgs _ md => md
  | EventBasedGMFArgs _ sm gsim | SESArgs _ sm gsim => paths_metadata sm gsim
  | ScenarioGMFArgs _ => ∅
  end.

(** The three writers that take a metadata record. *)
Definition takes_metadata (a : writer_args) : bool :=
  match a with
  | HazardCurveArgs _ _ | HazardMapArgs _ _ | DisaggArgs _ _ => true
  | _ => false
  end.

(** Scenario A: the metadata, the curve and the expected document. *)
Definition md_A : gmap string pyval :=
  <["imt" := PyStr "PGA"]>
  (<["smlt_path" := PyStr "b1"]>
  (<["gsimlt_path" := PyStr "g1"]>
  (<["investigation_time" := PyInt 50]>
  (<["imls" := PyList [PyFloat 0.1; PyFloat 0.2; PyFloat 0.3]]> ∅)))).

Definition curve_A : hazard_curve :=
  {| poes := [NFloat 0.9; NFloat 0.5; NFloat 0.1];
     hc_location := {| x := NFloat 1.0; y := NFloat 2.0 |} |}.

Definition hazard_curves_A `{Env} : element :=
  Element "hazardCurves" []
    [ ("sourceModelTreePath", "b1"); ("gsimTreePath", "g1");
      ("IMT", "PGA"); ("investigationTime", "50") ]
    None
    [ Element "IMLs" [] [] (Some "0.1 0.2 0.3") [];
      Element "hazardCurve" [] [] None
        [ Element ("{" +:+ gml_ns +:+ "}Point") [] [] None
            [ Element ("{" +:+ gml_ns +:+ "}pos") [] [] (Some "1.0 2.0") [] ];
          Element "poEs" [] [] (Some "0.9 0.5 0.1") [] ] ].

(** The elements [es] are the encodings of the records [data], position by
    position: as many elements as records, the k-th element made from the
    k-th record. *)
Definition encoded_in_order {A : Type} (enc : A → result element)
    (data : list A) (es : list element) : Prop :=
  Forall2 (fun d e => enc d = Ok e) data es.

(** Scenario C: one GMF set with one GMF of two nodes. *)
Definition gmf_set_C : gmf_set :=
  {| gmf_investigation_time := NInt 50;
     gmfs := [ {| imt := "PGA"; sa_period := None; sa_damping := None;
                  gmf_nodes :=
                    [ {| gmf_iml := NFloat 0.1;
                         gmf_location := {| x := NFloat 1.0; y := NFloat 2.0 |} |};
                      {| gmf_iml := NFloat 0.2;
                         gmf_location := {| x := NFloat 2.0; y := NFloat 1.0 |} |} ] |} ] |}.

(** Three hazard-map points, not sorted by any coordinate. *)
Definition map_points : list (number * number * number) :=
  [ (NFloat 2.0, NFloat 1.0, NFloat 0.3);
    (NFloat 1.0, NFloat 2.0, NFloat 0.1);
    (NFloat 1.0, NFloat 1.0, NFloat 0.2) ].

(** ** Rupture meshes *)

(** A grid of [nr] rows that all have [nc] columns. *)
Definition has_shape (g : list (list number)) (nr nc : nat) : bool :=
  Nat.eqb (length g) nr && forallb (fun row => Nat.eqb (length row) nc) g.

(** [g[i][j]] where it exists. *)
Definition grid_at (g : list (list number)) (i j : nat) : number :=
  default (NInt 0) (row ← g !! i; row !! j).

Section MeshDescription.
Context `{Env}.

Definition mesh_node_elem (r : rupture) (i j : nat) : element :=
  Element "node" []
    [ ("row", str_int (Z.of_nat i));
      ("col", str_int (Z.of_nat j));
      ("lon", py_str (grid_at (lons r) i j));
      ("lat", py_str (grid_at (lats r) i j));
      ("depth", py_str (grid_at (depths r) i j)) ]
    None [].

(** The mesh of an [nr] by [nc] grid: one node per cell, row by row, and
    the two counts. *)
Definition mesh_elem (r : rupture) (nr nc : nat) : element :=
  Element "mesh" []
    [ ("rows", str_int (Z.of_nat nr)); ("cols", str_int (Z.of_nat nc)) ]
    None
    (i ← seq 0 nr; mesh_node_elem r i <$> seq 0 nc).
End MeshDescription.

(** The value a loop variable holds after [for v in range(k, k + n)], given
    what it held before. *)
Definition last_index (before : option nat) (k n : nat) : option nat :=
  match n with
  | O => before
  | S n' => Some (k + n')%nat
  end.

(** A fault-source rupture with a 2 by 3 mesh, and one with no rows. *)
Definition rupture_2x3 : rupture :=
  {| magnitude := NInt 6; strike := NInt 0; dip := NInt 90; rake := NInt 0;
     tectonic_region_type := PyStr "Active Shallow Crust";
     is_from_fault_source := true;
     lons := [ [NInt 1; NInt 2; NInt 3]; [NInt 4; NInt 5; NInt 6] ];
     lats := [ [NInt 11; NInt 12; NInt 13]; [NInt 14; NInt 15; NInt 16] ];
     depths := [ [NInt 21; NInt 22; NInt 23]; [NInt 24; NInt 25; NInt 26] ];
     top_left_corner := []; top_right_corner := [];
     bottom_right_corner := []; bottom_left_corner := [] |}.

Definition rupture_no_rows : rupture :=
  {| magnitude := NInt 6; strike := NInt 0; dip := NInt 90; rake := NInt 0;
     tectonic_region_type := PyStr "Active Shallow Crust";
     is_from_fault_source := true;
     lons := []; lats := []; depths := [];
     top_left_corner := []; top_right_corner := [];
     bottom_right_corner := []; bottom_left_corner := [] |}.

(** ** Disaggregation results *)

(** The metadata holds bin edges for the dimension label. *)
Definition label_has_edges (md : gmap string pyval) (label : string) : bool :=
  is_not_None (md_get_val md (DisaggXMLWriter.bin_edge_attr label)).

(** The recognized dimension labels. *)
Definition DIM_LABELS : list string := ["Mag"; "Dist"; "Lon"; "Lat"; "Eps"; "TRT"].

(** Scenario D: magnitude bin edges only, and a magnitude-distance result. *)
Definition md_D : gmap string pyval :=
  <["smlt_path" := PyStr "b1"]>
  (<["gsimlt_path" := PyStr "g1"]>
  (<["imt" := PyStr "PGA"]>
  (<["mag_bin_edges" := PyList [PyInt 5; PyInt 6; PyInt 7]]> ∅))).

Definition matrix_2x2 : ndarray :=
  {| shape := [2; 2]%nat; flat := [NInt 1; NInt 2; NInt 3; NInt 4] |}.

Definition result_D : disagg_result :=
  {| matrix := matrix_2x2; dim_labels := ["Mag"; "Dist"];
     poe := NInt 1; iml := NInt 2 |}.

(** A result with a label outside the vocabulary. *)
Definition result_unknown_label : disagg_result :=
  {| matrix := matrix_2x2; dim_labels := ["Mag"; "Depth"];
     poe := NInt 1; iml := NInt 2 |}.

(** ** Reading a disaggMatrix element back *)

(** [s.split(c)] for a separator of one character. *)
Fixpoint split_on (c : ascii) (s : string) : list string :=
  match s with
  | EmptyString => [EmptyString]
  | String a s' =>
      if Ascii.eqb a c then EmptyString :: split_on c s'
      else match split_on c s' with
           | [] => [String a EmptyString]
           | h :: t => String a h :: t
           end
  end.

(** [c in s] *)
Fixpoint has_char (c : ascii) (s : string) : bool :=
  match s with
  | EmptyString => false
  | String a s' => Ascii.eqb a c || has_char c s'
  end.

(** A decimal numeral that is not negative, read back as a number. *)
Definition parse_nat (s : string) : option nat :=
  d ← NilZero.int_of_string s;
  let z := Z.of_int d in
  if (0 <=? z)%Z then Some (Z.to_nat z) else None.

(** A comma-joined sequence of numerals, read back; the empty text is the
    empty sequence. *)
Definition parse_ints (s : string) : option (list nat) :=
  if String.eqb s "" then Some [] else mapM parse_nat (split_on "," s).

(** [e.get(k)] *)
Definition attr (e : element) (k : string) : option string :=
  snd <$> List.find (fun kv => String.eqb kv.1 k) (attrib e).

(** The index and the value that a [prob] element carries, the value as
    [parse_value] reads it from the text of the attribute. *)
Definition decode_cell {V : Type} (parse_value : string → option V)
    (prob : element) : option (list nat * V) :=
  idx ← attr prob "index" ≫= parse_ints;
  v ← attr prob "value" ≫= parse_value;
  Some (idx, v).

(** The value of the cell that carries the index [idx]. *)
Definition cell_at {V : Type} (cells : list (list nat * V)) (idx : list nat)
    : option V :=
  snd <$> List.find (fun c => bool_decide (c.1 = idx)) cells.

(** The matrix rebuilt from a [disaggMatrix] element: the shape from the
    [dims] attribute, and at every position of that shape, in row-major
    order, the value of the cell whose [index] attribute names the
    position. *)
Definition decode_matrix {V : Type} (parse_value : string → option V)
    (e : element) : option (list nat * list V) :=
  dims ← attr e "dims" ≫= parse_ints;
  cells ← mapM (decode_cell parse_value) (children e);
  cell_values ← mapM (cell_at cells) (utils.ndindex dims);
  Some (dims, cell_values).

(** An array has as many cells as its shape says. *)
Definition well_formed (a : ndarray) : bool :=
  Nat.eqb (length (flat a)) (utils.size (shape a)).

(** Reading an integer value back from its rendering. *)
Definition parse_int_value (s : string) : option number :=
  (fun d => NInt (Z.of_int d)) <$> NilZero.int_of_string s.

(** Metadata with the bin edges of both dimensions of [result_D]. *)
Definition md_mag_dist : gmap string pyval :=
  <["dist_bin_edges" := PyList [PyInt 0; PyInt 10; PyInt 20]]> md_D.

(** Two results that differ in their one cell only: 0.1 and the next float
    above it, which [str] renders with the same twelve significant
    digits. *)
Definition result_tenth : disagg_result :=
  {| matrix := {| shape := [1%nat]; flat := [NFloat 0.1] |};
     dim_labels := ["Mag"]; poe := NInt 1; iml := NInt 2 |}.

Definition result_tenth_up : disagg_result :=
  {| matrix := {| shape := [1%nat]; flat := [NFloat 0.10000000000000002] |};
     dim_labels := ["Mag"]; poe := NInt 1; iml := NInt 2 |}.

(** ** Attributes and documents in closed form *)

(** The attributes [_set_metadata] adds: one for every pair of the map, in
    the order of the map, whose keyword holds a value other than [None]. *)
Definition mapped_attributes (md : gmap string pyval)
    (attr_map : list (string * string)) (f : pyval → string)
    : list (string * string) :=
  omap (fun ka : string * string =>
          if is_not_None (md_get md ka.1)
          then Some (ka.2, f (md_get md ka.1))
          else None)
       attr_map.

(** The keywords the validator reads. *)
Definition VALIDATED_KEYS : list string :=
  [ "statistics"; "smlt_path"; "gsimlt_path"; "quantile_value"; "imt";
    "sa_period"; "sa_damping" ].

Section Documents.
Context `{Env}.

Definition hazard_map_elem (md : gmap string pyval)
    (data : list (number * number * number)) : element :=
  Element "hazardMap" [] (mapped_attributes md _ATTR_MAP py_str) None
          (hazard_map_node_elem <$> data).

End Documents.

(** A record like [md_A] with a probability of exceedance and a comment. *)
Definition md_A_poe : gmap string pyval :=
  <["poe" := PyFloat 0.1]> (<["comment" := PyStr "draft"]> md_A).

(** ** Planar surfaces *)

(** A corner with at least three coordinates. *)
Definition has_three (corner : list number) : bool := (3 <=? length corner)%nat.

Section PlanarDescription.
Context `{Env}.

Definition corner_elem (name : string) (corner : list number) : element :=
  Element name []
    [ ("lon", py_str (default (NInt 0) (corner !! 0%nat)));
      ("lat", py_str (default (NInt 0) (corner !! 1%nat)));
      ("depth", py_str (default (NInt 0) (corner !! 2%nat))) ]
    None [].

Definition planar_surface_elem (r : rupture) : element :=
  Element "planarSurface" [] [] None
    [ corner_elem "topLeft" (top_left_corner r);
      corner_elem "topRight" (top_right_corner r);
      corner_elem "bottomRight" (bottom_right_corner r);
      corner_elem "bottomLeft" (bottom_left_corner r) ].
End PlanarDescription.

(** The cell [g[i][j]], if the grid has it. *)
Definition grid_cell (g : list (list number)) (i j : nat) : option number :=
  row ← g !! i; row !! j.

(** A fault-source rupture whose latitude grid lacks the last column. *)
Definition rupture_short_lats : rupture :=
  {| magnitude := NInt 6; strike := NInt 0; dip := NInt 90; rake := NInt 0;
     tectonic_region_type := PyStr "Active Shallow Crust";
     is_from_fault_source := true;
     lons := [ [NInt 1; NInt 2; NInt 3]; [NInt 4; NInt 5; NInt 6] ];
     lats := [ [NInt 11; NInt 12]; [NInt 14; NInt 15] ];
     depths := [ [NInt 21; NInt 22; NInt 23]; [NInt 24; NInt 25; NInt 26] ];
     top_left_corner := []; top_right_corner := [];
     bottom_right_corner := []; bottom_left_corner := [] |}.

(** A point-source rupture with its four corners. *)
Definition rupture_planar : rupture :=
  {| magnitude := NInt 5; strike := NInt 10; dip := NInt 45; rake := NInt 0;
     tectonic_region_type := PyStr "Stable Continental";
     is_from_fault_source := false;
     lons := []; lats := []; depths := [];
     top_left_corner := [NInt 1; NInt 2; NInt 3];
     top_right_corner := [NInt 4; NInt 5; NInt 6];
     bottom_right_corner := [NInt 7; NInt 8; NInt 9];
     bottom_left_corner := [NInt 10; NInt 11; NInt 12] |}.

(** ** Meshes of any grid *)

(** The value [j] holds after the loops over the rows: the last column
    index of the last row that has a cell, if any row has one. *)
Definition last_col (rows : list (list number)) (before : option nat) : option nat :=
  foldl (fun j row => last_index j 0 (length row)) before rows.

(** The grid [g] has a cell wherever the grid [lons] has one. *)
Definition covers (g lons : list (list number)) : bool :=
  forallb
    (fun ir : nat * list number =>
       forallb (fun j => bool_decide (is_Some (grid_cell g ir.1 j)))
               (seq 0 (length ir.2)))
    (enumerate lons).

(** One node per cell of the lon grid, row by row. *)
Definition mesh_nodes `{Env} (r : rupture) : list element :=
  ir ← enumerate (lons r); mesh_node_elem r ir.1 <$> seq 0 (length ir.2).

(** A fault-source rupture whose rows differ in length. *)
Definition rupture_jagged : rupture :=
  {| magnitude := NInt 6; strike := NInt 0; dip := NInt 90; rake := NInt 0;
     tectonic_region_type := PyStr "Active Shallow Crust";
     is_from_fault_source := true;
     lons := [ [NInt 1; NInt 2; NInt 3]; [NInt 4] ];
     lats := [ [NInt 11; NInt 12; NInt 13]; [NInt 14] ];
     depths := [ [NInt 21; NInt 22; NInt 23]; [NInt 24] ];
     top_left_corner := []; top_right_corner := [];
     bottom_right_corner := []; bottom_left_corner := [] |}.

(** ** Failures of the GMF and disaggregation writers *)

(** A GMF has the attributes serialize reads: [sa_period] and [sa_damping]
    are needed for [imt] 'SA' only. *)
Definition gmf_complete (g : gmf) : bool :=
  negb (String.eqb (imt g) "SA")
  || (bool_decide (is_Some (sa_period g)) && bool_decide (is_Some (sa_damping g))).

(** A GMF that serialize can encode: complete, with an [imt] that lxml
    accepts as an attribute value. *)
Definition gmf_accepted `{Env} (g : gmf) : bool :=
  gmf_complete g && xml_compatible (imt g).

(** A value that [for x in v] accepts. *)
Definition iterable (v : pyval) : bool :=
  match v with
  | PyList _ | PyStr _ => true
  | _ => false
  end.

(** A bin-edge value that the writer can store: a sequence whose joined
    rendering lxml accepts. *)
Definition edges_accepted `{Env} (v : pyval) : bool :=
  match DisaggXMLWriter.transform v with
  | Ok s => xml_compatible s
  | Raise _ => false
  end.

(** The attributes [_set_metadata] adds: the first transform that raises,
    or the first transformed value that lxml refuses, ends the loop. *)
Fixpoint mapped_attributes_with `{Env} (md : gmap string pyval)
    (attr_map : list (string * string)) (transform : pyval → result string)
    : result (list (string * string)) :=
  match attr_map with
  | [] => Ok []
  | ka :: attr_map' =>
      if is_not_None (md_get md ka.1)
      then s ← transform (md_get md ka.1);
           s ← xml_checked s;
           rest ← mapped_attributes_with md attr_map' transform;
           Ok ((ka.2, s) :: rest)
      else mapped_attributes_with md attr_map' transform
  end.

(** Two GMFs: one complete, one with [imt] 'SA' and no damping. *)
Definition gmf_sa_no_damping : gmf :=
  {| imt := "SA"; sa_period := Some (NFloat 0.1); sa_damping := None;
     gmf_nodes := [] |}.

(** Metadata whose magnitude bin edges are a number, not a sequence. *)
Definition md_bad_edges : gmap string pyval :=
  <["mag_bin_edges" := PyInt 5]> md_D.

(** Mean hazard maps: statistics given, no logic-tree path. *)
Definition md_mean : gmap string pyval :=
  <["statistics" := PyStr "mean"]>
  (<["imt" := PyStr "PGA"]>
  (<["investigation_time" := PyInt 50]>
  (<["poe" := PyFloat 0.1]> ∅))).

(** * Properties *)

(** ** Metadata validation *)

(** C1, as stated, fails: the validator accepts SA fields with a non-SA
    [imt], where the stated condition is false. *)
Lemma validate_accepts_sa_fields_without_sa :
  ¬ (∀ md, _validate_hazard_metadata md = Ok tt ↔ spec_valid_metadata md = true).
Proof.
  intros H. destruct (H md_pga_with_sa) as [H1 _].
  assert (Hv : _validate_hazard_metadata md_pga_with_sa = Ok tt) by reflexivity.
  specialize (H1 Hv). vm_compute in H1. discriminate.
Qed.

(** The validator returns exactly for the records [valid_metadata] accepts
    and raises a [ValueError] for all others. *)
Lemma validate_cases (md : gmap string pyval) :
  (valid_metadata md = true ∧ _validate_hazard_metadata md = Ok tt)
  ∨ (valid_metadata md = false
     ∧ ∃ msg, _validate_hazard_metadata md = Raise (ValueError msg)).
Proof.
  unfold _validate_hazard_metadata, valid_metadata, statistics_kind,
    logic_tree_kind, quantile_rule, py_in_strs, existsb, is_None.
  generalize (py_eq_str (md_get md "imt") "SA")
    (is_not_None (md_get md "smlt_path")) (is_not_None (md_get md "gsimlt_path"))
    (is_not_None (md_get md "quantile_value"))
    (is_not_None (md_get md "sa_period")) (is_not_None (md_get md "sa_damping")).
  intros sa sm gs qv per dam.
  destruct (md_get md "statistics") as [ | s | z | f | l]; cbn [py_eq_str is_not_None];
    try generalize (String.eqb s "mean") (String.eqb s "quantile");
    try (intros m q; destruct m, q);
    destruct sa, sm, gs, qv, per, dam; cbn;
    first [ left; split; reflexivity
          | right; split; [reflexivity | eexists; reflexivity] ].
Qed.

(** C1 (amended): the validator returns without raising exactly when one of
    the two result kinds holds, a quantile value is present exactly for
    quantile statistics, and [imt == 'SA'] implies that [sa_period] and
    [sa_damping] are both present; in every other case it raises a
    [ValueError]. *)
Theorem validate_hazard_metadata_iff (md : gmap string pyval) :
  (_validate_hazard_metadata md = Ok tt ↔ valid_metadata md = true)
  ∧ (valid_metadata md = false ↔
     ∃ msg, _validate_hazard_metadata md = Raise (ValueError msg)).
Proof.
  destruct (validate_cases md) as [[Hv Hr] | [Hv [msg Hr]]]; rewrite Hv, Hr.
  - repeat split; try discriminate. intros [? ?]; discriminate.
  - repeat split; try discriminate. eauto.
Qed.

(** ** Validation at construction *)

(** C2, as stated, fails: an event-based GMF writer built without logic-tree
    paths (Scenario C) carries a record that the validator rejects, yet its
    construction succeeds and serialize runs. *)
Lemma gmf_writer_constructed_without_validation :
  ¬ (∀ a e, _validate_hazard_metadata (args_metadata a) = Raise e →
            construct a = Raise e).
Proof.
  intros Hc.
  specialize (Hc (EventBasedGMFArgs "gmf.xml" None None) _ eq_refl).
  discriminate Hc.
Qed.

(** C2 (amended): the three writers that take a metadata record
    (HazardCurveXMLWriter, HazardMapXMLWriter, DisaggXMLWriter) run the
    validator in the constructor: with an invalid record the constructor
    raises the validator's error and yields no writer; with a valid one it
    yields a writer.  The constructors of EventBasedGMFXMLWriter,
    SESXMLWriter and ScenarioGMFXMLWriter take no metadata record, validate
    nothing and always yield a writer. *)
Theorem construct_validates (a : writer_args) :
  if takes_metadata a
  then (∀ e, _validate_hazard_metadata (args_metadata a) = Raise e →
             construct a = Raise e)
       ∧ (valid_metadata (args_metadata a) = false →
          ∃ msg, construct a = Raise (ValueError msg))
       ∧ (valid_metadata (args_metadata a) = true → ∃ w, construct a = Ok w)
  else ∃ w, construct a = Ok w.
Proof.
  destruct a as [p md | p md | p md | p sm gs | p sm gs | p]; cbn [takes_metadata];
    try (eexists; reflexivity);
    cbn [args_metadata construct];
    unfold HazardCurveXMLWriter.__init__, HazardMapXMLWriter.__init__,
      DisaggXMLWriter.__init__;
    (destruct (validate_cases md) as [[Hv Hr] | [Hv [msg Hr]]]; rewrite Hv, Hr;
     repeat split; try discriminate;
     [ eexists; reflexivity
     | intros e [= <-]; reflexivity
     | intros _; exists msg; reflexivity ]).
Qed.

(** ** Loops that append children *)

Lemma append_children_nil (c : element) : append_children c [] = c.
Proof. destruct c; cbn. by rewrite app_nil_r. Qed.

Lemma append_children_cons (c e : element) (es : list element) :
  append_children (append_child c e) es = append_children c (e :: es).
Proof. destruct c; cbn. by rewrite <- app_assoc. Qed.

Lemma for_each_append_child {A : Type} (enc : A → result element)
    (add : element → A → result element) :
  (∀ c a, add c a = e ← enc a; Ok (append_child c e)) →
  ∀ data c, for_each add data c = es ← mapM enc data; Ok (append_children c es).
Proof.
  intros Hadd data. induction data as [ | a data IH]; intros c; cbn.
  - by rewrite append_children_nil.
  - rewrite Hadd. destruct (enc a) as [e | err]; cbn; [ | done].
    rewrite IH. destruct (mapM enc data) as [es | err]; cbn; [ | done].
    by rewrite append_children_cons.
Qed.

(** [mapM] in the exception monad keeps positions: the k-th result is the
    encoding of the k-th item. *)
Lemma mapM_Ok_Forall2 {A B : Type} (f : A → result B) (l : list A) (k : list B) :
  mapM f l = Ok k ↔ Forall2 (fun a b => f a = Ok b) l k.
Proof.
  revert k. induction l as [ | a l IH]; intros k; cbn.
  - split; [intros [= <-]; constructor | by inversion 1].
  - destruct (f a) as [b | err] eqn:Hf; cbn.
    + destruct (mapM f l) as [k' | err] eqn:Hm; cbn.
      * split.
        -- unfold mret, result_ret. intros [= <-]. constructor; [done | by apply IH].
        -- inversion 1 as [ | ? b' ? k'' Hb Hk]; subst.
           apply IH in Hk. unfold mret, result_ret. congruence.
      * split; [done | ].
        inversion 1 as [ | ? b' ? k'' Hb Hk]; subst. apply IH in Hk. done.
    + split; [done | ]. inversion 1; congruence.
Qed.

Lemma for_each_append_child_pure {A : Type} (enc : A → element)
    (add : element → A → result element) :
  (∀ c a, add c a = Ok (append_child c (enc a))) →
  ∀ data c, for_each add data c = Ok (append_children c (enc <$> data)).
Proof.
  intros Hadd data c.
  rewrite (for_each_append_child (fun a => Ok (enc a))) by (intros; apply Hadd).
  assert (Hm : mapM (fun a => Ok (enc a)) data = Ok (enc <$> data)).
  { apply mapM_Ok_Forall2. induction data; constructor; done. }
  by rewrite Hm.
Qed.

(** ** Strings that lxml accepts *)

Lemma printable_app (a b : string) :
  printable (a +:+ b) = printable a && printable b.
Proof.
  induction a as [ | c a IH]; [done | ].
  change (String c a +:+ b) with (String c (a +:+ b)).
  cbn [printable]. by rewrite IH, andb_assoc.
Qed.

Lemma printable_join (sep : string) (parts : list string) :
  printable sep = true → Forall (fun s => printable s = true) parts →
  printable (join sep parts) = true.
Proof.
  intros Hsep. unfold join.
  induction 1 as [ | s parts Hs Hparts IH]; [done | ].
  destruct parts as [ | s' parts']; [done | ].
  change (String.concat sep (s :: s' :: parts'))
    with (s +:+ sep +:+ String.concat sep (s' :: parts')).
  by rewrite !printable_app, Hs, Hsep, IH.
Qed.

Lemma printable_string_of_uint (u : Decimal.uint) :
  printable (NilEmpty.string_of_uint u) = true.
Proof. induction u; cbn [NilEmpty.string_of_uint printable]; by rewrite ?IHu. Qed.

Lemma printable_str_int (z : Z) : printable (str_int z) = true.
Proof.
  assert (Hu : ∀ u, printable (NilZero.string_of_uint u) = true).
  { intros u. destruct u; try done;
      change (NilZero.string_of_uint ?d) with (NilEmpty.string_of_uint d);
      apply printable_string_of_uint. }
  unfold str_int, NilZero.string_of_int.
  destruct (Z.to_int z) as [u | u]; [apply Hu | ].
  cbn [printable]. by rewrite Hu.
Qed.

Section Accepted.
Context `{Env}.

Lemma printable_str_number (n : number) : printable (py_str (num_val n)) = true.
Proof. destruct n; cbn; [apply printable_str_int | apply str_float_printable]. Qed.

Lemma printable_str_ints (ns : list nat) : printable (str_ints ns) = true.
Proof.
  apply printable_join; [done | ].
  apply Forall_fmap, Forall_forall. intros n _. apply printable_str_int.
Qed.

Lemma xml_checked_printable (s : string) :
  printable s = true → xml_checked s = Ok s.
Proof.
  intros Hs. unfold xml_checked. by rewrite (xml_compatible_printable s Hs).
Qed.

(** Storing a printable value succeeds. *)
Lemma elem_set_printable t ns a x c (k v : string) :
  printable v = true →
  elem_set (Element t ns a x c) k v = Ok (Element t ns (attrib_set a k v) x c).
Proof. intros Hv. unfold elem_set. by rewrite xml_checked_printable. Qed.

Lemma set_text_printable t ns a x c (s : string) :
  printable s = true →
  set_text (Element t ns a x c) s = Ok (Element t ns a (Some s) c).
Proof. intros Hs. unfold set_text. by rewrite xml_checked_printable. Qed.

Lemma elem_set_number t ns a x c (k : string) (n : number) :
  elem_set (Element t ns a x c) k (py_str (num_val n))
  = Ok (Element t ns (attrib_set a k (py_str (num_val n))) x c).
Proof. apply elem_set_printable, printable_str_number. Qed.

Lemma elem_set_str_int t ns a x c (k : string) (z : Z) :
  elem_set (Element t ns a x c) k (str_int z)
  = Ok (Element t ns (attrib_set a k (str_int z)) x c).
Proof. apply elem_set_printable, printable_str_int. Qed.
End Accepted.

(** ** The writers' loops, element by element *)

(** Running [_set_metadata] on a concrete record whose mapped values are
    printable. *)
Ltac eval_md_get md :=
  repeat match goal with
         | |- context [md_get md ?k] =>
             let v := eval vm_compute in (md_get md k) in
             change (md_get md k) with v
         end.

Ltac set_printable :=
  repeat (rewrite elem_set_printable by (vm_compute; reflexivity);
          cbn [mbind result_bind]).

Ltac run_set_metadata md :=
  unfold _set_metadata, _ATTR_MAP, new_element, etree_Element;
  cbn [for_each]; eval_md_get md;
  cbn [is_not_None py_str num_val mbind result_bind];
  set_printable.

(** Attribute values that are renderings of numbers are stored. *)
Ltac set_numbers :=
  repeat (first [ rewrite elem_set_number | rewrite elem_set_str_int ];
          cbn [mbind result_bind]).

Section BuildSpecs.
Context `{Env}.

Lemma add_curve_spec (c : element) (hc : hazard_curve) :
  HazardCurveXMLWriter.add_curve c hc = Ok (append_child c (hazard_curve_elem hc)).
Proof.
  unfold HazardCurveXMLWriter.add_curve, hazard_curve_elem, new_element, etree_Element.
  rewrite !set_text_printable; [done | .. ].
  - by rewrite !printable_app, !printable_str_number.
  - apply printable_join; [done | ].
    apply Forall_fmap, Forall_forall. intros n _. apply printable_str_number.
Qed.

Lemma HazardCurveXMLWriter_build_spec (w : HazardCurveXMLWriter.t) data :
  HazardCurveXMLWriter.build w data =
  hc ← hazard_curves_head (HazardCurveXMLWriter.metadata w);
  Ok (nrml [append_children hc (hazard_curve_elem <$> data)]).
Proof.
  unfold HazardCurveXMLWriter.build, hazard_curves_head.
  destruct (_set_metadata _ _ _ _) as [hc | e]; cbn; [ | done].
  destruct (md_item _ _) as [imls | e]; cbn; [ | done].
  destruct (py_iter imls) as [xs | e]; cbn; [ | done].
  unfold set_text, new_element, etree_Element.
  destruct (xml_checked _) as [tx | e]; cbn; [ | done].
  by rewrite (for_each_append_child_pure hazard_curve_elem) by apply add_curve_spec.
Qed.

Lemma add_node_spec (c : element) (datum : number * number * number) :
  HazardMapXMLWriter.add_node c datum = Ok (append_child c (hazard_map_node_elem datum)).
Proof.
  destruct datum as [[lon lat] iml].
  unfold HazardMapXMLWriter.add_node, hazard_map_node_elem, new_element, etree_Element.
  by set_numbers.
Qed.

Lemma HazardMapXMLWriter_build_spec (w : HazardMapXMLWriter.t) data :
  HazardMapXMLWriter.build w data =
  hm ← _set_metadata (new_element "hazardMap") (HazardMapXMLWriter.metadata w)
                     _ATTR_MAP (fun v => Ok (py_str v));
  Ok (nrml [append_children hm (hazard_map_node_elem <$> data)]).
Proof.
  unfold HazardMapXMLWriter.build.
  destruct (_set_metadata _ _ _ _) as [hm | e]; cbn; [ | done].
  by rewrite (for_each_append_child_pure hazard_map_node_elem) by apply add_node_spec.
Qed.

Lemma add_gmf_node_spec (c : element) (n : gmf_node) :
  add_gmf_node c n = Ok (append_child c (gmf_node_elem n)).
Proof.
  unfold add_gmf_node, gmf_node_elem, new_element, etree_Element.
  by set_numbers.
Qed.

Lemma add_gmf_spec (parent : element) (g : gmf) :
  add_gmf parent g = e ← gmf_elem g; Ok (append_child parent e).
Proof.
  unfold add_gmf, gmf_elem, gmf_attrs, new_element, etree_Element.
  destruct (String.eqb_spec (imt g) "SA") as [Hsa | Hsa].
  - rewrite Hsa. rewrite elem_set_printable by done. cbn [mbind result_bind].
    destruct (sa_period g) as [p | ]; cbn [getattr mbind result_bind]; [ | done].
    rewrite elem_set_number. cbn [mbind result_bind].
    destruct (sa_damping g) as [d | ]; cbn [getattr mbind result_bind]; [ | done].
    rewrite elem_set_number. cbn [mbind result_bind].
    by rewrite (for_each_append_child_pure gmf_node_elem) by apply add_gmf_node_spec.
  - unfold elem_set.
    destruct (xml_checked (imt g)) as [i | e]; cbn [mbind result_bind]; [ | done].
    by rewrite (for_each_append_child_pure gmf_node_elem) by apply add_gmf_node_spec.
Qed.

Lemma add_gmf_set_spec (c : element) (s : gmf_set) :
  EventBasedGMFXMLWriter.add_gmf_set c s = e ← gmf_set_elem s; Ok (append_child c e).
Proof.
  unfold EventBasedGMFXMLWriter.add_gmf_set, gmf_set_elem, new_element, etree_Element.
  rewrite elem_set_number. cbn [mbind result_bind].
  rewrite (for_each_append_child gmf_elem) by apply add_gmf_spec.
  by destruct (mapM gmf_elem (gmfs s)).
Qed.

Lemma EventBasedGMFXMLWriter_build_spec (w : EventBasedGMFXMLWriter.t) data :
  EventBasedGMFXMLWriter.build w data =
  (checked_paths (EventBasedGMFXMLWriter.sm_lt_path w)
                 (EventBasedGMFXMLWriter.gsim_lt_path w);;
   sets ← mapM gmf_set_elem data;
   Ok (nrml (collection "gmfCollection" (EventBasedGMFXMLWriter.sm_lt_path w)
               (EventBasedGMFXMLWriter.gsim_lt_path w) sets))).
Proof.
  unfold EventBasedGMFXMLWriter.build, collection, checked_paths, elem_set,
    new_element, etree_Element.
  destruct (EventBasedGMFXMLWriter.sm_lt_path w) as [sm | ],
           (EventBasedGMFXMLWriter.gsim_lt_path w) as [gs | ];
    cbn [mbind result_bind];
    try (destruct (xml_checked sm) as [sm' | e] eqn:Hsm; cbn [mbind result_bind];
         [ | done];
         destruct (xml_checked gs) as [gs' | e] eqn:Hgs; cbn [mbind result_bind];
         [ | done];
         unfold xml_checked in Hsm, Hgs;
         destruct (xml_compatible sm); [ | done];
         destruct (xml_compatible gs); [ | done];
         injection Hsm as <-; injection Hgs as <-);
    rewrite (for_each_append_child gmf_set_elem) by apply add_gmf_set_spec;
    by destruct (mapM gmf_set_elem data).
Qed.

Lemma ScenarioGMFXMLWriter_build_spec (w : ScenarioGMFXMLWriter.t) data :
  ScenarioGMFXMLWriter.build w data =
  es ← mapM gmf_elem data;
  Ok (nrml [Element "gmfSet" [] [] None es]).
Proof.
  unfold ScenarioGMFXMLWriter.build.
  rewrite (for_each_append_child gmf_elem) by apply add_gmf_spec.
  by destruct (mapM gmf_elem data).
Qed.

Lemma add_rupture_spec (c : element) (r : rupture) :
  SESXMLWriter.add_rupture c r = e ← rupture_elem r; Ok (append_child c e).
Proof.
  unfold SESXMLWriter.add_rupture, rupture_elem, new_element, etree_Element.
  set_numbers. cbn [attrib_set]. unfold elem_set.
  by destruct (xml_checked _) as [tr | e]; cbn [mbind result_bind].
Qed.

Lemma add_ses_spec (c : element) (s : ses) :
  SESXMLWriter.add_ses c s = e ← ses_elem s; Ok (append_child c e).
Proof.
  unfold SESXMLWriter.add_ses, ses_elem, new_element, etree_Element.
  rewrite elem_set_number. cbn [mbind result_bind].
  rewrite (for_each_append_child rupture_elem) by apply add_rupture_spec.
  by destruct (mapM rupture_elem (ruptures s)).
Qed.

Lemma SESXMLWriter_build_spec (w : SESXMLWriter.t) data :
  SESXMLWriter.build w data =
  (checked_paths (SESXMLWriter.sm_lt_path w) (SESXMLWriter.gsim_lt_path w);;
   sets ← mapM ses_elem data;
   Ok (nrml (collection "stochasticEventSetCollection" (SESXMLWriter.sm_lt_path w)
               (SESXMLWriter.gsim_lt_path w) sets))).
Proof.
  unfold SESXMLWriter.build, collection, checked_paths, elem_set,
    new_element, etree_Element.
  destruct (SESXMLWriter.sm_lt_path w) as [sm | ],
           (SESXMLWriter.gsim_lt_path w) as [gs | ];
    cbn [mbind result_bind];
    try (destruct (xml_checked sm) as [sm' | e] eqn:Hsm; cbn [mbind result_bind];
         [ | done];
         destruct (xml_checked gs) as [gs' | e] eqn:Hgs; cbn [mbind result_bind];
         [ | done];
         unfold xml_checked in Hsm, Hgs;
         destruct (xml_compatible sm); [ | done];
         destruct (xml_compatible gs); [ | done];
         injection Hsm as <-; injection Hgs as <-);
    rewrite (for_each_append_child ses_elem) by apply add_ses_spec;
    by destruct (mapM ses_elem data).
Qed.

(** A label whose bin edges the metadata can hold is one of the six labels
    of the module, all of them plain words. *)
Lemma checked_label_printable (w : DisaggXMLWriter.t) (label : string) :
  DisaggXMLWriter.check_label w tt label = Ok tt → printable label = true.
Proof.
  unfold DisaggXMLWriter.check_label, DisaggXMLWriter.bin_edge_attr.
  destruct (DisaggXMLWriter.DIM_LABEL_TO_BIN_EDGE_MAP !! label) as [a | ] eqn:Hl;
    cbn; [ | done].
  intros _. apply elem_of_list_to_map_2 in Hl.
  repeat (apply elem_of_cons in Hl as [[= -> _] | Hl]; [done | ]).
  by apply elem_of_nil in Hl.
Qed.

Lemma checked_labels_printable (w : DisaggXMLWriter.t) (labels : list string) :
  for_each (DisaggXMLWriter.check_label w) labels tt = Ok tt →
  printable (join "," labels) = true.
Proof.
  intros Hl. apply printable_join; [done | ].
  induction labels as [ | l labels IH]; [constructor | ].
  cbn [for_each] in Hl.
  destruct (DisaggXMLWriter.check_label w tt l) as [[] | e] eqn:Hc; [ | done].
  constructor; [by eapply checked_label_printable | by apply IH].
Qed.

Lemma add_prob_spec (c : element) (cell : list nat * number) :
  DisaggXMLWriter.add_prob c cell = Ok (append_child c (prob_elem cell)).
Proof.
  destruct cell as [idxs value].
  unfold DisaggXMLWriter.add_prob, prob_elem, new_element, etree_Element.
  rewrite elem_set_printable by apply printable_str_ints.
  cbn [mbind result_bind]. by rewrite elem_set_number.
Qed.

Lemma add_result_spec (w : DisaggXMLWriter.t) (c : element) (res : disagg_result) :
  DisaggXMLWriter.add_result w c res =
  e ← disagg_matrix_elem w res; Ok (append_child c e).
Proof.
  unfold DisaggXMLWriter.add_result, disagg_matrix_elem, new_element, etree_Element.
  destruct (for_each _ _ _) as [[] | e] eqn:Hl; cbn [mbind result_bind]; [ | done].
  rewrite elem_set_printable by (by eapply checked_labels_printable).
  cbn [mbind result_bind].
  rewrite elem_set_printable by apply printable_str_ints.
  cbn [mbind result_bind]. set_numbers.
  by rewrite (for_each_append_child_pure prob_elem) by apply add_prob_spec.
Qed.

Lemma DisaggXMLWriter_build_spec (w : DisaggXMLWriter.t) data :
  DisaggXMLWriter.build w data =
  dm ← disagg_head (DisaggXMLWriter.metadata w);
  es ← mapM (disagg_matrix_elem w) data;
  Ok (nrml [append_children dm es]).
Proof.
  unfold DisaggXMLWriter.build, disagg_head.
  destruct (_set_metadata _ _ _ _) as [dm0 | e]; cbn; [ | done].
  destruct (_set_metadata dm0 _ _ _) as [dm | e]; cbn; [ | done].
  rewrite (for_each_append_child (disagg_matrix_elem w)) by apply add_result_spec.
  by destruct (mapM _ data).
Qed.
End BuildSpecs.

(** ** Scenario A *)

(** C3: with [str] rendering the seven floats of the scenario as written,
    the hazard-curve writer of Scenario A is constructed, and serializing the
    one curve writes the document whose root holds one [hazardCurves]
    element with exactly the attributes IMT='PGA', sourceModelTreePath='b1',
    gsimTreePath='g1', investigationTime='50', one [IMLs] child with text
    '0.1 0.2 0.3', and one [hazardCurve] child with position text '1.0 2.0'
    and poEs text '0.9 0.5 0.1'. *)
Theorem scenario_A_document `{Env} (path : string) (fs : gmap string string) :
  str_float 0.1 = "0.1" → str_float 0.2 = "0.2" → str_float 0.3 = "0.3" →
  str_float 0.9 = "0.9" → str_float 0.5 = "0.5" →
  str_float 1.0 = "1.0" → str_float 2.0 = "2.0" →
  can_open path = true →
  ∃ w, HazardCurveXMLWriter.__init__ path md_A = Ok w
       ∧ HazardCurveXMLWriter.build w [curve_A] = Ok (nrml [hazard_curves_A])
       ∧ HazardCurveXMLWriter.serialize w [curve_A] fs
         = (<[path := tostring (nrml [hazard_curves_A])]> fs, Ok tt).
Proof.
  intros H1 H2 H3 H9 H5 H10 H20 Hopen.
  eexists. split; [reflexivity | ].
  assert (Hb : HazardCurveXMLWriter.build
                 {| HazardCurveXMLWriter.path := path;
                    HazardCurveXMLWriter.metadata := md_A |} [curve_A]
               = Ok (nrml [hazard_curves_A])).
  { rewrite HazardCurveXMLWriter_build_spec.
    unfold hazard_curves_head, hazard_curves_A, hazard_curve_elem, nrml.
    cbn [HazardCurveXMLWriter.metadata].
    replace (_set_metadata (new_element "hazardCurves") md_A _ATTR_MAP
               (fun v => Ok (py_str v)))
      with (Ok (Element "hazardCurves" []
                  [ ("sourceModelTreePath", "b1"); ("gsimTreePath", "g1");
                    ("IMT", "PGA"); ("investigationTime", "50") ] None []))
      by (symmetry; run_set_metadata md_A; reflexivity).
    replace (md_item md_A "imls")
      with (Ok (PyList [PyFloat 0.1; PyFloat 0.2; PyFloat 0.3]))
      by (symmetry; vm_compute; reflexivity).
    cbn. rewrite H1, H2, H3, H9, H5, H10, H20.
    by rewrite xml_checked_printable. }
  split; [exact Hb | ].
  unfold HazardCurveXMLWriter.serialize, with_open_w.
  cbn [HazardCurveXMLWriter.path]. rewrite Hopen, Hb. cbn.
  by rewrite insert_insert_eq.
Qed.

Lemma scenario_A_document_witness :
  ∃ w, HazardCurveXMLWriter.__init__ "curves.xml" md_A = Ok w
       ∧ HazardCurveXMLWriter.build w [curve_A] = Ok (nrml [hazard_curves_A])
       ∧ HazardCurveXMLWriter.serialize w [curve_A] ∅
         = (<["curves.xml" := tostring (nrml [hazard_curves_A])]> ∅, Ok tt).
Proof.
  apply (@scenario_A_document demo_env "curves.xml" ∅); reflexivity.
Defined.

(** ** A missing [imls] keyword *)

Lemma validate_ignores_key (md : gmap string pyval) (k : string) (v : pyval) :
  k ∉ ["statistics"; "smlt_path"; "gsimlt_path"; "quantile_value"; "imt";
       "sa_period"; "sa_damping"] →
  _validate_hazard_metadata (<[k := v]> md) = _validate_hazard_metadata md.
Proof.
  intros Hk. unfold _validate_hazard_metadata, md_get.
  rewrite !lookup_insert_ne; [done | intros ->; apply Hk; set_solver ..].
Qed.

(** With the default transform [str], [_set_metadata] raises only when
    lxml refuses one of the values it is to store. *)
Lemma _set_metadata_str_outcome `{Env} (md : gmap string pyval)
    (attr_map : list (string * string)) (elt : element) :
  if forallb xml_compatible (mapped_attributes md attr_map py_str).*2
  then ∃ e, _set_metadata elt md attr_map (fun v => Ok (py_str v)) = Ok e
  else _set_metadata elt md attr_map (fun v => Ok (py_str v))
       = Raise (ValueError xml_error).
Proof.
  unfold _set_metadata, mapped_attributes. revert elt.
  induction attr_map as [ | [kw attr] am IH]; intros elt;
    cbn [for_each omap list_omap fst snd].
  - by eexists.
  - destruct (is_not_None (md_get md kw)); cbn [mbind result_bind]; [ | apply IH].
    cbn [fmap list_fmap forallb snd].
    unfold elem_set, xml_checked.
    destruct (xml_compatible (py_str (md_get md kw))); cbn; [apply IH | done].
Qed.

(** C9, as stated, fails: a record that passes the validator and lacks
    [imls] can hold a mapped value that lxml refuses (here [imt] is a control
    character); [_set_metadata] runs before [metadata['imls']] is read, so
    serialize fails with lxml's [ValueError] and no key-lookup error is
    raised. *)
Lemma incompatible_value_raises_before_missing_imls :
  ¬ (∀ (E : Env) (path : string) (md : gmap string pyval)
       (data : list hazard_curve) (fs : gmap string string),
       _validate_hazard_metadata md = Ok tt →
       md !! "imls" = None →
       can_open path = true →
       ∃ w, HazardCurveXMLWriter.__init__ path md = Ok w
            ∧ ∃ k, (HazardCurveXMLWriter.serialize w data fs).2
                   = Raise (KeyError k)).
Proof.
  intros Hc.
  destruct (Hc demo_env "curves.xml" md_control_char [] ∅ eq_refl eq_refl eq_refl)
    as (w & Hw & k & Hk).
  injection Hw as <-. vm_compute in Hk. discriminate Hk.
Qed.

(** C9 (amended): the validator never looks at [imls], so a record that
    passes it without that keyword yields a hazard-curve writer; serialize
    then opens (and truncates) the file and fails, leaving the file empty:
    with [KeyError('imls')] when lxml accepts every mapped metadata value,
    and with lxml's [ValueError], raised first, when it refuses one of them;
    only a failing [open] comes before both. *)
Theorem missing_imls_detected_in_serialize `{Env} (path : string)
    (md : gmap string pyval) (data : list hazard_curve) (fs : gmap string string) :
  _validate_hazard_metadata md = Ok tt →
  md !! "imls" = None →
  (∀ v, _validate_hazard_metadata (<["imls" := v]> md) = Ok tt)
  ∧ ∃ w, HazardCurveXMLWriter.__init__ path md = Ok w
         ∧ HazardCurveXMLWriter.serialize w data fs
           = if can_open path
             then (<[path := ""]> fs,
                   Raise (if forallb xml_compatible
                               (mapped_attributes md _ATTR_MAP py_str).*2
                          then KeyError "imls"
                          else ValueError xml_error))
             else (fs, Raise (IOError path)).
Proof.
  intros Hv Himls. split.
  { intros v. rewrite validate_ignores_key; [done | ].
    rewrite !not_elem_of_cons. repeat split; try discriminate. apply not_elem_of_nil. }
  unfold HazardCurveXMLWriter.__init__. rewrite Hv. cbn.
  eexists. split; [reflexivity | ].
  unfold HazardCurveXMLWriter.serialize, with_open_w, HazardCurveXMLWriter.build.
  cbn [HazardCurveXMLWriter.path HazardCurveXMLWriter.metadata].
  pose proof (_set_metadata_str_outcome md _ATTR_MAP (new_element "hazardCurves"))
    as Hset.
  destruct (forallb _ _).
  - destruct Hset as [hc ->]. unfold md_item. rewrite Himls. reflexivity.
  - rewrite Hset. reflexivity.
Qed.

Lemma missing_imls_detected_in_serialize_witness :
  ∃ w, HazardCurveXMLWriter.__init__ "curves.xml" md_no_imls = Ok w
       ∧ HazardCurveXMLWriter.serialize w [] ∅
         = (<["curves.xml" := ""]> ∅, Raise (KeyError "imls")).
Proof.
  apply (@missing_imls_detected_in_serialize demo_env "curves.xml" md_no_imls [] ∅);
    reflexivity.
Defined.

Lemma construct_validates_witness :
  ∃ msg, construct (HazardCurveArgs "curves.xml" md_B) = Raise (ValueError msg).
Proof.
  pose proof (construct_validates (HazardCurveArgs "curves.xml" md_B)) as Hc.
  cbn [takes_metadata] in Hc. destruct Hc as (_ & Hc & _).
  apply Hc. reflexivity.
Defined.

(** ** Collection wrappers *)

Lemma checked_paths_cases `{Env} (sm gsim : option string) :
  checked_paths sm gsim =
  if paths_accepted sm gsim then Ok tt else Raise (ValueError xml_error).
Proof.
  unfold checked_paths, paths_accepted, xml_checked.
  destruct sm as [sm | ], gsim as [gsim | ]; try done.
  by destruct (xml_compatible sm), (xml_compatible gsim).
Qed.

(** C5: EventBasedGMFXMLWriter and SESXMLWriter put the sets in one
    collection element carrying [sourceModelTreePath] and [gsimTreePath]
    when both logic-tree paths are given (and lxml accepts the two paths as
    attribute values: it raises its [ValueError] before any set is read
    otherwise), and directly under the root when a path is missing;
    ScenarioGMFXMLWriter always puts one [gmfSet] directly under the root.
    The set elements themselves are [gmfSet] and [stochasticEventSet]
    elements. *)
Theorem collection_wrapper `{Env} :
  (∀ p sm gsim data,
     EventBasedGMFXMLWriter.build
       {| EventBasedGMFXMLWriter.path := p;
          EventBasedGMFXMLWriter.sm_lt_path := sm;
          EventBasedGMFXMLWriter.gsim_lt_path := gsim |} data
     = match sm, gsim with
       | Some sm, Some gsim =>
           if xml_compatible sm && xml_compatible gsim
           then sets ← mapM gmf_set_elem data;
                Ok (Element "nrml" SERIALIZE_NS_MAP [] None
                      [ Element "gmfCollection" []
                          [ ("sourceModelTreePath", sm); ("gsimTreePath", gsim) ]
                          None sets ])
           else Raise (ValueError xml_error)
       | _, _ =>
           sets ← mapM gmf_set_elem data;
           Ok (Element "nrml" SERIALIZE_NS_MAP [] None sets)
       end)
  ∧ (∀ p sm gsim data,
       SESXMLWriter.build
         {| SESXMLWriter.path := p;
            SESXMLWriter.sm_lt_path := sm;
            SESXMLWriter.gsim_lt_path := gsim |} data
       = match sm, gsim with
         | Some sm, Some gsim =>
             if xml_compatible sm && xml_compatible gsim
             then sets ← mapM ses_elem data;
                  Ok (Element "nrml" SERIALIZE_NS_MAP [] None
                        [ Element "stochasticEventSetCollection" []
                            [ ("sourceModelTreePath", sm); ("gsimTreePath", gsim) ]
                            None sets ])
             else Raise (ValueError xml_error)
         | _, _ =>
             sets ← mapM ses_elem data;
             Ok (Element "nrml" SERIALIZE_NS_MAP [] None sets)
         end)
  ∧ (∀ w data,
       ScenarioGMFXMLWriter.build w data
       = es ← mapM gmf_elem data;
         Ok (Element "nrml" SERIALIZE_NS_MAP [] None [ Element "gmfSet" [] [] None es ]))
  ∧ (∀ s e, gmf_set_elem s = Ok e → tag e = "gmfSet")
  ∧ (∀ s e, ses_elem s = Ok e → tag e = "stochasticEventSet").
Proof.
  split; [ | split; [ | split; [ | split]]].
  - intros p sm gsim data.
    rewrite EventBasedGMFXMLWriter_build_spec, checked_paths_cases.
    cbn [EventBasedGMFXMLWriter.sm_lt_path EventBasedGMFXMLWriter.gsim_lt_path].
    destruct sm as [sm | ], gsim as [gsim | ]; try done.
    cbn [paths_accepted]. by destruct (xml_compatible sm && xml_compatible gsim).
  - intros p sm gsim data.
    rewrite SESXMLWriter_build_spec, checked_paths_cases.
    cbn [SESXMLWriter.sm_lt_path SESXMLWriter.gsim_lt_path].
    destruct sm as [sm | ], gsim as [gsim | ]; try done.
    cbn [paths_accepted]. by destruct (xml_compatible sm && xml_compatible gsim).
  - intros w data. by rewrite ScenarioGMFXMLWriter_build_spec.
  - intros s e. unfold gmf_set_elem.
    destruct (mapM gmf_elem (gmfs s)); cbn; [ | done]. by intros [= <-].
  - intros s e. unfold ses_elem.
    destruct (mapM rupture_elem (ruptures s)); cbn; [ | done]. by intros [= <-].
Qed.

(** Scenario C: without logic-tree paths the one set sits directly under the
    root. *)
Lemma collection_wrapper_witness :
  ∃ e, tag e = "gmfSet"
       ∧ EventBasedGMFXMLWriter.build
           {| EventBasedGMFXMLWriter.path := "gmf.xml";
              EventBasedGMFXMLWriter.sm_lt_path := None;
              EventBasedGMFXMLWriter.gsim_lt_path := None |} [gmf_set_C]
         = Ok (Element "nrml" SERIALIZE_NS_MAP [] None [e]).
Proof.
  destruct (@collection_wrapper demo_env) as (Hgmf & _ & _ & Htag & _).
  eexists. split.
  - apply (Htag gmf_set_C). reflexivity.
  - rewrite Hgmf. reflexivity.
Defined.

(** ** Order of the emitted elements *)

Lemma elem_set_children `{Env} (e e' : element) (k v : string) :
  elem_set e k v = Ok e' → children e' = children e.
Proof.
  unfold elem_set. destruct (xml_checked v); cbn; [ | done].
  intros [= <-]. by destruct e.
Qed.

Lemma _set_metadata_children `{Env} (md : gmap string pyval)
    (transform : pyval → result string)
    (attr_map : list (string * string)) (elt e : element) :
  _set_metadata elt md attr_map transform = Ok e → children e = children elt.
Proof.
  unfold _set_metadata. revert elt.
  induction attr_map as [ | [kw attr] am IH]; intros elt; cbn.
  - by intros [= <-].
  - destruct (is_not_None (md_get md kw)); cbn; [ | apply IH].
    destruct (transform (md_get md kw)) as [v | err]; cbn; [ | done].
    destruct (elem_set elt attr v) as [elt' | err] eqn:Hset; cbn; [ | done].
    intros He. apply IH in He. rewrite He. by eapply elem_set_children.
Qed.

Lemma children_append_children (c : element) (es : list element) :
  children (append_children c es) = children c ++ es.
Proof. by destruct c. Qed.

(** C8: every writer emits the elements of an input sequence in the order of
    the sequence, one element per record: hazard curves (after the [IMLs]
    child), hazard-map points, GMF sets, GMFs and GMF nodes, stochastic
    event sets and ruptures, and disaggregation results. *)
Theorem order_preserved `{Env} :
  (∀ w data root,
     HazardCurveXMLWriter.build w data = Ok root →
     ∃ hc imls, children root = [hc]
                ∧ children hc = imls :: (hazard_curve_elem <$> data))
  ∧ (∀ w data root,
       HazardMapXMLWriter.build w data = Ok root →
       ∃ hm, children root = [hm] ∧ children hm = hazard_map_node_elem <$> data)
  ∧ (∀ w data root,
       EventBasedGMFXMLWriter.build w data = Ok root →
       ∃ sets, encoded_in_order gmf_set_elem data sets
               ∧ (children root = sets
                  ∨ ∃ c, children root = [c] ∧ children c = sets))
  ∧ (∀ s e, gmf_set_elem s = Ok e →
            encoded_in_order gmf_elem (gmfs s) (children e))
  ∧ (∀ g e, gmf_elem g = Ok e → children e = gmf_node_elem <$> gmf_nodes g)
  ∧ (∀ w data root,
       ScenarioGMFXMLWriter.build w data = Ok root →
       ∃ gmfset, children root = [gmfset]
                 ∧ encoded_in_order gmf_elem data (children gmfset))
  ∧ (∀ w data root,
       SESXMLWriter.build w data = Ok root →
       ∃ sets, encoded_in_order ses_elem data sets
               ∧ (children root = sets
                  ∨ ∃ c, children root = [c] ∧ children c = sets))
  ∧ (∀ s e, ses_elem s = Ok e →
            encoded_in_order rupture_elem (ruptures s) (children e))
  ∧ (∀ w data root,
       DisaggXMLWriter.build w data = Ok root →
       ∃ dm, children root = [dm]
             ∧ encoded_in_order (disagg_matrix_elem w) data (children dm)).
Proof.
  repeat apply conj.
  - intros w data root. rewrite HazardCurveXMLWriter_build_spec.
    unfold hazard_curves_head.
    destruct (_set_metadata _ _ _ _) as [hc | e] eqn:Hhc; cbn; [ | done].
    destruct (md_item _ _) as [imls | e]; cbn; [ | done].
    destruct (py_iter imls) as [xs | e]; cbn; [ | done].
    destruct (xml_checked _) as [tx | e]; cbn; [ | done].
    intros [= <-]. eexists _, _. split; [reflexivity | ].
    apply _set_metadata_children in Hhc.
    rewrite children_append_children. destruct hc; cbn in *. by rewrite Hhc.
  - intros w data root. rewrite HazardMapXMLWriter_build_spec.
    destruct (_set_metadata _ _ _ _) as [hm | e] eqn:Hhm; cbn; [ | done].
    intros [= <-]. eexists. split; [reflexivity | ].
    apply _set_metadata_children in Hhm.
    by rewrite children_append_children, Hhm.
  - intros w data root. rewrite EventBasedGMFXMLWriter_build_spec.
    destruct (checked_paths _ _) as [[] | e]; cbn; [ | done].
    destruct (mapM gmf_set_elem data) as [sets | e] eqn:Hm; cbn; [ | done].
    intros [= <-]. exists sets. split; [by apply mapM_Ok_Forall2 | ].
    unfold collection.
    destruct (EventBasedGMFXMLWriter.sm_lt_path w), (EventBasedGMFXMLWriter.gsim_lt_path w);
      cbn; eauto.
  - intros s e. unfold gmf_set_elem.
    destruct (mapM gmf_elem (gmfs s)) as [es | err] eqn:Hm; cbn; [ | done].
    intros [= <-]. by apply mapM_Ok_Forall2.
  - intros g e. unfold gmf_elem.
    destruct (gmf_attrs g); cbn; [ | done]. by intros [= <-].
  - intros w data root. rewrite ScenarioGMFXMLWriter_build_spec.
    destruct (mapM gmf_elem data) as [es | e] eqn:Hm; cbn; [ | done].
    intros [= <-]. eexists. split; [reflexivity | ]. by apply mapM_Ok_Forall2.
  - intros w data root. rewrite SESXMLWriter_build_spec.
    destruct (checked_paths _ _) as [[] | e]; cbn; [ | done].
    destruct (mapM ses_elem data) as [sets | e] eqn:Hm; cbn; [ | done].
    intros [= <-]. exists sets. split; [by apply mapM_Ok_Forall2 | ].
    unfold collection.
    destruct (SESXMLWriter.sm_lt_path w), (SESXMLWriter.gsim_lt_path w);
      cbn; eauto.
  - intros s e. unfold ses_elem.
    destruct (mapM rupture_elem (ruptures s)) as [es | err] eqn:Hm; cbn; [ | done].
    intros [= <-]. by apply mapM_Ok_Forall2.
  - intros w data root. rewrite DisaggXMLWriter_build_spec.
    unfold disagg_head.
    destruct (_set_metadata _ _ _ _) as [dm0 | e] eqn:H0; cbn; [ | done].
    destruct (_set_metadata dm0 _ _ _) as [dm | e] eqn:H1; cbn; [ | done].
    destruct (mapM _ data) as [es | e] eqn:Hm; cbn; [ | done].
    intros [= <-]. eexists. split; [reflexivity | ].
    apply _set_metadata_children in H0, H1.
    rewrite children_append_children, H1, H0. cbn. by apply mapM_Ok_Forall2.
Qed.

Lemma order_preserved_witness :
  ∃ root hm,
    HazardMapXMLWriter.build
      {| HazardMapXMLWriter.path := "map.xml"; HazardMapXMLWriter.metadata := md_A |}
      map_points = Ok root
    ∧ children root = [hm]
    ∧ children hm = hazard_map_node_elem <$> map_points.
Proof.
  destruct (@order_preserved demo_env) as (_ & Hmap & _).
  assert (Hb : ∃ root,
             HazardMapXMLWriter.build
               {| HazardMapXMLWriter.path := "map.xml";
                  HazardMapXMLWriter.metadata := md_A |} map_points = Ok root)
    by (eexists; reflexivity).
  destruct Hb as [root Hb].
  destruct (Hmap _ _ _ Hb) as [hm Hhm].
  exists root, hm. split; [exact Hb | exact Hhm].
Defined.

(** ** The mesh encoder *)

Lemma has_shape_lookup (g : list (list number)) (nr nc i : nat) :
  has_shape g nr nc = true → (i < nr)%nat →
  ∃ row, g !! i = Some row ∧ length row = nc.
Proof.
  unfold has_shape. rewrite andb_true_iff, Nat.eqb_eq, forallb_forall.
  intros [Hlen Hrows] Hi.
  destruct (lookup_lt_is_Some_2 g i) as [row Hrow]; [lia | ].
  exists row. split; [done | ].
  apply Nat.eqb_eq, Hrows, list_elem_of_In. by eapply list_elem_of_lookup_2.
Qed.

Lemma grid_item (g : list (list number)) (nr nc i j : nat) :
  has_shape g nr nc = true → (i < nr)%nat → (j < nc)%nat →
  (row ← list_item g i; list_item row j) = Ok (grid_at g i j).
Proof.
  intros Hs Hi Hj. destruct (has_shape_lookup g nr nc i Hs Hi) as (row & Hrow & Hlen).
  unfold list_item, grid_at. rewrite Hrow. cbn.
  destruct (lookup_lt_is_Some_2 row j) as [v Hv]; [lia | ]. by rewrite Hv.
Qed.

#[local] Arguments SESXMLWriter.add_mesh_node : simpl never.
#[local] Arguments SESXMLWriter.add_mesh_row : simpl never.

Section Mesh.
Context `{Env}.
Variable r : rupture.
Variables nr nc : nat.
Hypothesis Hlons : has_shape (lons r) nr nc = true.

(** The inner loop on a row without cells leaves everything as it was. *)
Lemma add_mesh_row_empty (st : SESXMLWriter.mesh_state) (i : nat) :
  SESXMLWriter.add_mesh_row r st (i, []) = Ok (st.1.1, Some i, st.2).
Proof. by destruct st as [[m oi] oj]. Qed.

Section Full.
Hypothesis Hlats : has_shape (lats r) nr nc = true.
Hypothesis Hdepths : has_shape (depths r) nr nc = true.

Lemma add_mesh_node_ok (i j : nat) (c : number) (st : SESXMLWriter.mesh_state) :
  (i < nr)%nat → (j < nc)%nat →
  SESXMLWriter.add_mesh_node r i st (j, c)
  = Ok (append_child st.1.1 (mesh_node_elem r i j), Some i, Some j).
Proof.
  intros Hi Hj. destruct st as [[m oi] oj]. unfold SESXMLWriter.add_mesh_node.
  cbn [fst snd]. unfold new_element, etree_Element. set_numbers.
  rewrite (grid_item _ _ _ _ _ Hlons Hi Hj). cbn [mbind result_bind]. set_numbers.
  rewrite (grid_item _ _ _ _ _ Hlats Hi Hj). cbn [mbind result_bind]. set_numbers.
  rewrite (grid_item _ _ _ _ _ Hdepths Hi Hj). cbn [mbind result_bind]. by set_numbers.
Qed.

Lemma inner_loop (i : nat) (cols : list number) :
  (i < nr)%nat →
  ∀ k m oj, (k + length cols ≤ nc)%nat →
    for_each (SESXMLWriter.add_mesh_node r i) (zip (seq k (length cols)) cols)
             (m, Some i, oj)
    = Ok (append_children m (mesh_node_elem r i <$> seq k (length cols)),
          Some i, last_index oj k (length cols)).
Proof.
  intros Hi. induction cols as [ | c cols IH]; intros k m oj Hk; cbn.
  - by rewrite append_children_nil.
  - cbn in Hk. rewrite add_mesh_node_ok by lia. cbn.
    rewrite IH by lia. rewrite append_children_cons.
    do 2 f_equal. destruct cols; cbn; f_equal; lia.
Qed.

Lemma add_mesh_row_ok (i : nat) (row : list number) m oi oj :
  (i < nr)%nat → length row = nc →
  SESXMLWriter.add_mesh_row r (m, oi, oj) (i, row)
  = Ok (append_children m (mesh_node_elem r i <$> seq 0 nc),
        Some i, last_index oj 0 nc).
Proof.
  intros Hi Hrow. unfold SESXMLWriter.add_mesh_row, enumerate. cbn [fst snd].
  rewrite inner_loop by lia. by rewrite Hrow.
Qed.

Lemma outer_loop (rows : list (list number)) :
  Forall (fun row => length row = nc) rows →
  ∀ k m oi oj, (k + length rows ≤ nr)%nat →
    for_each (SESXMLWriter.add_mesh_row r) (zip (seq k (length rows)) rows)
             (m, oi, oj)
    = Ok (append_children m
            (i ← seq k (length rows); mesh_node_elem r i <$> seq 0 nc),
          last_index oi k (length rows),
          match rows with [] => oj | _ => last_index oj 0 nc end).
Proof.
  induction 1 as [ | row rows Hrow Hrows IH]; intros k m oi oj Hk; cbn.
  - by rewrite append_children_nil.
  - cbn in Hk. rewrite add_mesh_row_ok by (done || lia). cbn.
    rewrite IH by lia.
    destruct m as [t ns a tx c]; cbn. rewrite <- app_assoc.
    do 3 f_equal.
    + destruct rows; cbn; f_equal; lia.
    + destruct rows; [done | ]. by destruct nc.
Qed.

Lemma create_rupture_mesh_ok (rup_elem : element) :
  (0 < nr)%nat → (0 < nc)%nat →
  SESXMLWriter._create_rupture_mesh r rup_elem
  = Ok (append_child rup_elem (mesh_elem r nr nc)).
Proof.
  intros Hnr Hnc. unfold SESXMLWriter._create_rupture_mesh, enumerate.
  pose proof Hlons as Hl. unfold has_shape in Hl.
  rewrite andb_true_iff, Nat.eqb_eq, forallb_forall in Hl.
  destruct Hl as [Hlen Hrows].
  rewrite outer_loop; [ | | lia].
  2:{ apply Forall_forall. intros row Hin.
      apply Nat.eqb_eq, Hrows. by apply list_elem_of_In. }
  cbn. rewrite Hlen.
  destruct (lons r) as [ | row rows]; [cbn in Hlen; lia | ].
  destruct nr as [ | nr']; [lia | ]. destruct nc as [ | nc']; [lia | ].
  cbn [last_index read_local mbind result_bind try_except_NameError].
  set_numbers. cbn [try_except_NameError mbind result_bind attrib_set String.eqb].
  unfold mesh_elem.
  replace (Z.of_nat (0 + nr') + 1) with (Z.of_nat (S nr')) by lia.
  by replace (Z.of_nat (0 + nc') + 1) with (Z.of_nat (S nc')) by lia.
Qed.
End Full.

(** Rows without cells: only [i] is ever assigned. *)
Lemma outer_loop_no_cols (rows : list (list number)) :
  Forall (fun row => length row = 0%nat) rows →
  ∀ k m oi oj,
    for_each (SESXMLWriter.add_mesh_row r) (zip (seq k (length rows)) rows)
             (m, oi, oj)
    = Ok (m, last_index oi k (length rows), oj).
Proof.
  induction 1 as [ | row rows Hrow Hrows IH]; intros k m oi oj; cbn; [done | ].
  apply length_zero_iff_nil in Hrow as ->.
  rewrite add_mesh_row_empty. cbn. rewrite IH.
  do 3 f_equal. destruct rows; cbn; f_equal; lia.
Qed.

Lemma create_rupture_mesh_empty (rup_elem : element) :
  nr = 0%nat ∨ nc = 0%nat →
  SESXMLWriter._create_rupture_mesh r rup_elem
  = Raise (ValueError "Invalid rupture mesh").
Proof.
  intros Hz.
  unfold SESXMLWriter._create_rupture_mesh, enumerate, new_element, etree_Element.
  pose proof Hlons as Hl. unfold has_shape in Hl.
  rewrite andb_true_iff, Nat.eqb_eq, forallb_forall in Hl.
  destruct Hl as [Hlen Hrows].
  destruct Hz as [-> | ->].
  - apply length_zero_iff_nil in Hlen. by rewrite Hlen.
  - rewrite outer_loop_no_cols.
    + cbn [mbind result_bind].
      destruct (last_index None 0 (length (lons r)));
        cbn [read_local mbind result_bind]; [set_numbers | ]; done.
    + apply Forall_forall. intros row Hin.
      apply Nat.eqb_eq, Hrows. by apply list_elem_of_In.
Qed.
End Mesh.

(** A loop raises as soon as one of its items makes the body raise. *)
Lemma for_each_raises {A S : Type} (body : S → A → result S) (xs : list A) (a : A) :
  a ∈ xs → (∀ acc, ∃ e, body acc a = Raise e) →
  ∀ acc, ∃ e, for_each body xs acc = Raise e.
Proof.
  intros Hin Hbody. induction xs as [ | b xs IH]; intros acc; [by inversion Hin | ].
  cbn. apply elem_of_cons in Hin as [<- | Hin].
  - destruct (Hbody acc) as [e ->]. by exists e.
  - destruct (body acc b) as [acc' | e]; cbn; [by apply IH | by exists e].
Qed.

Lemma mapM_raises_at {A B : Type} (f : A → result B) (pre post : list A) (a : A)
    (bs : list B) (e : exn) :
  mapM f pre = Ok bs → f a = Raise e → mapM f (pre ++ a :: post) = Raise e.
Proof.
  revert bs. induction pre as [ | p pre IH]; intros bs; cbn.
  - intros _ ->. done.
  - destruct (f p) as [b | err]; cbn; [ | done].
    destruct (mapM f pre) as [bs' | err] eqn:Hpre; cbn; [ | done].
    intros _ Ha. by rewrite (IH bs' eq_refl Ha).
Qed.

(** C4: for a fault-source rupture whose three grids have [nr] rows of [nc]
    columns, the mesh encoder emits one [node] per cell in row-major order,
    each with its row, col, lon, lat and depth, and records rows = [nr] and
    cols = [nc], one more than the last row and column index visited.  When
    the lon grid has no row or no column it raises
    [ValueError('Invalid rupture mesh')], so that serialize fails on any
    input holding such a rupture: when the sets and ruptures before it are
    encoded without error and the file can be opened, with that very error
    if lxml accepts the logic-tree paths and the tectonic region of the
    rupture as attribute values, and with lxml's [ValueError], raised
    before the mesh is looked at, if it does not. *)
Theorem rupture_mesh_encoding `{Env} (r : rupture) (nr nc : nat) :
  has_shape (lons r) nr nc = true →
  (has_shape (lats r) nr nc = true → has_shape (depths r) nr nc = true →
   (0 < nr)%nat → (0 < nc)%nat →
   ∀ rup_elem,
     SESXMLWriter._create_rupture_mesh r rup_elem
     = Ok (append_child rup_elem (mesh_elem r nr nc)))
  ∧ (nr = 0%nat ∨ nc = 0%nat →
     (∀ rup_elem,
        SESXMLWriter._create_rupture_mesh r rup_elem
        = Raise (ValueError "Invalid rupture mesh"))
     ∧ (is_from_fault_source r = true →
        (∀ w data s fs,
           s ∈ data → r ∈ ruptures s →
           ∃ e, (SESXMLWriter.serialize w data fs).2 = Raise e)
        ∧ (∀ w sets_before s sets_after rups_before rups_after es res fs,
             ruptures s = rups_before ++ r :: rups_after →
             mapM ses_elem sets_before = Ok es →
             mapM rupture_elem rups_before = Ok res →
             can_open (SESXMLWriter.path w) = true →
             (SESXMLWriter.serialize w (sets_before ++ s :: sets_after) fs).2
             = Raise (ValueError
                        (if paths_accepted (SESXMLWriter.sm_lt_path w)
                                           (SESXMLWriter.gsim_lt_path w)
                            && xml_compatible (py_str (tectonic_region_type r))
                         then "Invalid rupture mesh"
                         else xml_error))))).
Proof.
  intros Hlons. split.
  { intros Hlats Hdepths Hnr Hnc rup_elem.
    by apply create_rupture_mesh_ok. }
  intros Hz.
  assert (Hmesh : ∀ rup_elem, SESXMLWriter._create_rupture_mesh r rup_elem
                              = Raise (ValueError "Invalid rupture mesh"))
    by (intros; by eapply create_rupture_mesh_empty).
  split; [exact Hmesh | ]. intros Hfault.
  assert (Hrup : rupture_elem r
                 = Raise (ValueError
                            (if xml_compatible (py_str (tectonic_region_type r))
                             then "Invalid rupture mesh" else xml_error))).
  { unfold rupture_elem, xml_checked.
    destruct (xml_compatible _); cbn [mbind result_bind]; [ | done].
    by rewrite Hfault, Hmesh. }
  split.
  - intros w data s fs Hs Hr.
    assert (Hses : ∀ c, ∃ e, SESXMLWriter.add_ses c s = Raise e).
    { intros c. unfold SESXMLWriter.add_ses, new_element, etree_Element.
      rewrite elem_set_number. cbn [mbind result_bind].
      edestruct (for_each_raises SESXMLWriter.add_rupture (ruptures s) r Hr) as [e ->].
      - intros acc. rewrite add_rupture_spec, Hrup. by eexists.
      - by eexists. }
    assert (Hbuild : ∃ e, SESXMLWriter.build w data = Raise e).
    { unfold SESXMLWriter.build.
      destruct (SESXMLWriter.sm_lt_path w) as [sm | ],
               (SESXMLWriter.gsim_lt_path w) as [gsim | ];
        try apply (for_each_raises _ _ _ Hs Hses).
      unfold elem_set.
      destruct (xml_checked sm); cbn [mbind result_bind]; [ | by eexists].
      destruct (xml_checked gsim); cbn [mbind result_bind]; [ | by eexists].
      edestruct (for_each_raises _ _ _ Hs Hses) as [e ->]. by eexists. }
    destruct Hbuild as [e He].
    unfold SESXMLWriter.serialize, with_open_w. rewrite He. cbn.
    destruct (can_open _); by eexists.
  - intros w pre s post rpre rpost es res fs Hrs Hpre Hrpre Hopen.
    unfold SESXMLWriter.serialize, with_open_w.
    rewrite Hopen, SESXMLWriter_build_spec, checked_paths_cases.
    destruct (paths_accepted _ _); cbn [mbind result_bind andb fmap result_fmap snd];
      [ | done].
    assert (Hses : ses_elem s
                   = Raise (ValueError
                              (if xml_compatible (py_str (tectonic_region_type r))
                               then "Invalid rupture mesh" else xml_error))).
    { unfold ses_elem. rewrite Hrs.
      by rewrite (mapM_raises_at rupture_elem rpre rpost r res _ Hrpre Hrup). }
    by rewrite (mapM_raises_at ses_elem pre post s es _ Hpre Hses).
Qed.

(** A 2 by 3 mesh is encoded; Scenario E, a mesh without rows, makes
    serialize raise. *)
Lemma rupture_mesh_encoding_witness :
  SESXMLWriter._create_rupture_mesh rupture_2x3 (new_element "rupture")
  = Ok (append_child (new_element "rupture") (mesh_elem rupture_2x3 2 3))
  ∧ (SESXMLWriter.serialize
       {| SESXMLWriter.path := "ses.xml";
          SESXMLWriter.sm_lt_path := None;
          SESXMLWriter.gsim_lt_path := None |}
       ([] ++ {| ses_investigation_time := NInt 50;
                 ruptures := [rupture_no_rows] |} :: []) ∅).2
    = Raise (ValueError "Invalid rupture mesh").
Proof.
  split.
  - apply (@rupture_mesh_encoding demo_env rupture_2x3 2 3);
      [reflexivity | reflexivity | reflexivity | lia | lia].
  - destruct (@rupture_mesh_encoding demo_env rupture_no_rows 0 0 eq_refl)
      as [_ Hempty].
    destruct (Hempty (or_introl eq_refl)) as [_ Hser].
    destruct (Hser eq_refl) as [_ Hfirst].
    apply (Hfirst {| SESXMLWriter.path := "ses.xml";
                     SESXMLWriter.sm_lt_path := None;
                     SESXMLWriter.gsim_lt_path := None |}
                  [] {| ses_investigation_time := NInt 50;
                        ruptures := [rupture_no_rows] |} [] [] [] [] [] ∅);
      reflexivity.
Defined.

(** ** Bin edges of disaggregation results *)

Section BinEdges.
Context `{Env}.

Lemma check_label_cases (w : DisaggXMLWriter.t) (label : string) :
  DisaggXMLWriter.check_label w tt label
  = if label_has_edges (DisaggXMLWriter.metadata w) label
    then Ok tt
    else Raise (AssertionError
                  ("Writer is missing '"
                   +:+ py_str (DisaggXMLWriter.bin_edge_attr label)
                   +:+ "' metadata")).
Proof. reflexivity. Qed.

(** The loop over the labels stops at the first label without bin edges. *)
Lemma check_labels_first_missing (w : DisaggXMLWriter.t)
    (before after : list string) (label : string) :
  forallb (label_has_edges (DisaggXMLWriter.metadata w)) before = true →
  label_has_edges (DisaggXMLWriter.metadata w) label = false →
  for_each (DisaggXMLWriter.check_label w) (before ++ label :: after) tt
  = Raise (AssertionError
             ("Writer is missing '"
              +:+ py_str (DisaggXMLWriter.bin_edge_attr label)
              +:+ "' metadata")).
Proof.
  intros Hb Hl. induction before as [ | b before IH]; cbn [app for_each].
  - by rewrite check_label_cases, Hl.
  - cbn in Hb. apply andb_true_iff in Hb as [Hb1 Hb2].
    rewrite check_label_cases, Hb1. cbn. by apply IH.
Qed.

(** When some label has no bin edges, the loop raises for a label without
    bin edges. *)
Lemma check_labels_some_missing (w : DisaggXMLWriter.t) (labels : list string)
    (label : string) :
  label ∈ labels →
  label_has_edges (DisaggXMLWriter.metadata w) label = false →
  ∃ l, l ∈ labels
       ∧ label_has_edges (DisaggXMLWriter.metadata w) l = false
       ∧ for_each (DisaggXMLWriter.check_label w) labels tt
         = Raise (AssertionError
                    ("Writer is missing '"
                     +:+ py_str (DisaggXMLWriter.bin_edge_attr l)
                     +:+ "' metadata")).
Proof.
  intros Hin Hno. induction labels as [ | l ls IH]; [by inversion Hin | ].
  cbn [for_each]. rewrite check_label_cases.
  destruct (label_has_edges (DisaggXMLWriter.metadata w) l) eqn:Hl.
  - cbn. destruct IH as (l' & Hl' & Hno' & ->).
    + apply elem_of_cons in Hin as [-> | Hin]; [congruence | done].
    + exists l'. split; [by apply elem_of_cons; right | done].
  - exists l. split; [by apply elem_of_cons; left | done].
Qed.

(** serialize fails with the error of the first result that cannot be
    encoded. *)
Lemma disagg_serialize_first_failure (w : DisaggXMLWriter.t)
    (before after : list disagg_result) (res : disagg_result)
    (dm : element) (es : list element) (e : exn) (fs : gmap string string) :
  disagg_head (DisaggXMLWriter.metadata w) = Ok dm →
  mapM (disagg_matrix_elem w) before = Ok es →
  disagg_matrix_elem w res = Raise e →
  DisaggXMLWriter.serialize w (before ++ res :: after) fs
  = if can_open (DisaggXMLWriter.path w)
    then (<[DisaggXMLWriter.path w := ""]> fs, Raise e)
    else (fs, Raise (IOError (DisaggXMLWriter.path w))).
Proof.
  intros Hhead Hbefore Hres.
  unfold DisaggXMLWriter.serialize, with_open_w.
  rewrite DisaggXMLWriter_build_spec, Hhead. cbn.
  by rewrite (mapM_raises_at _ before after res es e).
Qed.

Lemma not_in_vocabulary (label : string) :
  label ∉ DIM_LABELS ↔ DisaggXMLWriter.DIM_LABEL_TO_BIN_EDGE_MAP !! label = None.
Proof.
  unfold DisaggXMLWriter.DIM_LABEL_TO_BIN_EDGE_MAP.
  by rewrite <- not_elem_of_list_to_map.
Qed.
End BinEdges.

(** C6: the constructor accepts the metadata as soon as the shared
    validator does, whatever bin edges it holds.  serialize checks, result
    by result and before any cell of the result is encoded, that every
    dimension label has its bin-edge field in the metadata: a result with a
    label whose field is absent is rejected with an [AssertionError] whose
    message names the field of a label that lacks it, namely of the first
    such label; serialize then fails with that error, the file opened and
    left empty. *)
Theorem missing_bin_edges_detected `{Env} (path : string) (md : gmap string pyval)
    (res : disagg_result) :
  _validate_hazard_metadata md = Ok tt →
  ∃ w, DisaggXMLWriter.__init__ path md = Ok w
    ∧ (∀ label,
         label ∈ dim_labels res → label_has_edges md label = false →
         ∃ l, l ∈ dim_labels res ∧ label_has_edges md l = false
              ∧ disagg_matrix_elem w res
                = Raise (AssertionError
                           ("Writer is missing '"
                            +:+ py_str (DisaggXMLWriter.bin_edge_attr l)
                            +:+ "' metadata")))
    ∧ (∀ labels_before label labels_after field,
         dim_labels res = labels_before ++ label :: labels_after →
         forallb (label_has_edges md) labels_before = true →
         DisaggXMLWriter.DIM_LABEL_TO_BIN_EDGE_MAP !! label = Some field →
         is_None (md_get md field) = true →
         disagg_matrix_elem w res
         = Raise (AssertionError ("Writer is missing '" +:+ field +:+ "' metadata"))
         ∧ ∀ before after dm es fs,
             disagg_head md = Ok dm →
             mapM (disagg_matrix_elem w) before = Ok es →
             DisaggXMLWriter.serialize w (before ++ res :: after) fs
             = if can_open path
               then (<[path := ""]> fs,
                     Raise (AssertionError
                              ("Writer is missing '" +:+ field +:+ "' metadata")))
               else (fs, Raise (IOError path))).
Proof.
  intros Hv. unfold DisaggXMLWriter.__init__. rewrite Hv. cbn [mbind result_bind].
  eexists. split; [reflexivity | ]. split.
  - intros label Hin Hno. unfold disagg_matrix_elem.
    destruct (check_labels_some_missing
                {| DisaggXMLWriter.path := path; DisaggXMLWriter.metadata := md |}
                (dim_labels res) label Hin Hno) as (l & Hl & Hnl & ->).
    by exists l.
  - intros lb label la field Hlabels Hbefore Hfield Hmissing.
    assert (Hres : disagg_matrix_elem
                     {| DisaggXMLWriter.path := path; DisaggXMLWriter.metadata := md |}
                     res
                   = Raise (AssertionError
                              ("Writer is missing '" +:+ field +:+ "' metadata"))).
    { unfold disagg_matrix_elem. rewrite Hlabels.
      rewrite check_labels_first_missing; cbn [DisaggXMLWriter.metadata].
      - unfold DisaggXMLWriter.bin_edge_attr. by rewrite Hfield.
      - exact Hbefore.
      - unfold label_has_edges, DisaggXMLWriter.bin_edge_attr. rewrite Hfield. cbn.
        unfold is_None in Hmissing. by destruct (is_not_None (md_get md field)). }
    split; [exact Hres | ].
    intros before after dm es fs Hhead Hes.
    pose proof (disagg_serialize_first_failure
                  {| DisaggXMLWriter.path := path; DisaggXMLWriter.metadata := md |}
                  before after res dm es _ fs Hhead Hes Hres) as Hser.
    cbn [DisaggXMLWriter.path] in Hser. exact Hser.
Qed.

(** Scenario D. *)
Lemma missing_bin_edges_detected_witness :
  ∃ w, DisaggXMLWriter.__init__ "disagg.xml" md_D = Ok w
       ∧ DisaggXMLWriter.serialize w ([] ++ result_D :: []) ∅
         = (<["disagg.xml" := ""]> ∅,
            Raise (AssertionError "Writer is missing 'dist_bin_edges' metadata")).
Proof.
  destruct (@missing_bin_edges_detected demo_env "disagg.xml" md_D result_D eq_refl)
    as (w & Hinit & _ & Hfirst).
  exists w. split; [exact Hinit | ].
  destruct (Hfirst ["Mag"] "Dist" [] "dist_bin_edges" eq_refl eq_refl eq_refl eq_refl)
    as [_ Hser].
  apply (Hser [] [] (match disagg_head md_D with Ok dm => dm | Raise _ => new_element "" end)
           []); reflexivity.
Defined.

(** C10: a label outside the vocabulary has no bin-edge field, so the lookup
    of its field in the metadata yields [None] and the same assertion
    fails: a result holding such a label always makes the label check raise
    an [AssertionError] of the missing-metadata form, naming ['None'] when
    the labels before it have their bin edges; serialize then fails with
    that error.  No other check of the label exists. *)
Theorem unknown_label_fails_bin_edge_assertion `{Env} (w : DisaggXMLWriter.t)
    (res : disagg_result) (label : string) :
  label ∈ dim_labels res →
  label ∉ DIM_LABELS →
  label_has_edges (DisaggXMLWriter.metadata w) label = false
  ∧ (∃ name, disagg_matrix_elem w res
             = Raise (AssertionError ("Writer is missing '" +:+ name +:+ "' metadata")))
  ∧ (∀ labels_before labels_after,
       dim_labels res = labels_before ++ label :: labels_after →
       forallb (label_has_edges (DisaggXMLWriter.metadata w)) labels_before = true →
       disagg_matrix_elem w res
       = Raise (AssertionError "Writer is missing 'None' metadata")
       ∧ ∀ before after dm es fs,
           disagg_head (DisaggXMLWriter.metadata w) = Ok dm →
           mapM (disagg_matrix_elem w) before = Ok es →
           DisaggXMLWriter.serialize w (before ++ res :: after) fs
           = if can_open (DisaggXMLWriter.path w)
             then (<[DisaggXMLWriter.path w := ""]> fs,
                   Raise (AssertionError "Writer is missing 'None' metadata"))
             else (fs, Raise (IOError (DisaggXMLWriter.path w)))).
Proof.
  intros Hin Hvoc. apply not_in_vocabulary in Hvoc.
  assert (Hno : label_has_edges (DisaggXMLWriter.metadata w) label = false)
    by (unfold label_has_edges, DisaggXMLWriter.bin_edge_attr; by rewrite Hvoc).
  split; [exact Hno | ]. split.
  - unfold disagg_matrix_elem.
    destruct (check_labels_some_missing w (dim_labels res) label Hin Hno)
      as (l & _ & _ & ->).
    by eexists.
  - intros lb la Hlabels Hbefore.
    assert (Hres : disagg_matrix_elem w res
                   = Raise (AssertionError "Writer is missing 'None' metadata")).
    { unfold disagg_matrix_elem. rewrite Hlabels.
      rewrite check_labels_first_missing by done.
      unfold DisaggXMLWriter.bin_edge_attr. by rewrite Hvoc. }
    split; [exact Hres | ].
    intros before after dm es fs Hhead Hes.
    by apply (disagg_serialize_first_failure w before after res dm es).
Qed.

Lemma unknown_label_fails_bin_edge_assertion_witness :
  disagg_matrix_elem
    {| DisaggXMLWriter.path := "disagg.xml"; DisaggXMLWriter.metadata := md_D |}
    result_unknown_label
  = Raise (AssertionError "Writer is missing 'None' metadata").
Proof.
  assert (Hin : "Depth" ∈ dim_labels result_unknown_label)
    by (cbn; rewrite !elem_of_cons; auto).
  assert (Hvoc : "Depth" ∉ DIM_LABELS)
    by (unfold DIM_LABELS; rewrite !not_elem_of_cons;
        repeat split; try discriminate; apply not_elem_of_nil).
  destruct (@unknown_label_fails_bin_edge_assertion demo_env
              {| DisaggXMLWriter.path := "disagg.xml";
                 DisaggXMLWriter.metadata := md_D |}
              result_unknown_label "Depth" Hin Hvoc) as (_ & _ & Hfirst).
  destruct (Hfirst ["Mag"] [] eq_refl eq_refl) as [Hres _].
  exact Hres.
Defined.

(** ** Numerals and comma-joined sequences *)

Lemma has_char_string_of_uint (d : Decimal.uint) :
  has_char "," (NilEmpty.string_of_uint d) = false.
Proof. induction d; cbn; done. Qed.

Lemma str_int_nat_no_comma (n : nat) : has_char "," (str_int (Z.of_nat n)) = false.
Proof.
  unfold str_int. destruct (Z.of_nat n) as [ | p | p] eqn:Hz; [done | | lia].
  cbn. destruct (Pos.to_uint p) eqn:Hp; try apply has_char_string_of_uint. done.
Qed.

Lemma parse_nat_str_int (n : nat) : parse_nat (str_int (Z.of_nat n)) = Some n.
Proof.
  unfold parse_nat, str_int.
  rewrite NilZero.isi.
  - cbn. rewrite DecimalZ.of_to.
    destruct (Z.leb_spec 0 (Z.of_nat n)); [ | lia]. by rewrite Nat2Z.id.
  - destruct (Z.of_nat n) as [ | p | p]; cbn; try discriminate.
    intros [= Hp]. by apply (Unsigned.to_uint_nonnil p).
  - destruct (Z.of_nat n) as [ | p | p]; cbn; try discriminate.
    intros [= Hp]. by apply (Unsigned.to_uint_nonnil p).
Qed.

Lemma str_int_nat_nonempty (n : nat) : str_int (Z.of_nat n) ≠ "".
Proof.
  intros Hs. pose proof (parse_nat_str_int n) as Hp. rewrite Hs in Hp. discriminate.
Qed.

Lemma split_on_no_sep (c : ascii) (s : string) :
  has_char c s = false → split_on c s = [s].
Proof.
  induction s as [ | a s IH]; cbn; [done | ].
  destruct (Ascii.eqb a c); cbn; [done | ]. intros Hs. by rewrite IH.
Qed.

Lemma split_on_app (c : ascii) (s rest : string) :
  has_char c s = false →
  split_on c (s +:+ String c rest) = s :: split_on c rest.
Proof.
  induction s as [ | a s IH]; intros Hs.
  - change (split_on c (String c rest) = "" :: split_on c rest).
    cbn. by rewrite Ascii.eqb_refl.
  - change (split_on c (String a (s +:+ String c rest))
            = String a s :: split_on c rest).
    cbn in *. destruct (Ascii.eqb a c); [done | ]. by rewrite IH.
Qed.

Lemma split_on_join (c : ascii) (p : string) (parts : list string) :
  Forall (fun s => has_char c s = false) (p :: parts) →
  split_on c (join (String c "") (p :: parts)) = p :: parts.
Proof.
  revert p. induction parts as [ | q parts IH]; intros p Hall.
  - cbn. apply split_on_no_sep. by inversion Hall.
  - inversion Hall as [ | ? ? Hp Hrest]; subst.
    change (join (String c "") (p :: q :: parts))
      with (p +:+ String c (join (String c "") (q :: parts))).
    rewrite split_on_app by done. by rewrite IH.
Qed.

Lemma join_cons_nonempty (sep s : string) (parts : list string) :
  s ≠ "" → join sep (s :: parts) ≠ "".
Proof. destruct s; [done | ]. by destruct parts. Qed.

Lemma mapM_parse_nat (ns : list nat) :
  mapM parse_nat ((fun n => str_int (Z.of_nat n)) <$> ns) = Some ns.
Proof.
  induction ns as [ | n ns IH]; [done | ].
  cbn. rewrite parse_nat_str_int. cbn. cbn in IH. by rewrite IH.
Qed.

Lemma parse_ints_str_ints `{Env} (ns : list nat) : parse_ints (str_ints ns) = Some ns.
Proof.
  unfold parse_ints, str_ints. destruct ns as [ | n ns]; [done | ].
  destruct (String.eqb_spec
              (join "," ((fun n => str_int (Z.of_nat n)) <$> n :: ns)) "") as [He | _].
  { by apply join_cons_nonempty in He; [ | apply str_int_nat_nonempty]. }
  rewrite <- (mapM_parse_nat (n :: ns)). f_equal.
  cbn [fmap list_fmap]. apply split_on_join.
  change (Forall (fun s => has_char "," s = false)
            ((fun n => str_int (Z.of_nat n)) <$> n :: ns)). apply Forall_fmap, Forall_forall. intros m _.
  apply str_int_nat_no_comma.
Qed.

(** ** The enumeration of the cells *)

Lemma bind_seq_blocks (p a n : nat) :
  (seq a n ≫= fun i => seq (i * p) p) = seq (a * p) (n * p).
Proof.
  revert a. induction n as [ | n IH]; intros a; [done | ].
  cbn [seq Nat.mul]. rewrite bind_cons, IH, seq_app. do 2 f_equal. lia.
Qed.

Lemma fmap_list_bind {A B C : Type} (f : B → C) (g : A → list B) (l : list A) :
  f <$> (l ≫= g) = l ≫= fun a => f <$> g a.
Proof.
  induction l as [ | a l IH]; [done | ].
  by rewrite !bind_cons, fmap_app, IH.
Qed.

(** The k-th index tuple of the enumeration is the one at row-major offset
    k. *)
Lemma ndindex_ravel (sh : list nat) :
  utils.ravel sh <$> utils.ndindex sh = seq 0 (utils.size sh).
Proof.
  induction sh as [ | n sh IH]; [done | ].
  cbn [utils.ndindex utils.size foldr]. fold (utils.size sh).
  rewrite fmap_list_bind.
  transitivity (seq 0 n ≫= fun i => seq (i * utils.size sh) (utils.size sh));
    [ | exact (bind_seq_blocks (utils.size sh) 0 n) ].
  apply list_bind_ext; [ | done]. intros i.
  rewrite <- list_fmap_compose.
  replace (seq (i * utils.size sh) (utils.size sh))
    with (Nat.add (i * utils.size sh) <$> seq 0 (utils.size sh))
    by (rewrite fmap_add_seq; f_equal; lia).
  rewrite <- IH, <- list_fmap_compose.
  by apply list_fmap_ext.
Qed.

Lemma ndindex_NoDup (sh : list nat) : NoDup (utils.ndindex sh).
Proof.
  apply (NoDup_fmap_1 (utils.ravel sh)). rewrite ndindex_ravel. apply NoDup_seq.
Qed.

Lemma ndindex_length (sh : list nat) : length (utils.ndindex sh) = utils.size sh.
Proof.
  rewrite <- (length_fmap (utils.ravel sh)), ndindex_ravel. apply length_seq.
Qed.

(** The enumeration holds exactly the index tuples within the shape. *)
Lemma elem_of_ndindex (sh idx : list nat) :
  idx ∈ utils.ndindex sh ↔ Forall2 lt idx sh.
Proof.
  revert idx. induction sh as [ | n sh IH]; intros idx; cbn [utils.ndindex].
  - rewrite list_elem_of_singleton. split; [intros ->; constructor | by inversion 1].
  - rewrite list_elem_of_bind. split.
    + intros (i & Hidx & Hi). apply list_elem_of_fmap in Hidx as (idx' & -> & Hidx').
      apply elem_of_seq in Hi. constructor; [lia | by apply IH].
    + inversion 1 as [ | i ? idx' ? Hi Hidx']; subst. exists i. split.
      * apply list_elem_of_fmap. exists idx'. split; [done | by apply IH].
      * apply elem_of_seq. lia.
Qed.

Lemma omap_lookup_zip {A K : Type} (f : K → nat) (vs : list A) (ks : list K) (a : nat) :
  f <$> ks = seq a (length ks) → (a + length ks ≤ length vs)%nat →
  omap (fun k => pair k <$> vs !! f k) ks = zip ks (drop a vs).
Proof.
  revert a. induction ks as [ | k ks IH]; intros a Hf Hlen; [done | ].
  cbn in Hf, Hlen. injection Hf as Hk Hks.
  destruct (lookup_lt_is_Some_2 vs a) as [v Hv]; [lia | ].
  cbn. rewrite Hk, Hv. cbn. rewrite (drop_S _ _ _ Hv). cbn.
  f_equal. apply IH; [done | lia].
Qed.

(** On a well-formed array the enumerator pairs the index tuples, in
    order, with the cells in row-major order. *)
Lemma ndenumerate_zip (a : ndarray) :
  well_formed a = true →
  utils.ndenumerate a = zip (utils.ndindex (shape a)) (flat a).
Proof.
  unfold well_formed. rewrite Nat.eqb_eq. intros Hwf.
  unfold utils.ndenumerate, utils.item.
  rewrite (omap_lookup_zip (utils.ravel (shape a)) (flat a) _ 0); [done | | ].
  - by rewrite ndindex_ravel, ndindex_length.
  - rewrite ndindex_length. lia.
Qed.

(** Looking the cells up by index gives the values back, position by
    position. *)
Lemma cell_at_zip {V : Type} (ks : list (list nat)) (vs : list V) :
  NoDup ks → length ks = length vs →
  mapM (cell_at (zip ks vs)) ks = Some vs.
Proof.
  intros Hnd. revert vs. induction Hnd as [ | k ks Hk Hnd IH]; intros vs Hlen.
  - by destruct vs.
  - destruct vs as [ | v vs]; [done | ]. cbn in Hlen.
    cbn. unfold cell_at at 1. cbn. rewrite bool_decide_eq_true_2 by done. cbn.
    rewrite (Forall_mapM_ext _ (cell_at (zip ks vs))).
    + rewrite IH by lia. done.
    + apply Forall_forall. intros k' Hk'. unfold cell_at. cbn.
      rewrite bool_decide_eq_false_2; [done | ]. by intros ->.
Qed.

Lemma decode_cell_prob_elem `{Env} {V : Type} (parse_value : string → option V)
    (idx : list nat) (v : number) (v' : V) :
  parse_value (py_str v) = Some v' →
  decode_cell parse_value (prob_elem (idx, v)) = Some (idx, v').
Proof.
  intros Hv. unfold decode_cell.
  change (attr (prob_elem (idx, v)) "index") with (Some (str_ints idx)).
  change (attr (prob_elem (idx, v)) "value") with (Some (py_str v)).
  cbn [mbind option_bind]. rewrite parse_ints_str_ints. cbn [mbind option_bind].
  by rewrite Hv.
Qed.

Lemma mapM_decode_cells `{Env} {V : Type} (parse_value : string → option V)
    (ks : list (list nat)) (vs : list number) (vs' : list V) :
  Forall2 (fun v v' => parse_value (py_str (num_val v)) = Some v') vs vs' →
  mapM (decode_cell parse_value) (prob_elem <$> zip ks vs) = Some (zip ks vs').
Proof.
  intros Hvs. revert ks.
  induction Hvs as [ | v v' vs vs' Hv Hvs IH]; intros ks.
  - by destruct ks.
  - destruct ks as [ | k ks]; [done | ].
    cbn [zip zip_with fmap list_fmap mapM].
    rewrite (decode_cell_prob_elem parse_value k v v' Hv). cbn [mbind option_bind].
    change (list_fmap _ _ prob_elem (zip_with pair ks vs))
      with (prob_elem <$> zip ks vs).
    by rewrite IH.
Qed.

(** What one [disaggMatrix] element holds, for a result with a well-formed
    matrix: the shape, and the cells in row-major order, each under its
    index tuple. *)
Lemma disagg_matrix_elem_cells `{Env} (w : DisaggXMLWriter.t) (res : disagg_result)
    (e : element) :
  well_formed (matrix res) = true →
  disagg_matrix_elem w res = Ok e →
  attr e "dims" = Some (str_ints (shape (matrix res)))
  ∧ children e
    = prob_elem <$> zip (utils.ndindex (shape (matrix res))) (flat (matrix res)).
Proof.
  intros Hwf. unfold disagg_matrix_elem.
  destruct (for_each _ _ _) as [[] | err]; cbn; [ | done].
  intros [= <-]. by rewrite ndenumerate_zip.
Qed.

(** Reading the element back: the values are those that [parse_value] reads
    from the renderings of the cells. *)
Lemma disagg_matrix_elem_decode `{Env} {V : Type} (w : DisaggXMLWriter.t)
    (res : disagg_result) (e : element) (parse_value : string → option V)
    (vs : list V) :
  well_formed (matrix res) = true →
  disagg_matrix_elem w res = Ok e →
  Forall2 (fun v v' => parse_value (py_str (num_val v)) = Some v')
          (flat (matrix res)) vs →
  decode_matrix parse_value e = Some (shape (matrix res), vs).
Proof.
  intros Hwf He Hvs.
  destruct (disagg_matrix_elem_cells w res e Hwf He) as [Hdims Hcells].
  unfold decode_matrix. rewrite Hdims, Hcells. cbn [mbind option_bind].
  rewrite parse_ints_str_ints. cbn [mbind option_bind].
  rewrite (mapM_decode_cells parse_value _ _ vs Hvs). cbn [mbind option_bind].
  unfold well_formed in Hwf. apply Nat.eqb_eq in Hwf.
  rewrite cell_at_zip; [done | apply ndindex_NoDup | ].
  rewrite ndindex_length, <- Hwf. by eapply Forall2_length.
Qed.

(** C7, as stated, fails: the document holds [str] of every cell, and
    Python 2's [str] keeps twelve significant digits of a float.  The two
    matrices [[0.1]] and [[0.10000000000000002]] are both written as one
    cell with value '0.1': the same element for two different matrices, so
    the original values cannot be rebuilt from the document. *)
Lemma distinct_matrices_same_document :
  ¬ (∀ (E : Env) (w : DisaggXMLWriter.t) (c c' : element)
       (res1 res2 : disagg_result),
       well_formed (matrix res1) = true →
       well_formed (matrix res2) = true →
       DisaggXMLWriter.add_result w c res1 = Ok c' →
       DisaggXMLWriter.add_result w c res2 = Ok c' →
       matrix res1 = matrix res2).
Proof.
  intros Hc.
  pose proof (Hc demo_env
                {| DisaggXMLWriter.path := "disagg.xml";
                   DisaggXMLWriter.metadata := md_D |}
                (new_element "disaggMatrices") _ result_tenth result_tenth_up
                eq_refl eq_refl eq_refl eq_refl) as Heq.
  apply (f_equal (fun a => match flat a with
                           | [NFloat f] => PrimFloat.eqb 0.1 f
                           | _ => false
                           end)) in Heq.
  vm_compute in Heq. discriminate Heq.
Qed.

(** C7 (amended): in the document that the disaggregation writer builds,
    every result with a well-formed matrix has its [disaggMatrix] element,
    in the order of the results; the [dims] attribute of the element is the
    comma-joined shape and reads back as the shape; its [prob] children are
    the cells in row-major order, the k-th child carrying the index tuple
    at row-major offset k and [str] of the k-th cell; every index tuple
    within the shape is visited exactly once; the shape from [dims] and the
    cells placed by their [index] attributes rebuild the matrix of the
    rendered values, [str(value)] at every position; and they rebuild the
    original values whenever these can be read back from their renderings. *)
Theorem disagg_matrix_round_trip `{Env} (w : DisaggXMLWriter.t)
    (data : list disagg_result) (root : element) :
  Forall (fun res => well_formed (matrix res) = true) data →
  DisaggXMLWriter.build w data = Ok root →
  ∃ dm,
    children root = [dm]
    ∧ Forall2
        (fun res e =>
           attr e "dims"
           = Some (join "," ((fun n => str_int (Z.of_nat n)) <$> shape (matrix res)))
           ∧ (attr e "dims" ≫= parse_ints) = Some (shape (matrix res))
           ∧ children e
             = prob_elem <$> zip (utils.ndindex (shape (matrix res)))
                                 (flat (matrix res))
           ∧ utils.ravel (shape (matrix res)) <$> utils.ndindex (shape (matrix res))
             = seq 0 (length (flat (matrix res)))
           ∧ NoDup (utils.ndindex (shape (matrix res)))
           ∧ (∀ idx, idx ∈ utils.ndindex (shape (matrix res))
                     ↔ Forall2 lt idx (shape (matrix res)))
           ∧ decode_matrix Some e
             = Some (shape (matrix res),
                     (fun v : number => py_str v) <$> flat (matrix res))
           ∧ (∀ parse_value : string → option number,
                Forall (fun v : number => parse_value (py_str v) = Some v)
                       (flat (matrix res)) →
                decode_matrix parse_value e
                = Some (shape (matrix res), flat (matrix res))))
        data (children dm).
Proof.
  intros Hwf. rewrite DisaggXMLWriter_build_spec. unfold disagg_head.
  destruct (_set_metadata _ _ _ _) as [dm0 | err] eqn:H0; cbn; [ | done].
  destruct (_set_metadata dm0 _ _ _) as [dm | err] eqn:H1; cbn; [ | done].
  destruct (mapM _ data) as [es | err] eqn:Hm; cbn; [ | done].
  intros [= <-]. eexists. split; [reflexivity | ].
  apply _set_metadata_children in H0, H1.
  rewrite children_append_children, H1, H0. cbn [children new_element etree_Element app].
  apply mapM_Ok_Forall2 in Hm.
  induction Hm as [ | res e data es He Hm IH]; [constructor | ].
  apply Forall_cons in Hwf as [Hres Hwf].
  constructor; [ | by apply IH].
  destruct (disagg_matrix_elem_cells w res e Hres He) as [Hdims Hcells].
  pose proof Hres as Hlen. unfold well_formed in Hlen. apply Nat.eqb_eq in Hlen.
  repeat apply conj.
  - done.
  - rewrite Hdims. apply parse_ints_str_ints.
  - done.
  - by rewrite ndindex_ravel, Hlen.
  - apply ndindex_NoDup.
  - apply elem_of_ndindex.
  - apply (disagg_matrix_elem_decode w res e Some _ Hres He).
    apply Forall2_fmap_r, Forall_Forall2_diag, Forall_forall. done.
  - intros parse_value Hparse.
    apply (disagg_matrix_elem_decode w res e parse_value _ Hres He).
    by apply Forall_Forall2_diag.
Qed.

Lemma disagg_matrix_round_trip_witness :
  ∃ root dm e,
    DisaggXMLWriter.build
      {| DisaggXMLWriter.path := "disagg.xml";
         DisaggXMLWriter.metadata := md_mag_dist |} [result_D] = Ok root
    ∧ children root = [dm]
    ∧ children dm = [e]
    ∧ attr e "dims" = Some "2,2"
    ∧ decode_matrix Some e = Some ([2; 2]%nat, ["1"; "2"; "3"; "4"])
    ∧ decode_matrix parse_int_value e
      = Some ([2; 2]%nat, [NInt 1; NInt 2; NInt 3; NInt 4]).
Proof.
  assert (Hb : ∃ root,
             DisaggXMLWriter.build
               {| DisaggXMLWriter.path := "disagg.xml";
                  DisaggXMLWriter.metadata := md_mag_dist |} [result_D] = Ok root)
    by (eexists; reflexivity).
  destruct Hb as [root Hb].
  assert (Hwf : Forall (fun res => well_formed (matrix res) = true) [result_D])
    by (repeat constructor).
  destruct (@disagg_matrix_round_trip demo_env _ [result_D] root Hwf Hb)
    as (dm & Hroot & Hall).
  inversion Hall as [ | res e data es He Hrest Hdata Hes]; subst.
  inversion Hrest; subst.
  destruct He as (Hdims & _ & _ & _ & _ & _ & Hstr & Hdec).
  exists root, dm, e. repeat apply conj; try done.
  apply Hdec. repeat constructor.
Defined.

(** * Further properties of the writers *)

(** ** _set_metadata in closed form *)

Lemma attrib_set_fresh (a : list (string * string)) (k v : string) :
  k ∉ a.*1 → attrib_set a k v = a ++ [(k, v)].
Proof.
  induction a as [ | [k' v'] a IH]; cbn; [done | ].
  rewrite not_elem_of_cons. intros [Hk Ha].
  destruct (String.eqb_spec k' k) as [-> | _]; [done | ]. by rewrite IH.
Qed.

Lemma mapped_attributes_names (md : gmap string pyval) (f : pyval → string)
    (attr_map : list (string * string)) (name : string) :
  name ∈ (mapped_attributes md attr_map f).*1 → name ∈ attr_map.*2.
Proof.
  unfold mapped_attributes. induction attr_map as [ | [kw n] am IH]; cbn; [done | ].
  destruct (is_not_None (md_get md kw)); cbn; rewrite ?elem_of_cons; intuition.
Qed.

Lemma _set_metadata_with `{Env} (md : gmap string pyval)
    (transform : pyval → result string) (attr_map : list (string * string)) :
  NoDup attr_map.*2 →
  ∀ t ns a x c,
    Forall (fun name => name ∉ a.*1) attr_map.*2 →
    _set_metadata (Element t ns a x c) md attr_map transform
    = attrs ← mapped_attributes_with md attr_map transform;
      Ok (Element t ns (a ++ attrs) x c).
Proof.
  unfold _set_metadata.
  induction attr_map as [ | [kw name] am IH]; intros Hnd t ns a x c Hfresh; cbn.
  - by rewrite app_nil_r.
  - cbn in Hnd, Hfresh. apply NoDup_cons in Hnd as [Hname Hnd].
    apply Forall_cons in Hfresh as [Hfr Hfresh].
    destruct (is_not_None (md_get md kw)); cbn; [ | by apply IH].
    destruct (transform (md_get md kw)) as [s | e]; cbn; [ | done].
    unfold elem_set. destruct (xml_checked s) as [s' | e]; cbn; [ | done].
    rewrite attrib_set_fresh by done. rewrite IH; [ | done | ].
    + destruct (mapped_attributes_with md am transform); cbn; [ | done].
      by rewrite <- app_assoc.
    + apply Forall_forall. intros n Hn. rewrite fmap_app, elem_of_app.
      rewrite Forall_forall in Hfresh. intros [Hin | Hin]; [by eapply Hfresh | ].
      cbn in Hin. apply list_elem_of_singleton in Hin as ->. done.
Qed.

(** With a transform that cannot raise, only lxml can stop the loop. *)
Lemma mapped_attributes_with_pure `{Env} (md : gmap string pyval)
    (f : pyval → string) (attr_map : list (string * string)) :
  mapped_attributes_with md attr_map (fun v => Ok (f v))
  = if forallb xml_compatible (mapped_attributes md attr_map f).*2
    then Ok (mapped_attributes md attr_map f)
    else Raise (ValueError xml_error).
Proof.
  unfold mapped_attributes.
  induction attr_map as [ | [kw name] am IH];
    cbn [mapped_attributes_with omap list_omap fst snd]; [done | ].
  destruct (is_not_None (md_get md kw)); [ | exact IH].
  cbn [mbind result_bind fmap list_fmap forallb snd]. unfold xml_checked.
  destruct (xml_compatible (f (md_get md kw))); cbn [mbind result_bind andb];
    [ | done].
  rewrite IH. by destruct (forallb _ _).
Qed.

Lemma _set_metadata_pure `{Env} (md : gmap string pyval) (f : pyval → string)
    (attr_map : list (string * string)) :
  NoDup attr_map.*2 →
  ∀ t ns a x c,
    Forall (fun name => name ∉ a.*1) attr_map.*2 →
    _set_metadata (Element t ns a x c) md attr_map (fun v => Ok (f v))
    = if forallb xml_compatible (mapped_attributes md attr_map f).*2
      then Ok (Element t ns (a ++ mapped_attributes md attr_map f) x c)
      else Raise (ValueError xml_error).
Proof.
  intros Hnd t ns a x c Hfresh.
  rewrite _set_metadata_with, mapped_attributes_with_pure by done.
  by destruct (forallb _ _).
Qed.

Lemma _ATTR_MAP_names_NoDup : NoDup _ATTR_MAP.*2.
Proof. apply (bool_decide_unpack _); vm_compute; exact I. Qed.

(** [_set_metadata] with the default transform on a new element. *)
Lemma _set_metadata_new `{Env} (md : gmap string pyval) (t : string) :
  _set_metadata (new_element t) md _ATTR_MAP (fun v => Ok (py_str v))
  = if forallb xml_compatible (mapped_attributes md _ATTR_MAP py_str).*2
    then Ok (Element t [] (mapped_attributes md _ATTR_MAP py_str) None [])
    else Raise (ValueError xml_error).
Proof.
  unfold new_element, etree_Element.
  rewrite (_set_metadata_pure _ py_str _ _ATTR_MAP_names_NoDup)
    by (apply Forall_forall; intros; apply not_elem_of_nil).
  done.
Qed.

(** X1: for an attribute map whose attribute names are pairwise distinct,
    on an element that has none of these names yet, and with a transform
    that cannot raise, [_set_metadata] raises lxml's [ValueError] when lxml
    refuses one of the transformed values; otherwise it succeeds, leaves the
    tag, the text and the children alone, and appends, in the order of the
    map, one attribute for every keyword whose value is not [None]. *)
Theorem set_metadata_attributes `{Env} (md : gmap string pyval) (f : pyval → string)
    (attr_map : list (string * string)) (t : string)
    (ns : list (option string * string)) (a : list (string * string))
    (x : option string) (c : list element) :
  NoDup attr_map.*2 →
  Forall (fun name => name ∉ a.*1) attr_map.*2 →
  _set_metadata (Element t ns a x c) md attr_map (fun v => Ok (f v))
  = if forallb xml_compatible (mapped_attributes md attr_map f).*2
    then Ok (Element t ns (a ++ mapped_attributes md attr_map f) x c)
    else Raise (ValueError xml_error).
Proof. intros Hnd Hfresh. by apply _set_metadata_pure. Qed.

Lemma set_metadata_attributes_witness :
  _set_metadata (Element "hazardMap" [] [("id", "m1")] None []) md_A_poe _ATTR_MAP
                (fun v => Ok (@py_str demo_env v))
  = Ok (Element "hazardMap" []
          [ ("id", "m1"); ("sourceModelTreePath", "b1"); ("gsimTreePath", "g1");
            ("IMT", "PGA"); ("investigationTime", "50"); ("poE", "0.1") ]
          None []).
Proof.
  apply (@set_metadata_attributes demo_env md_A_poe (@py_str demo_env) _ATTR_MAP
           "hazardMap" [] [("id", "m1")] None []).
  - apply (bool_decide_unpack _); vm_compute; exact I.
  - apply (bool_decide_unpack _); vm_compute; exact I.
Defined.

(** ** What serialize does to the file *)




(** ** The keys the validator reads *)

Lemma validate_ext (md md' : gmap string pyval) :
  Forall (fun k => md_get md k = md_get md' k) VALIDATED_KEYS →
  _validate_hazard_metadata md = _validate_hazard_metadata md'.
Proof.
  unfold VALIDATED_KEYS. rewrite !Forall_cons.
  intros (H1 & H2 & H3 & H4 & H5 & H6 & H7 & _).
  unfold _validate_hazard_metadata. by rewrite H1, H2, H3, H4, H5, H6, H7.
Qed.

(** X4: the validator reads seven keywords only: two metadata records that
    agree on statistics, smlt_path, gsimlt_path, quantile_value, imt,
    sa_period and sa_damping are both accepted or both rejected with the
    same error, whatever else they hold (investigation_time, poe, lon, lat,
    imls, bin edges are never validated). *)
Theorem validate_reads_seven_keys (md md' : gmap string pyval) :
  Forall (fun k => md_get md k = md_get md' k) VALIDATED_KEYS →
  _validate_hazard_metadata md = _validate_hazard_metadata md'
  ∧ (∀ path, (∃ w, HazardMapXMLWriter.__init__ path md = Ok w)
             ↔ (∃ w, HazardMapXMLWriter.__init__ path md' = Ok w)).
Proof.
  intros Hagree. pose proof (validate_ext md md' Hagree) as Hv.
  split; [exact Hv | ]. intros path.
  unfold HazardMapXMLWriter.__init__. rewrite Hv.
  destruct (_validate_hazard_metadata md') as [[] | e]; cbn;
    split; intros [w Hw]; (discriminate || by eexists).
Qed.

Lemma validate_reads_seven_keys_witness :
  _validate_hazard_metadata md_A = _validate_hazard_metadata md_A_poe.
Proof.
  apply (validate_reads_seven_keys md_A md_A_poe).
  unfold VALIDATED_KEYS. repeat (constructor; [reflexivity | ]). constructor.
Defined.

(** ** The planar-surface encoder *)

Lemma add_corner_cases `{Env} (ps_elem : element) (name : string) (corner : list number) :
  SESXMLWriter.add_corner ps_elem (name, corner)
  = if has_three corner
    then Ok (append_child ps_elem (corner_elem name corner))
    else Raise IndexError.
Proof.
  unfold SESXMLWriter.add_corner, corner_elem, new_element, etree_Element.
  destruct corner as [ | a [ | b [ | c rest]]]; try done.
  - cbn [list_item lookup list_lookup mbind result_bind]. by set_numbers.
  - cbn [list_item lookup list_lookup mbind result_bind]. by set_numbers.
  - cbn [list_item lookup list_lookup mbind result_bind]. by set_numbers.
Qed.

Lemma create_planar_surface_cases `{Env} (r : rupture) (rup_elem : element) :
  SESXMLWriter._create_planar_surface r rup_elem
  = if forallb has_three
         [ top_left_corner r; top_right_corner r;
           bottom_right_corner r; bottom_left_corner r ]
    then Ok (append_child rup_elem (planar_surface_elem r))
    else Raise IndexError.
Proof.
  unfold SESXMLWriter._create_planar_surface, planar_surface_elem.
  cbn [for_each forallb]. rewrite add_corner_cases.
  destruct (has_three (top_left_corner r)); [ | done].
  cbn [mbind result_bind]. rewrite add_corner_cases.
  destruct (has_three (top_right_corner r)); [ | done].
  cbn [mbind result_bind]. rewrite add_corner_cases.
  destruct (has_three (bottom_right_corner r)); [ | done].
  cbn [mbind result_bind]. rewrite add_corner_cases.
  destruct (has_three (bottom_left_corner r)); done.
Qed.

(** X5: the planar-surface encoder succeeds exactly when each of the four
    corners has at least three coordinates; it then appends one
    [planarSurface] element holding [topLeft], [topRight], [bottomRight]
    and [bottomLeft], in this order, each with the lon, lat and depth of its
    corner (coordinates beyond the third are ignored).  A corner with fewer
    than three coordinates raises [IndexError]. *)
Theorem planar_surface_encoding `{Env} (r : rupture) (rup_elem : element) :
  SESXMLWriter._create_planar_surface r rup_elem
  = if forallb has_three
         [ top_left_corner r; top_right_corner r;
           bottom_right_corner r; bottom_left_corner r ]
    then Ok (append_child rup_elem
               (Element "planarSurface" [] [] None
                  [ corner_elem "topLeft" (top_left_corner r);
                    corner_elem "topRight" (top_right_corner r);
                    corner_elem "bottomRight" (bottom_right_corner r);
                    corner_elem "bottomLeft" (bottom_left_corner r) ]))
    else Raise IndexError.
Proof. apply create_planar_surface_cases. Qed.

(** ** GMF elements *)

(** X6: a GMF whose [imt] is not 'SA' gets the [IMT] attribute only, whatever
    its [sa_period] and [sa_damping] hold (lxml raising its [ValueError]
    when it refuses the [imt] string as a value); a GMF with [imt] 'SA' gets
    [IMT], [saPeriod] and [saDamping], in this order, and raises
    [AttributeError] when it lacks [sa_period] or, that one given,
    [sa_damping].  The nodes follow in input order, each with iml, lon and
    lat. *)
Theorem gmf_sa_attributes `{Env} (parent : element) (g : gmf) :
  add_gmf parent g
  = if String.eqb (imt g) "SA"
    then match sa_period g, sa_damping g with
         | None, _ => Raise (AttributeError "sa_period")
         | Some _, None => Raise (AttributeError "sa_damping")
         | Some p, Some d =>
             Ok (append_child parent
                   (Element "gmf" []
                      [ ("IMT", "SA"); ("saPeriod", py_str p); ("saDamping", py_str d) ]
                      None (gmf_node_elem <$> gmf_nodes g)))
         end
    else if xml_compatible (imt g)
         then Ok (append_child parent
                    (Element "gmf" [] [ ("IMT", imt g) ] None
                       (gmf_node_elem <$> gmf_nodes g)))
         else Raise (ValueError xml_error).
Proof.
  rewrite add_gmf_spec. unfold gmf_elem, gmf_attrs, xml_checked.
  destruct (String.eqb_spec (imt g) "SA") as [-> | _].
  - by destruct (sa_period g), (sa_damping g).
  - by destruct (xml_compatible (imt g)).
Qed.

(** X7: for the same GMFs, the event-based writer (without logic-tree
    paths, one set) and the scenario writer emit the same [gmf] elements
    under their [gmfSet], and fail with the same error. *)
Theorem gmf_encoding_shared `{Env} (p : string) (w : ScenarioGMFXMLWriter.t)
    (s : gmf_set) :
  (fun root => children <$> children root)
    <$> EventBasedGMFXMLWriter.build
          {| EventBasedGMFXMLWriter.path := p;
             EventBasedGMFXMLWriter.sm_lt_path := None;
             EventBasedGMFXMLWriter.gsim_lt_path := None |} [s]
  = (fun root => children <$> children root)
      <$> ScenarioGMFXMLWriter.build w (gmfs s).
Proof.
  rewrite EventBasedGMFXMLWriter_build_spec, ScenarioGMFXMLWriter_build_spec.
  cbn. unfold gmf_set_elem.
  by destruct (mapM gmf_elem (gmfs s)).
Qed.

(** ** The mesh encoder on any grid *)

Lemma grid_item_cases (g : list (list number)) (i j : nat) :
  (row ← list_item g i; list_item row j)
  = match grid_cell g i j with
    | Some v => Ok v
    | None => Raise IndexError
    end.
Proof.
  unfold list_item, grid_cell. destruct (g !! i) as [row | ]; cbn; [ | done].
  by destruct (row !! j).
Qed.

Lemma lookup_enumerate {A : Type} (xs : list A) (i : nat) :
  enumerate xs !! i = pair i <$> xs !! i.
Proof.
  unfold enumerate. rewrite lookup_zip_with.
  destruct (xs !! i) as [a | ] eqn:Ha.
  - rewrite lookup_seq_lt by (by eapply lookup_lt_Some). done.
  - by destruct (seq 0 (length xs) !! i).
Qed.

Lemma for_each_error_kind {A S : Type} (P : exn → Prop) (body : S → A → result S) :
  (∀ acc a e, body acc a = Raise e → P e) →
  ∀ xs acc e, for_each body xs acc = Raise e → P e.
Proof.
  intros Hbody xs. induction xs as [ | a xs IH]; intros acc e; cbn; [done | ].
  destruct (body acc a) as [acc' | e'] eqn:Hb; cbn.
  - apply IH.
  - intros [= <-]. by eapply Hbody.
Qed.

Lemma for_each_invariant {A S : Type} (P : S → Prop) (body : S → A → result S) :
  (∀ acc a acc', P acc → body acc a = Ok acc' → P acc') →
  ∀ xs acc acc', P acc → for_each body xs acc = Ok acc' → P acc'.
Proof.
  intros Hbody xs. induction xs as [ | a xs IH]; intros acc acc' Hacc; cbn.
  - by intros [= <-].
  - destruct (body acc a) as [acc1 | e] eqn:Hb; cbn; [ | done].
    apply IH. by eapply Hbody.
Qed.

Section AnyGrid.
Context `{Env}.
Variable r : rupture.

Lemma add_mesh_node_cases (i j : nat) (c : number) (st : SESXMLWriter.mesh_state) :
  SESXMLWriter.add_mesh_node r i st (j, c)
  = match grid_cell (lons r) i j, grid_cell (lats r) i j, grid_cell (depths r) i j with
    | Some _, Some _, Some _ =>
        Ok (append_child st.1.1 (mesh_node_elem r i j), Some i, Some j)
    | _, _, _ => Raise IndexError
    end.
Proof.
  destruct st as [[m oi] oj].
  unfold SESXMLWriter.add_mesh_node, mesh_node_elem, grid_at, new_element,
    etree_Element.
  cbn [fst snd]. rewrite !grid_item_cases.
  fold (grid_cell (lons r) i j) (grid_cell (lats r) i j) (grid_cell (depths r) i j).
  set_numbers.
  destruct (grid_cell (lons r) i j) as [lon | ]; cbn [mbind result_bind];
    [set_numbers | done].
  destruct (grid_cell (lats r) i j) as [lat | ]; cbn [mbind result_bind];
    [set_numbers | done].
  destruct (grid_cell (depths r) i j) as [depth | ]; cbn [mbind result_bind];
    [set_numbers | done].
  done.
Qed.

Lemma inner_loop_any (i : nat) (cols : list number) :
  ∀ k m oj,
    (∀ j, (k ≤ j < k + length cols)%nat →
          is_Some (grid_cell (lons r) i j) ∧ is_Some (grid_cell (lats r) i j)
          ∧ is_Some (grid_cell (depths r) i j)) →
    for_each (SESXMLWriter.add_mesh_node r i) (zip (seq k (length cols)) cols)
             (m, Some i, oj)
    = Ok (append_children m (mesh_node_elem r i <$> seq k (length cols)),
          Some i, last_index oj k (length cols)).
Proof.
  induction cols as [ | c cols IH]; intros k m oj Hcells; cbn.
  - by rewrite append_children_nil.
  - rewrite add_mesh_node_cases.
    destruct (Hcells k) as ([v1 ->] & [v2 ->] & [v3 ->]); [cbn; lia | ].
    cbn. rewrite IH by (intros j Hj; apply Hcells; cbn; lia).
    rewrite append_children_cons.
    do 2 f_equal. destruct cols; cbn; f_equal; lia.
Qed.

Lemma add_mesh_row_any (i : nat) (row : list number) m oi oj :
  (∀ j, (j < length row)%nat →
        is_Some (grid_cell (lons r) i j) ∧ is_Some (grid_cell (lats r) i j)
        ∧ is_Some (grid_cell (depths r) i j)) →
  SESXMLWriter.add_mesh_row r (m, oi, oj) (i, row)
  = Ok (append_children m (mesh_node_elem r i <$> seq 0 (length row)),
        Some i, last_index oj 0 (length row)).
Proof.
  intros Hcells. unfold SESXMLWriter.add_mesh_row, enumerate. cbn [fst snd].
  apply inner_loop_any. intros j Hj. apply Hcells. lia.
Qed.

Lemma outer_loop_any (rows : list (list number)) :
  ∀ k m oi oj,
    (∀ n row j, rows !! n = Some row → (j < length row)%nat →
                is_Some (grid_cell (lons r) (k + n) j)
                ∧ is_Some (grid_cell (lats r) (k + n) j)
                ∧ is_Some (grid_cell (depths r) (k + n) j)) →
    for_each (SESXMLWriter.add_mesh_row r) (zip (seq k (length rows)) rows)
             (m, oi, oj)
    = Ok (append_children m
            (ir ← zip (seq k (length rows)) rows;
             mesh_node_elem r ir.1 <$> seq 0 (length ir.2)),
          last_index oi k (length rows), last_col rows oj).
Proof.
  induction rows as [ | row rows IH]; intros k m oi oj Hcells; cbn.
  - by rewrite append_children_nil.
  - rewrite add_mesh_row_any.
    2:{ intros j Hj. replace k with (k + 0)%nat by lia.
        by apply (Hcells 0%nat row j). }
    cbn. rewrite IH.
    2:{ intros n row' j Hn Hj. replace (S k + n)%nat with (k + S n)%nat by lia.
        by apply (Hcells (S n) row' j). }
    destruct m as [t ns a tx c]; cbn. rewrite <- app_assoc.
    do 3 f_equal. destruct rows; cbn; f_equal; lia.
Qed.

Lemma covers_cell (g : list (list number)) (i j : nat) (row : list number) :
  covers g (lons r) = true → lons r !! i = Some row → (j < length row)%nat →
  is_Some (grid_cell g i j).
Proof.
  unfold covers. rewrite forallb_forall. intros Hc Hrow Hj.
  specialize (Hc (i, row)). rewrite forallb_forall in Hc.
  assert (Hin : In (i, row) (enumerate (lons r))).
  { apply list_elem_of_In, list_elem_of_lookup. exists i.
    by rewrite lookup_enumerate, Hrow. }
  specialize (Hc Hin j). cbn [fst snd] in Hc.
  apply (bool_decide_eq_true_1 (is_Some (grid_cell g i j))), Hc.
  apply list_elem_of_In, elem_of_seq. lia.
Qed.

Lemma create_rupture_mesh_any (rup_elem : element) :
  covers (lats r) (lons r) = true → covers (depths r) (lons r) = true →
  SESXMLWriter._create_rupture_mesh r rup_elem
  = match last_col (lons r) None with
    | Some j =>
        Ok (append_child rup_elem
              (Element "mesh" []
                 [ ("rows", str_int (Z.of_nat (length (lons r))));
                   ("cols", str_int (Z.of_nat j + 1)) ]
                 None (mesh_nodes r)))
    | None => Raise (ValueError "Invalid rupture mesh")
    end.
Proof.
  intros Hlats Hdepths. unfold SESXMLWriter._create_rupture_mesh, enumerate, mesh_nodes.
  rewrite outer_loop_any.
  2:{ intros n row j Hn Hj. cbn [Nat.add]. repeat split.
      - unfold grid_cell. rewrite Hn. cbn. by apply lookup_lt_is_Some_2.
      - by eapply covers_cell.
      - by eapply covers_cell. }
  cbn [mbind result_bind]. unfold enumerate.
  destruct (lons r) as [ | row rows] eqn:Hl; [done | ].
  cbn [last_index length].
  unfold new_element, etree_Element.
  cbn [read_local mbind result_bind append_children app].
  set_numbers.
  destruct (last_col (row :: rows) None) as [j | ];
    cbn [read_local mbind result_bind try_except_NameError]; [ | done].
  set_numbers. cbn [try_except_NameError mbind result_bind attrib_set String.eqb].
  replace (Z.of_nat (0 + length rows) + 1) with (Z.of_nat (S (length rows))) by lia.
  done.
Qed.

Lemma add_mesh_node_error_kind i st jc e :
  SESXMLWriter.add_mesh_node r i st jc = Raise e → e = IndexError.
Proof.
  destruct jc as [j c]. rewrite add_mesh_node_cases.
  destruct (grid_cell (lons r) i j), (grid_cell (lats r) i j),
    (grid_cell (depths r) i j); congruence.
Qed.

Lemma add_mesh_row_error_kind st ir e :
  SESXMLWriter.add_mesh_row r st ir = Raise e → e = IndexError.
Proof.
  destruct st as [[m oi] oj]. unfold SESXMLWriter.add_mesh_row.
  apply (for_each_error_kind (fun e => e = IndexError)).
  intros acc a e'. apply add_mesh_node_error_kind.
Qed.

Lemma create_rupture_mesh_missing_cell (rup_elem : element) (i j : nat)
    (row : list number) :
  lons r !! i = Some row → (j < length row)%nat →
  grid_cell (lats r) i j = None ∨ grid_cell (depths r) i j = None →
  SESXMLWriter._create_rupture_mesh r rup_elem = Raise IndexError.
Proof.
  intros Hrow Hj Hmiss.
  destruct (lookup_lt_is_Some_2 row j Hj) as [c Hc].
  assert (Hnode : ∀ st, ∃ e, SESXMLWriter.add_mesh_node r i st (j, c) = Raise e).
  { intros st. rewrite add_mesh_node_cases.
    destruct Hmiss as [-> | ->]; destruct (grid_cell (lons r) i j);
      try destruct (grid_cell (lats r) i j); by eexists. }
  assert (Hrowr : ∀ st, ∃ e, SESXMLWriter.add_mesh_row r st (i, row) = Raise e).
  { intros [[m oi] oj]. unfold SESXMLWriter.add_mesh_row. cbn [fst snd].
    apply (for_each_raises _ _ (j, c)); [ | done].
    apply list_elem_of_lookup. exists j. by rewrite lookup_enumerate, Hc. }
  unfold SESXMLWriter._create_rupture_mesh.
  destruct (for_each_raises (SESXMLWriter.add_mesh_row r) (enumerate (lons r)) (i, row))
    with (acc := (new_element "mesh", @None nat, @None nat)) as [e He]; [ | done | ].
  { apply list_elem_of_lookup. exists i. by rewrite lookup_enumerate, Hrow. }
  rewrite He. cbn.
  apply (for_each_error_kind (fun e => e = IndexError)) in He; [by subst | ].
  intros acc a e'. apply add_mesh_row_error_kind.
Qed.

Lemma create_rupture_mesh_shape (rup_elem e : element) :
  SESXMLWriter._create_rupture_mesh r rup_elem = Ok e →
  ∃ mesh, e = append_child rup_elem mesh ∧ tag mesh = "mesh".
Proof.
  unfold SESXMLWriter._create_rupture_mesh.
  destruct (for_each _ _ _) as [[[m oi] oj] | err] eqn:Hloop; cbn; [ | done].
  assert (Htag : tag m = "mesh").
  { apply (for_each_invariant (fun st : SESXMLWriter.mesh_state => tag st.1.1 = "mesh"))
      in Hloop; [done | | done].
    intros [[m1 oi1] oj1] [i row] [[m2 oi2] oj2] Hm1. unfold SESXMLWriter.add_mesh_row.
    cbn [fst snd]. 
    apply (for_each_invariant (fun st : SESXMLWriter.mesh_state => tag st.1.1 = "mesh"));
      [ | done].
    intros st [j c] st' Hst. rewrite add_mesh_node_cases.
    destruct (grid_cell (lons r) i j), (grid_cell (lats r) i j),
      (grid_cell (depths r) i j); try done.
    intros [= <-]. cbn. by destruct st.1.1. }
  destruct m as [t ns a tx ch]. cbn [tag] in Htag.
  destruct oi as [i | ]; cbn [read_local mbind result_bind try_except_NameError];
    [ | done].
  set_numbers.
  destruct oj as [j | ]; cbn [read_local mbind result_bind try_except_NameError];
    [ | done].
  set_numbers. cbn [try_except_NameError mbind result_bind].
  intros [= <-]. eexists. split; [reflexivity | ]. done.
Qed.
End AnyGrid.

Lemma last_col_None (rows : list (list number)) (before : option nat) :
  last_col rows before = None ↔ before = None ∧ Forall (fun row => row = []) rows.
Proof.
  unfold last_col. revert before.
  induction rows as [ | row rows IH]; intros before; cbn.
  - split; [by intros -> | by intros [-> _]].
  - rewrite IH, Forall_cons. destruct row as [ | c row]; cbn.
    + tauto.
    + split; [by intros [? _] | by intros [_ [? _]]].
Qed.

(** X9: on any lon grid, rows of different lengths included, for which the
    lat and depth grids have all the cells the lon grid has, the mesh encoder
    emits one node per cell, row by row, and records rows = the number of
    rows and cols = one more than the last column index visited, that is the
    length of the last row that has a cell (not the longest row).  It raises
    [ValueError('Invalid rupture mesh')] exactly when no row has a cell. *)
Theorem mesh_of_any_grid `{Env} (r : rupture) (rup_elem : element) :
  covers (lats r) (lons r) = true → covers (depths r) (lons r) = true →
  SESXMLWriter._create_rupture_mesh r rup_elem
  = match last_col (lons r) None with
    | Some j =>
        Ok (append_child rup_elem
              (Element "mesh" []
                 [ ("rows", str_int (Z.of_nat (length (lons r))));
                   ("cols", str_int (Z.of_nat j + 1)) ]
                 None (mesh_nodes r)))
    | None => Raise (ValueError "Invalid rupture mesh")
    end
  ∧ (last_col (lons r) None = None ↔ Forall (fun row => row = []) (lons r)).
Proof.
  intros Hlats Hdepths. split; [by apply create_rupture_mesh_any | ].
  rewrite last_col_None. tauto.
Qed.

(** Rows of three cells and of one cell: cols is 1. *)
Lemma mesh_of_any_grid_witness :
  SESXMLWriter._create_rupture_mesh rupture_jagged (new_element "rupture")
  = Ok (append_child (new_element "rupture")
          (Element "mesh" [] [ ("rows", "2"); ("cols", "1") ] None
             (mesh_nodes rupture_jagged))).
Proof.
  destruct (@mesh_of_any_grid demo_env rupture_jagged (new_element "rupture")
              eq_refl eq_refl) as [Hmesh _].
  exact Hmesh.
Defined.

(** X10: when the lat grid or the depth grid lacks a cell that the lon grid
    has, the mesh encoder raises [IndexError] (nothing is emitted for the
    rupture, and serialize fails): adding such a fault-source rupture raises
    [IndexError], unless lxml has refused the tectonic region of the rupture
    before the mesh is looked at. *)
Theorem mesh_missing_cell_raises `{Env} (r : rupture) (rup_elem : element)
    (i j : nat) (row : list number) :
  lons r !! i = Some row → (j < length row)%nat →
  grid_cell (lats r) i j = None ∨ grid_cell (depths r) i j = None →
  SESXMLWriter._create_rupture_mesh r rup_elem = Raise IndexError
  ∧ (is_from_fault_source r = true →
     ∀ ses_elem,
       SESXMLWriter.add_rupture ses_elem r
       = Raise (if xml_compatible (py_str (tectonic_region_type r))
                then IndexError
                else ValueError xml_error)).
Proof.
  intros Hrow Hj Hmiss.
  assert (Hmesh : ∀ rup, SESXMLWriter._create_rupture_mesh r rup = Raise IndexError)
    by (intros; by eapply create_rupture_mesh_missing_cell).
  split; [apply Hmesh | ].
  intros Hfault ses_elem. rewrite add_rupture_spec.
  unfold rupture_elem, xml_checked.
  destruct (xml_compatible _); cbn [mbind result_bind]; [ | done].
  by rewrite Hfault, Hmesh.
Qed.

Lemma mesh_missing_cell_raises_witness :
  SESXMLWriter._create_rupture_mesh rupture_short_lats (new_element "rupture")
  = Raise IndexError.
Proof.
  apply (@mesh_missing_cell_raises demo_env rupture_short_lats (new_element "rupture")
           0%nat 2%nat [NInt 1; NInt 2; NInt 3]).
  - reflexivity.
  - cbn. lia.
  - left. reflexivity.
Defined.

(** X11: a rupture that serialize accepts becomes one [rupture] element
    appended to its event set, with the attributes magnitude, strike, dip,
    rake and tectonicRegion, in this order, and exactly one child: a [mesh]
    when [is_from_fault_source] holds, a [planarSurface] otherwise. *)
Theorem rupture_geometry_dispatch `{Env} (ses_elem c : element) (r : rupture) :
  SESXMLWriter.add_rupture ses_elem r = Ok c →
  ∃ rup g,
    c = append_child ses_elem rup
    ∧ tag rup = "rupture"
    ∧ attrib rup = [ ("magnitude", py_str (magnitude r));
                     ("strike", py_str (strike r));
                     ("dip", py_str (dip r));
                     ("rake", py_str (rake r));
                     ("tectonicRegion", py_str (tectonic_region_type r)) ]
    ∧ children rup = [g]
    ∧ tag g = if is_from_fault_source r then "mesh" else "planarSurface".
Proof.
  rewrite add_rupture_spec. unfold rupture_elem, xml_checked.
  destruct (xml_compatible _); cbn [mbind result_bind]; [ | done].
  destruct (is_from_fault_source r).
  - destruct (SESXMLWriter._create_rupture_mesh _ _) as [e | err] eqn:Hm; cbn; [ | done].
    intros [= <-]. apply create_rupture_mesh_shape in Hm as (mesh & -> & Htag).
    eexists _, mesh. split; [reflexivity | ]. by repeat split.
  - rewrite create_planar_surface_cases.
    destruct (forallb has_three _); cbn; [ | done].
    intros [= <-]. eexists _, _. split; [reflexivity | ]. by repeat split.
Qed.

Lemma rupture_geometry_dispatch_witness :
  ∃ c rup g,
    SESXMLWriter.add_rupture (new_element "stochasticEventSet") rupture_planar = Ok c
    ∧ c = append_child (new_element "stochasticEventSet") rup
    ∧ children rup = [g] ∧ tag g = "planarSurface".
Proof.
  assert (Hc : ∃ c, SESXMLWriter.add_rupture (new_element "stochasticEventSet")
                      rupture_planar = Ok c) by (eexists; reflexivity).
  destruct Hc as [c Hc].
  destruct (@rupture_geometry_dispatch demo_env _ c rupture_planar Hc)
    as (rup & g & Heq & _ & _ & Hch & Htag).
  exists c, rup, g. repeat split; assumption.
Defined.

(** ** How the GMF, SES and disaggregation writers can fail *)

Lemma mapM_exists_iff {A B : Type} (f : A → result B) (l : list A) :
  (∃ bs, mapM f l = Ok bs) ↔ Forall (fun a => ∃ b, f a = Ok b) l.
Proof.
  induction l as [ | a l IH]; cbn.
  - split; [constructor | by eexists].
  - rewrite Forall_cons, <- IH. destruct (f a) as [b | e]; cbn.
    + destruct (mapM f l) as [bs | e]; cbn.
      * split; [intros _; split; by eexists | by eexists].
      * split; [by intros [? ?] | by intros [_ [? ?]]].
    + split; [by intros [? ?] | by intros [[? ?] _]].
Qed.

Lemma mapM_ok_iff {A B : Type} (f : A → result B) (Q : A → Prop) (l : list A) :
  (∀ a, (∃ b, f a = Ok b) ↔ Q a) →
  (∃ bs, mapM f l = Ok bs) ↔ Forall Q l.
Proof.
  intros HQ. rewrite mapM_exists_iff, !Forall_forall.
  split; intros Hl a Ha; apply HQ, Hl, Ha.
Qed.

Lemma mapM_error_kind {A B : Type} (P : exn → Prop) (f : A → result B) :
  (∀ a e, f a = Raise e → P e) → ∀ l e, mapM f l = Raise e → P e.
Proof.
  intros Hf l. induction l as [ | a l IH]; intros e; cbn; [done | ].
  destruct (f a) as [b | e'] eqn:Hfa; cbn.
  - destruct (mapM f l) as [bs | e'']; cbn; [done | ].
    intros [= <-]. by apply IH.
  - intros [= <-]. by eapply Hf.
Qed.

Section Failures.
Context `{Env}.

Lemma gmf_elem_cases (g : gmf) :
  (gmf_accepted g = true ∧ ∃ e, gmf_elem g = Ok e)
  ∨ (gmf_accepted g = false
     ∧ (gmf_elem g = Raise (AttributeError "sa_period")
        ∨ gmf_elem g = Raise (AttributeError "sa_damping")
        ∨ gmf_elem g = Raise (ValueError xml_error))).
Proof.
  unfold gmf_accepted, gmf_complete, gmf_elem, gmf_attrs, xml_checked.
  destruct (String.eqb_spec (imt g) "SA") as [Hsa | Hsa]; cbn [negb orb].
  - rewrite Hsa, (xml_compatible_printable "SA" eq_refl), andb_true_r.
    destruct (sa_period g) as [p | ]; cbn; [ | right; split; [done | by left]].
    destruct (sa_damping g) as [d | ]; cbn;
      [ | right; split; [done | right; by left]].
    left. split; [done | by eexists].
  - destruct (xml_compatible (imt g)); cbn.
    + left. split; [done | by eexists].
    + right. split; [done | right; by right].
Qed.

Lemma gmf_elem_ok_iff (g : gmf) :
  (∃ e, gmf_elem g = Ok e) ↔ gmf_accepted g = true.
Proof.
  destruct (gmf_elem_cases g) as [[-> [e ->]] | [-> [-> | [-> | ->]]]];
    split; try done; try (by eexists); by intros [? ?].
Qed.

Lemma gmf_elem_error_kind (g : gmf) (e : exn) :
  gmf_elem g = Raise e →
  e = AttributeError "sa_period" ∨ e = AttributeError "sa_damping"
  ∨ e = ValueError xml_error.
Proof.
  destruct (gmf_elem_cases g) as [[_ [e' ->]] | [_ [-> | [-> | ->]]]];
    [done | intros [= <-]; by left | intros [= <-]; right; by left
    | intros [= <-]; right; by right].
Qed.

Lemma gmf_set_elem_ok_iff (s : gmf_set) :
  (∃ e, gmf_set_elem s = Ok e) ↔ Forall (fun g => gmf_accepted g = true) (gmfs s).
Proof.
  unfold gmf_set_elem.
  rewrite <- (mapM_ok_iff gmf_elem _ (gmfs s) gmf_elem_ok_iff).
  destruct (mapM gmf_elem (gmfs s)); cbn; split; try (by eexists); by intros [? ?].
Qed.

Lemma gmf_set_elem_error_kind (s : gmf_set) (e : exn) :
  gmf_set_elem s = Raise e →
  e = AttributeError "sa_period" ∨ e = AttributeError "sa_damping"
  ∨ e = ValueError xml_error.
Proof.
  unfold gmf_set_elem. destruct (mapM gmf_elem (gmfs s)) as [es | e'] eqn:Hm; cbn; [done | ].
  intros [= <-].
  exact (mapM_error_kind
           (fun e => e = AttributeError "sa_period" ∨ e = AttributeError "sa_damping"
                     ∨ e = ValueError xml_error)
           gmf_elem gmf_elem_error_kind _ _ Hm).
Qed.

Lemma geometry_error_kind (r : rupture) (rup_elem : element) (e : exn) :
  (if is_from_fault_source r
   then SESXMLWriter._create_rupture_mesh r rup_elem
   else SESXMLWriter._create_planar_surface r rup_elem) = Raise e →
  e = IndexError ∨ e = ValueError "Invalid rupture mesh".
Proof.
  destruct (is_from_fault_source r).
  - unfold SESXMLWriter._create_rupture_mesh.
    destruct (for_each _ _ _) as [[[[t ns a tx ch] oi] oj] | e'] eqn:Hloop;
      cbn [mbind result_bind].
    + destruct oi as [i | ];
        cbn [read_local mbind result_bind try_except_NameError];
        [ | intros [= <-]; by right].
      set_numbers.
      destruct oj as [j | ];
        cbn [read_local mbind result_bind try_except_NameError];
        [ | intros [= <-]; by right].
      set_numbers. done.
    + intros [= <-]. left. revert Hloop.
      apply (for_each_error_kind (fun e => e = IndexError)).
      intros acc a e1. apply add_mesh_row_error_kind.
  - rewrite create_planar_surface_cases.
    destruct (forallb has_three _); [done | intros [= <-]; by left].
Qed.

Lemma rupture_elem_error_kind (r : rupture) (e : exn) :
  rupture_elem r = Raise e →
  if xml_compatible (py_str (tectonic_region_type r))
  then e = IndexError ∨ e = ValueError "Invalid rupture mesh"
  else e = ValueError xml_error.
Proof.
  unfold rupture_elem, xml_checked.
  destruct (xml_compatible _); cbn [mbind result_bind].
  - apply geometry_error_kind.
  - by intros [= <-].
Qed.
End Failures.

(** X12: the two GMF writers build their tree exactly when lxml accepts the
    [imt] of every GMF as an attribute value and every GMF with [imt] 'SA'
    has both [sa_period] and [sa_damping] (a GMF with another [imt] needs
    neither), and, for the event-based writer, when lxml accepts the two
    logic-tree paths if both are given.  Otherwise they raise
    [AttributeError] for [sa_period] or [sa_damping], or lxml's
    [ValueError]; nothing else can go wrong while the tree is built. *)
Theorem gmf_writers_failures `{Env} :
  (∀ w data,
     ((∃ root, EventBasedGMFXMLWriter.build w data = Ok root)
      ↔ paths_accepted (EventBasedGMFXMLWriter.sm_lt_path w)
                       (EventBasedGMFXMLWriter.gsim_lt_path w) = true
        ∧ Forall (fun s => Forall (fun g => gmf_accepted g = true) (gmfs s)) data)
     ∧ ∀ e, EventBasedGMFXMLWriter.build w data = Raise e →
            e = AttributeError "sa_period" ∨ e = AttributeError "sa_damping"
            ∨ e = ValueError xml_error)
  ∧ (∀ w data,
       ((∃ root, ScenarioGMFXMLWriter.build w data = Ok root)
        ↔ Forall (fun g => gmf_accepted g = true) data)
       ∧ ∀ e, ScenarioGMFXMLWriter.build w data = Raise e →
              e = AttributeError "sa_period" ∨ e = AttributeError "sa_damping"
              ∨ e = ValueError xml_error).
Proof.
  split; intros w data; split.
  - rewrite EventBasedGMFXMLWriter_build_spec, checked_paths_cases.
    rewrite <- (mapM_ok_iff gmf_set_elem _ data gmf_set_elem_ok_iff).
    destruct (paths_accepted _ _); cbn [mbind result_bind].
    + destruct (mapM gmf_set_elem data); cbn; split;
        try (by eexists); try (by intros [? ?]); try (by intros [_ [? ?]]).
      intros _. split; [done | by eexists].
    + split; [by intros [? ?] | by intros [? _]].
  - intros e. rewrite EventBasedGMFXMLWriter_build_spec, checked_paths_cases.
    destruct (paths_accepted _ _); cbn [mbind result_bind];
      [ | intros [= <-]; right; by right].
    destruct (mapM gmf_set_elem data) as [sets | e'] eqn:Hm; cbn; [done | ].
    intros [= <-].
    exact (mapM_error_kind
             (fun e => e = AttributeError "sa_period" ∨ e = AttributeError "sa_damping"
                       ∨ e = ValueError xml_error)
             gmf_set_elem gmf_set_elem_error_kind _ _ Hm).
  - rewrite ScenarioGMFXMLWriter_build_spec.
    rewrite <- (mapM_ok_iff gmf_elem _ data gmf_elem_ok_iff).
    destruct (mapM gmf_elem data); cbn; split; try (by eexists); by intros [? ?].
  - intros e. rewrite ScenarioGMFXMLWriter_build_spec.
    destruct (mapM gmf_elem data) as [es | e'] eqn:Hm; cbn; [done | ].
    intros [= <-].
    exact (mapM_error_kind
             (fun e => e = AttributeError "sa_period" ∨ e = AttributeError "sa_damping"
                       ∨ e = ValueError xml_error)
             gmf_elem gmf_elem_error_kind _ _ Hm).
Qed.

(** A GMF with [imt] 'SA' and no damping. *)
Lemma gmf_writers_failures_witness :
  ScenarioGMFXMLWriter.build {| ScenarioGMFXMLWriter.path := "gmf.xml" |}
    [gmf_sa_no_damping] = Raise (AttributeError "sa_damping").
Proof.
  destruct (@gmf_writers_failures demo_env) as [_ Hscenario].
  destruct (Hscenario {| ScenarioGMFXMLWriter.path := "gmf.xml" |} [gmf_sa_no_damping])
    as [_ Herr].
  destruct (Herr (AttributeError "sa_damping") eq_refl) as [Hbad | [Hgood | Hbad]].
  - discriminate Hbad.
  - reflexivity.
  - discriminate Hbad.
Defined.

(** ** The errors of the SES writer *)

(** X13: while SESXMLWriter builds its tree, only three errors can arise:
    [IndexError] (a corner with fewer than three coordinates, or a lat or
    depth grid smaller than the lon grid),
    [ValueError('Invalid rupture mesh')], and lxml's [ValueError]; the last
    one only when lxml refuses the logic-tree paths or the tectonic region
    of a rupture. *)
Theorem ses_writer_errors `{Env} (w : SESXMLWriter.t) (data : list ses) (e : exn) :
  SESXMLWriter.build w data = Raise e →
  (e = IndexError ∨ e = ValueError "Invalid rupture mesh" ∨ e = ValueError xml_error)
  ∧ (paths_accepted (SESXMLWriter.sm_lt_path w) (SESXMLWriter.gsim_lt_path w) = true →
     Forall (fun s =>
               Forall (fun r => xml_compatible (py_str (tectonic_region_type r)) = true)
                      (ruptures s)) data →
     e = IndexError ∨ e = ValueError "Invalid rupture mesh").
Proof.
  rewrite SESXMLWriter_build_spec, checked_paths_cases.
  destruct (paths_accepted _ _); cbn [mbind result_bind];
    [ | intros [= <-]; split; [right; by right | done]].
  destruct (mapM ses_elem data) as [sets | e'] eqn:Hm; cbn; [done | ].
  intros [= ->].
  assert (Hrup : ∀ s e1, ses_elem s = Raise e1 →
                   ∃ r, r ∈ ruptures s ∧ rupture_elem r = Raise e1).
  { intros s e1. unfold ses_elem.
    destruct (mapM rupture_elem (ruptures s)) as [es | e2] eqn:Hr; cbn; [done | ].
    intros [= <-]. clear Hm. revert Hr.
    induction (ruptures s) as [ | r rs IH]; cbn; [done | ].
    destruct (rupture_elem r) as [b | e3] eqn:Hb; cbn.
    - destruct (mapM rupture_elem rs) as [bs | e4]; cbn; [done | ].
      intros [= <-]. destruct (IH eq_refl) as (r' & Hin & Hr').
      exists r'. split; [by right | done].
    - intros [= <-]. exists r. split; [by left | done]. }
  assert (Hset : ∃ s r, s ∈ data ∧ r ∈ ruptures s ∧ rupture_elem r = Raise e).
  { revert Hm. induction data as [ | s data IH]; cbn; [done | ].
    destruct (ses_elem s) as [b | e3] eqn:Hb; cbn.
    - destruct (mapM ses_elem data) as [bs | e4]; cbn; [done | ].
      intros [= ->]. destruct (IH eq_refl) as (s' & r & Hin & Hr).
      exists s', r. split; [by right | done].
    - intros [= ->]. destruct (Hrup s e Hb) as (r & Hin & Hr).
      exists s, r. split; [by left | done]. }
  destruct Hset as (s & r & Hs & Hr & Herr).
  apply rupture_elem_error_kind in Herr. split.
  - destruct (xml_compatible _); [ | right; by right].
    destruct Herr as [-> | ->]; [by left | right; by left].
  - intros _ Hall. rewrite Forall_forall in Hall. specialize (Hall s Hs).
    rewrite Forall_forall in Hall. by rewrite (Hall r Hr) in Herr.
Qed.

Lemma ses_writer_errors_witness :
  ∃ e, SESXMLWriter.build
         {| SESXMLWriter.path := "ses.xml"; SESXMLWriter.sm_lt_path := None;
            SESXMLWriter.gsim_lt_path := None |}
         [ {| ses_investigation_time := NInt 50; ruptures := [rupture_no_rows] |} ]
       = Raise e
       ∧ (e = IndexError ∨ e = ValueError "Invalid rupture mesh"
          ∨ e = ValueError xml_error).
Proof.
  exists (ValueError "Invalid rupture mesh"). split; [reflexivity | ].
  apply (@ses_writer_errors demo_env
           {| SESXMLWriter.path := "ses.xml"; SESXMLWriter.sm_lt_path := None;
              SESXMLWriter.gsim_lt_path := None |}
           [ {| ses_investigation_time := NInt 50; ruptures := [rupture_no_rows] |} ]).
  reflexivity.
Defined.

(** ** The disaggregation document *)

Section DisaggDocument.
Context `{Env}.

Lemma transform_cases (v : pyval) :
  (iterable v = true ∧ ∃ s, DisaggXMLWriter.transform v = Ok s)
  ∨ (iterable v = false ∧ DisaggXMLWriter.transform v = Raise TypeError).
Proof. destruct v; cbn; (by right) || (left; split; [done | by eexists]). Qed.

Lemma mapped_attributes_with_cases (md : gmap string pyval)
    (attr_map : list (string * string)) :
  (Forall (fun ka => is_not_None (md_get md ka.1) = true →
                     edges_accepted (md_get md ka.1) = true) attr_map
   ∧ ∃ attrs, mapped_attributes_with md attr_map DisaggXMLWriter.transform = Ok attrs)
  ∨ (¬ Forall (fun ka => is_not_None (md_get md ka.1) = true →
                         edges_accepted (md_get md ka.1) = true) attr_map
     ∧ (mapped_attributes_with md attr_map DisaggXMLWriter.transform = Raise TypeError
        ∨ mapped_attributes_with md attr_map DisaggXMLWriter.transform
          = Raise (ValueError xml_error))).
Proof.
  induction attr_map as [ | [kw name] am IH]; cbn [mapped_attributes_with fst snd].
  - left. split; [constructor | by eexists].
  - destruct (is_not_None (md_get md kw)) eqn:Hset.
    + assert (Hbad : edges_accepted (md_get md kw) = false →
                ¬ Forall (fun ka : string * string =>
                            is_not_None (md_get md ka.1) = true →
                            edges_accepted (md_get md ka.1) = true)
                         ((kw, name) :: am)).
      { intros Hacc Hall. inversion Hall as [ | ? ? Hhd _]; subst.
        cbn [fst] in Hhd. specialize (Hhd Hset). congruence. }
      destruct (transform_cases (md_get md kw)) as [[Hit [s Hs]] | [Hit Hs]].
      * assert (Hacc : edges_accepted (md_get md kw) = xml_compatible s)
          by (unfold edges_accepted; by rewrite Hs).
        rewrite Hs. cbn [mbind result_bind]. unfold xml_checked.
        destruct (xml_compatible s) eqn:Hcompat; cbn [mbind result_bind].
        -- destruct IH as [[Hall [attrs ->]] | [Hnot Herr]].
           ++ left. split; [ | by eexists]. constructor; [ | exact Hall]. done.
           ++ right. split.
              ** intros Hall. apply Hnot. by inversion Hall.
              ** destruct Herr as [-> | ->]; [by left | by right].
        -- right. split; [by apply Hbad | by right].
      * assert (Hacc : edges_accepted (md_get md kw) = false)
          by (unfold edges_accepted; by rewrite Hs).
        rewrite Hs. right. split; [by apply Hbad | by left].
    + destruct IH as [[Hall [attrs ->]] | [Hnot Herr]].
      * left. split; [ | by eexists]. constructor; [ | exact Hall].
        cbn. rewrite Hset. done.
      * right. split; [ | exact Herr]. intros Hall. apply Hnot. by inversion Hall.
Qed.

Lemma check_labels_cases (w : DisaggXMLWriter.t) (labels : list string) :
  (Forall (fun l => label_has_edges (DisaggXMLWriter.metadata w) l = true) labels
   ∧ for_each (DisaggXMLWriter.check_label w) labels tt = Ok tt)
  ∨ (¬ Forall (fun l => label_has_edges (DisaggXMLWriter.metadata w) l = true) labels
     ∧ ∃ msg, for_each (DisaggXMLWriter.check_label w) labels tt
              = Raise (AssertionError msg)).
Proof.
  induction labels as [ | l ls IH]; cbn [for_each].
  - left. split; [constructor | done].
  - rewrite check_label_cases.
    destruct (label_has_edges (DisaggXMLWriter.metadata w) l) eqn:Hl; cbn [mbind result_bind].
    + destruct IH as [[Hall He] | [Hnot He]].
      * left. split; [by constructor | exact He].
      * right. split; [ | exact He]. intros Hall. apply Hnot. by inversion Hall.
    + right. split; [ | by eexists]. intros Hall. inversion Hall; congruence.
Qed.

Lemma disagg_matrix_elem_cases (w : DisaggXMLWriter.t) (res : disagg_result) :
  (Forall (fun l => label_has_edges (DisaggXMLWriter.metadata w) l = true)
          (dim_labels res)
   ∧ ∃ e, disagg_matrix_elem w res = Ok e)
  ∨ (¬ Forall (fun l => label_has_edges (DisaggXMLWriter.metadata w) l = true)
              (dim_labels res)
     ∧ ∃ msg, disagg_matrix_elem w res = Raise (AssertionError msg)).
Proof.
  unfold disagg_matrix_elem.
  destruct (check_labels_cases w (dim_labels res)) as [[Hall ->] | [Hnot [msg ->]]].
  - left. split; [done | by eexists].
  - right. split; [done | by eexists].
Qed.

Lemma disagg_build_closed_form (w : DisaggXMLWriter.t) (data : list disagg_result) :
  DisaggXMLWriter.build w data
  = if forallb xml_compatible
         (mapped_attributes (DisaggXMLWriter.metadata w) _ATTR_MAP py_str).*2
    then
      bin ← mapped_attributes_with (DisaggXMLWriter.metadata w)
              DisaggXMLWriter.BIN_EDGE_ATTR_MAP DisaggXMLWriter.transform;
      es ← mapM (disagg_matrix_elem w) data;
      Ok (nrml [ Element "disaggMatrices" []
                   (mapped_attributes (DisaggXMLWriter.metadata w) _ATTR_MAP py_str
                    ++ bin)
                   None es ])
    else Raise (ValueError xml_error).
Proof.
  rewrite DisaggXMLWriter_build_spec. unfold disagg_head.
  rewrite _set_metadata_new.
  destruct (forallb _ _); cbn [mbind result_bind app]; [ | done].
  rewrite _set_metadata_with.
  - destruct (mapped_attributes_with _ _ _) as [bin | e]; cbn; [ | done].
    by destruct (mapM (disagg_matrix_elem w) data).
  - apply (bool_decide_unpack _); vm_compute; exact I.
  - apply Forall_forall. intros name Hname Hin.
    apply mapped_attributes_names in Hin.
    assert (Hdisj : Forall (fun n => n ∉ _ATTR_MAP.*2) DisaggXMLWriter.BIN_EDGE_ATTR_MAP.*2)
      by (apply (bool_decide_unpack _); vm_compute; exact I).
    rewrite Forall_forall in Hdisj. by apply (Hdisj name).
Qed.
End DisaggDocument.

(** X14: the disaggregation document in closed form, and the ways building
    it can fail.  The [disaggMatrices] element carries the mapped scalar
    metadata followed by the bin-edge attributes, each the ', '-joined
    rendering of its sequence, and one [disaggMatrix] per result.  Building
    succeeds exactly when lxml accepts every mapped scalar value, every
    bin-edge keyword that is given holds a sequence whose joined rendering
    lxml accepts, and every dimension label of every result has its bin
    edges; otherwise it raises lxml's [ValueError] (a value lxml refuses),
    [TypeError] (a bin-edge value that cannot be iterated) or an
    [AssertionError] (a label without bin edges). *)
Theorem disagg_build_outcomes `{Env} (w : DisaggXMLWriter.t) (data : list disagg_result) :
  DisaggXMLWriter.build w data
  = (if forallb xml_compatible
          (mapped_attributes (DisaggXMLWriter.metadata w) _ATTR_MAP py_str).*2
     then
       bin ← mapped_attributes_with (DisaggXMLWriter.metadata w)
               DisaggXMLWriter.BIN_EDGE_ATTR_MAP DisaggXMLWriter.transform;
       es ← mapM (disagg_matrix_elem w) data;
       Ok (nrml [ Element "disaggMatrices" []
                    (mapped_attributes (DisaggXMLWriter.metadata w) _ATTR_MAP py_str
                     ++ bin)
                    None es ])
     else Raise (ValueError xml_error))
  ∧ ((∃ root, DisaggXMLWriter.build w data = Ok root)
     ↔ forallb xml_compatible
         (mapped_attributes (DisaggXMLWriter.metadata w) _ATTR_MAP py_str).*2 = true
       ∧ Forall (fun ka => is_not_None (md_get (DisaggXMLWriter.metadata w) ka.1) = true →
                           edges_accepted (md_get (DisaggXMLWriter.metadata w) ka.1) = true)
                DisaggXMLWriter.BIN_EDGE_ATTR_MAP
       ∧ Forall (fun res =>
                   Forall (fun l => label_has_edges (DisaggXMLWriter.metadata w) l = true)
                          (dim_labels res))
                data)
  ∧ (∀ e, DisaggXMLWriter.build w data = Raise e →
          e = ValueError xml_error ∨ e = TypeError ∨ ∃ msg, e = AssertionError msg).
Proof.
  split; [apply disagg_build_closed_form | ].
  rewrite disagg_build_closed_form.
  assert (Hres : ∀ res, (∃ e, disagg_matrix_elem w res = Ok e)
                        ↔ Forall (fun l => label_has_edges (DisaggXMLWriter.metadata w) l
                                           = true) (dim_labels res)).
  { intros res. destruct (disagg_matrix_elem_cases w res) as [[Hall [e ->]] | [Hnot [msg ->]]].
    - split; [done | by eexists].
    - split; [by intros [? ?] | done]. }
  rewrite <- (mapM_ok_iff (disagg_matrix_elem w) _ data Hres).
  destruct (forallb _ _).
  2:{ split; [ | intros e [= <-]; by left].
      split; [by intros [? ?] | by intros [? _]]. }
  destruct (mapped_attributes_with_cases (DisaggXMLWriter.metadata w)
              DisaggXMLWriter.BIN_EDGE_ATTR_MAP) as [[Hall [bin ->]] | [Hnot Herr]];
    cbn [mbind result_bind].
  - destruct (mapM (disagg_matrix_elem w) data) as [es | e'] eqn:Hm; cbn [mbind result_bind].
    + split; [ | done].
      split; [intros _; split; [done | split; [done | by eexists]] | by eexists].
    + split.
      * split; [by intros [? ?] | by intros (_ & _ & [? ?])].
      * intros e [= <-]. right. right.
        apply (mapM_error_kind (fun e => ∃ msg, e = AssertionError msg)
                 (disagg_matrix_elem w)) in Hm; [done | ].
        intros res e Hr.
        destruct (disagg_matrix_elem_cases w res) as [[_ [? He]] | [_ [msg He]]];
          rewrite He in Hr; [done | ]. injection Hr as <-. by eexists.
  - destruct Herr as [-> | ->]; cbn [mbind result_bind].
    + split; [ | intros e [= <-]; right; by left].
      split; [by intros [? ?] | by intros (_ & ? & _)].
    + split; [ | intros e [= <-]; by left].
      split; [by intros [? ?] | by intros (_ & ? & _)].
Qed.

(** Magnitude bin edges that are a number, not a sequence. *)
Lemma disagg_build_outcomes_witness :
  DisaggXMLWriter.build
    {| DisaggXMLWriter.path := "disagg.xml"; DisaggXMLWriter.metadata := md_bad_edges |}
    [result_D] = Raise TypeError.
Proof.
  destruct (@disagg_build_outcomes demo_env
              {| DisaggXMLWriter.path := "disagg.xml";
                 DisaggXMLWriter.metadata := md_bad_edges |} [result_D])
    as (_ & _ & Herr).
  destruct (Herr TypeError eq_refl) as [Hbad | [_ | [msg Hmsg]]];
    [discriminate Hbad | reflexivity | discriminate Hmsg].
Defined.

(** ** Index attributes of the cells *)

Lemma str_ints_inj (l1 l2 : list nat) : str_ints l1 = str_ints l2 → l1 = l2.
Proof.
  intros Heq. pose proof (@parse_ints_str_ints demo_env l1) as H1.
  rewrite Heq, (@parse_ints_str_ints demo_env) in H1. congruence.
Qed.

Lemma omap_keys_sublist {K V : Type} (f : K → option V) (ks : list K) :
  sublist (omap (fun k => pair k <$> f k) ks).*1 ks.
Proof.
  induction ks as [ | k ks IH]; cbn; [constructor | ].
  destruct (f k); cbn; by constructor.
Qed.

(** X15: for every result that the loop body of DisaggXMLWriter.serialize
    accepts, it appends one [disaggMatrix] element to the container, with
    the attributes type, dims, poE and iml, in this order, and one [prob]
    child per cell that the enumerator yields; the [index] attributes of
    these children are pairwise distinct, and a comma-joined index
    determines its index tuple; a well-formed matrix gets as many cells as
    its shape says. *)
Theorem cell_indices_distinct `{Env} (w : DisaggXMLWriter.t) (res : disagg_result)
    (c c' : element) :
  DisaggXMLWriter.add_result w c res = Ok c' →
  ∃ e,
    c' = append_child c e
    ∧ tag e = "disaggMatrix"
    ∧ (attrib e).*1 = ["type"; "dims"; "poE"; "iml"]
    ∧ length (children e) = length (utils.ndenumerate (matrix res))
    ∧ NoDup ((fun p => attr p "index") <$> children e)
    ∧ (∀ l1 l2 : list nat,
         join "," ((fun n => str_int (Z.of_nat n)) <$> l1)
         = join "," ((fun n => str_int (Z.of_nat n)) <$> l2) → l1 = l2)
    ∧ (well_formed (matrix res) = true →
       length (children e) = utils.size (shape (matrix res))).
Proof.
  rewrite add_result_spec. unfold disagg_matrix_elem.
  destruct (for_each _ _ _) as [[] | err]; cbn [mbind result_bind]; [ | done].
  intros [= <-]. eexists. split; [reflexivity | ].
  cbn [tag attrib children fmap list_fmap fst].
  split; [done | ]. split; [done | ]. split; [by rewrite length_fmap | ].
  split; [ | split; [exact str_ints_inj | ]].
  - rewrite <- list_fmap_compose.
    replace ((fun p => attr p "index") ∘ prob_elem)
      with ((fun l => Some (str_ints l)) ∘ (fst : list nat * number → list nat)) by done.
    rewrite list_fmap_compose. apply NoDup_fmap_2.
    + intros l1 l2 [= Heq]. by apply str_ints_inj.
    + unfold utils.ndenumerate.
      eapply sublist_NoDup; [apply ndindex_NoDup | apply omap_keys_sublist].
  - intros Hwf. rewrite length_fmap, ndenumerate_zip by done.
    unfold well_formed in Hwf. apply Nat.eqb_eq in Hwf.
    rewrite length_zip, ndindex_length. lia.
Qed.

Lemma cell_indices_distinct_witness :
  ∃ c' e,
    DisaggXMLWriter.add_result
      {| DisaggXMLWriter.path := "disagg.xml";
         DisaggXMLWriter.metadata := md_mag_dist |}
      (new_element "disaggMatrices") result_D = Ok c'
    ∧ c' = append_child (new_element "disaggMatrices") e
    ∧ NoDup ((fun p => attr p "index") <$> children e)
    ∧ length (children e) = 4%nat.
Proof.
  assert (Hc : ∃ c', DisaggXMLWriter.add_result
                       {| DisaggXMLWriter.path := "disagg.xml";
                          DisaggXMLWriter.metadata := md_mag_dist |}
                       (new_element "disaggMatrices") result_D = Ok c')
    by (eexists; reflexivity).
  destruct Hc as [c' Hc].
  destruct (@cell_indices_distinct demo_env _ result_D _ c' Hc)
    as (e & Heq & _ & _ & _ & Hnd & _ & Hlen).
  exists c', e. repeat apply conj; try done. apply Hlen. reflexivity.
Defined.

(** ** Attributes of a validated document *)

Lemma find_mapped_absent (md : gmap string pyval) (f : pyval → string)
    (attr_map : list (string * string)) (name : string) :
  name ∉ attr_map.*2 →
  List.find (fun kv : string * string => String.eqb kv.1 name)
            (mapped_attributes md attr_map f) = None.
Proof.
  unfold mapped_attributes. induction attr_map as [ | [kw n] am IH]; cbn; [done | ].
  rewrite not_elem_of_cons. intros [Hn Ham].
  destruct (is_not_None (md_get md kw)); cbn; [ | by apply IH].
  destruct (String.eqb_spec n name) as [-> | _]; [done | by apply IH].
Qed.

Lemma find_mapped (md : gmap string pyval) (f : pyval → string)
    (attr_map : list (string * string)) (kw name : string) :
  NoDup attr_map.*2 → (kw, name) ∈ attr_map →
  snd <$> List.find (fun kv : string * string => String.eqb kv.1 name)
                    (mapped_attributes md attr_map f)
  = if is_not_None (md_get md kw) then Some (f (md_get md kw)) else None.
Proof.
  induction attr_map as [ | [kw' n] am IH]; [by inversion 2 | ].
  cbn [fmap list_fmap snd]. rewrite NoDup_cons, elem_of_cons. intros [Hn Hnd] [Heq | Hin].
  - injection Heq as <- <-. unfold mapped_attributes. cbn.
    destruct (is_not_None (md_get md kw)); cbn.
    + by rewrite String.eqb_refl.
    + fold (mapped_attributes md am f). by rewrite find_mapped_absent.
  - assert (Hne : n ≠ name).
    { intros ->. apply Hn. apply list_elem_of_fmap. by exists (kw, name). }
    unfold mapped_attributes. cbn. fold (mapped_attributes md am f).
    destruct (is_not_None (md_get md kw')); cbn; [ | by apply IH].
    destruct (String.eqb_spec n name) as [-> | _]; [done | by apply IH].
Qed.

Lemma attr_hazard_map_elem `{Env} (md : gmap string pyval)
    (data : list (number * number * number)) (kw name : string) :
  (kw, name) ∈ _ATTR_MAP →
  attr (hazard_map_elem md data) name
  = if is_not_None (md_get md kw) then Some (py_str (md_get md kw)) else None.
Proof.
  intros Hin. unfold attr, hazard_map_elem. cbn [attrib].
  by apply find_mapped; [apply _ATTR_MAP_names_NoDup | ].
Qed.

(** X16: the document of a hazard-map writer that passed validation carries
    either a [statistics] attribute, 'mean' or 'quantile', and no
    logic-tree path attribute, or both [sourceModelTreePath] and
    [gsimTreePath] and no [statistics]; it carries [quantileValue] exactly
    when [statistics] is 'quantile'. *)
Theorem validated_document_attributes `{Env} (path : string) (md : gmap string pyval)
    (data : list (number * number * number)) (w : HazardMapXMLWriter.t) (root : element) :
  HazardMapXMLWriter.__init__ path md = Ok w →
  HazardMapXMLWriter.build w data = Ok root →
  ∃ hm,
    children root = [hm]
    ∧ (((attr hm "statistics" = Some "mean" ∨ attr hm "statistics" = Some "quantile")
        ∧ attr hm "sourceModelTreePath" = None ∧ attr hm "gsimTreePath" = None)
       ∨ (attr hm "statistics" = None
          ∧ is_Some (attr hm "sourceModelTreePath")
          ∧ is_Some (attr hm "gsimTreePath")))
    ∧ (is_Some (attr hm "quantileValue") ↔ attr hm "statistics" = Some "quantile").
Proof.
  unfold HazardMapXMLWriter.__init__.
  destruct (validate_cases md) as [[Hvalid ->] | [_ [msg ->]]]; cbn; [ | done].
  intros [= <-]. rewrite HazardMapXMLWriter_build_spec.
  cbn [HazardMapXMLWriter.metadata]. rewrite _set_metadata_new.
  destruct (forallb _ _); cbn [mbind result_bind app append_children]; [ | done].
  intros [= <-].
  exists (hazard_map_elem md data). split; [done | ].
  rewrite (attr_hazard_map_elem md data "statistics" "statistics")
    by (apply (bool_decide_unpack _); vm_compute; exact I).
  rewrite (attr_hazard_map_elem md data "smlt_path" "sourceModelTreePath")
    by (apply (bool_decide_unpack _); vm_compute; exact I).
  rewrite (attr_hazard_map_elem md data "gsimlt_path" "gsimTreePath")
    by (apply (bool_decide_unpack _); vm_compute; exact I).
  rewrite (attr_hazard_map_elem md data "quantile_value" "quantileValue")
    by (apply (bool_decide_unpack _); vm_compute; exact I).
  revert Hvalid.
  unfold valid_metadata, statistics_kind, logic_tree_kind, quantile_rule, py_in_strs,
    existsb, is_None.
  generalize (implb (py_eq_str (md_get md "imt") "SA")
                (is_not_None (md_get md "sa_period")
                 && is_not_None (md_get md "sa_damping"))).
  intros sa.
  destruct (md_get md "statistics") as [ | s | z | f | l]; cbn [py_eq_str is_not_None py_str].
  2:{ pose proof (String.eqb_spec s "mean") as Hm.
      pose proof (String.eqb_spec s "quantile") as Hq.
      destruct Hm as [-> | Hm]; destruct Hq as [Hq | Hq]; try discriminate Hq;
        try subst s;
        destruct (is_not_None (md_get md "smlt_path")),
                 (is_not_None (md_get md "gsimlt_path")),
                 (is_not_None (md_get md "quantile_value")); cbn;
        try discriminate; intros _;
        (split; [ left; split; [ (by left) || (by right) | done ]
                | split; first [ done | by intros [? ?] | by eexists ] ]). }
  all: destruct (is_not_None (md_get md "smlt_path")),
         (is_not_None (md_get md "gsimlt_path")),
         (is_not_None (md_get md "quantile_value")); cbn;
    try discriminate; intros _;
    (split; [ right; by repeat split
            | split; first [ done | by intros [? ?] ] ]).
Qed.

Lemma validated_document_attributes_witness :
  ∃ hm, attr hm "statistics" = Some "mean"
        ∧ attr hm "sourceModelTreePath" = None ∧ attr hm "gsimTreePath" = None.
Proof.
  destruct (@validated_document_attributes demo_env "map.xml" md_mean map_points
              {| HazardMapXMLWriter.path := "map.xml";
                 HazardMapXMLWriter.metadata := md_mean |}
              (nrml [hazard_map_elem md_mean map_points]) eq_refl eq_refl)
    as (hm & Hch & Hkind & _).
  exists hm. injection Hch as <-. repeat split; reflexivity.
Defined.

(** ** A keyword given as None *)

Lemma md_get_insert_None (md : gmap string pyval) (k k' : string) :
  md_get (<[k := PyNone]> md) k' = md_get (delete k md) k'.
Proof.
  unfold md_get. destruct (decide (k = k')) as [<- | Hne].
  - by rewrite lookup_insert_eq, lookup_delete_eq.
  - by rewrite lookup_insert_ne, lookup_delete_ne.
Qed.

Lemma _set_metadata_ext `{Env} (md md' : gmap string pyval)
    (transform : pyval → result string) (attr_map : list (string * string)) :
  (∀ k, md_get md k = md_get md' k) →
  ∀ elt, _set_metadata elt md attr_map transform
         = _set_metadata elt md' attr_map transform.
Proof.
  intros Hget. unfold _set_metadata.
  induction attr_map as [ | [kw name] am IH]; intros elt; cbn; [done | ].
  rewrite Hget. destruct (is_not_None (md_get md' kw)); cbn; [ | apply IH].
  destruct (transform (md_get md' kw)); cbn; [ | done].
  destruct (elem_set elt name a); cbn; [apply IH | done].
Qed.

(** The mapped attributes depend on the mapped keywords only. *)
Lemma mapped_attributes_ext (md md' : gmap string pyval) (f : pyval → string)
    (attr_map : list (string * string)) :
  Forall (fun k => md_get md k = md_get md' k) attr_map.*1 →
  mapped_attributes md attr_map f = mapped_attributes md' attr_map f.
Proof.
  unfold mapped_attributes.
  induction attr_map as [ | [kw name] am IH]; [done | ].
  cbn [fmap list_fmap fst]. rewrite Forall_cons. intros [Hk Ham].
  cbn [omap list_omap fst snd]. rewrite Hk.
  destruct (is_not_None (md_get md' kw)); [f_equal | ]; by apply IH.
Qed.

Lemma mapped_attributes_imls (md : gmap string pyval) (f : pyval → string) :
  mapped_attributes (<["imls" := PyNone]> md) _ATTR_MAP f
  = mapped_attributes md _ATTR_MAP f
  ∧ mapped_attributes (delete "imls" md) _ATTR_MAP f
    = mapped_attributes md _ATTR_MAP f.
Proof.
  split; apply mapped_attributes_ext; unfold md_get, _ATTR_MAP;
    cbn [fmap list_fmap fst];
    repeat (constructor;
            [ first [ by rewrite lookup_insert_ne
                    | by rewrite lookup_delete_ne ] | ]);
    constructor.
Qed.

(** X17: for validation and for the attribute mapping, a keyword given as
    [None] is the same as a keyword not given: both read the metadata with
    [get].  The [imls] of the hazard-curve writer is read with a
    subscript instead: once lxml has accepted the mapped metadata values,
    [imls=None] makes serialize raise [TypeError] and a missing [imls]
    makes it raise [KeyError]; when lxml refuses a mapped value its
    [ValueError] comes first in both cases. *)
Theorem none_is_absent `{Env} (md : gmap string pyval) (k : string) :
  _validate_hazard_metadata (<[k := PyNone]> md)
  = _validate_hazard_metadata (delete k md)
  ∧ (∀ elt attr_map transform,
       _set_metadata elt (<[k := PyNone]> md) attr_map transform
       = _set_metadata elt (delete k md) attr_map transform)
  ∧ (∀ p data,
       HazardCurveXMLWriter.build
         {| HazardCurveXMLWriter.path := p;
            HazardCurveXMLWriter.metadata := <["imls" := PyNone]> md |} data
       = Raise (if forallb xml_compatible (mapped_attributes md _ATTR_MAP py_str).*2
                then TypeError
                else ValueError xml_error)
       ∧ HazardCurveXMLWriter.build
           {| HazardCurveXMLWriter.path := p;
              HazardCurveXMLWriter.metadata := delete "imls" md |} data
         = Raise (if forallb xml_compatible (mapped_attributes md _ATTR_MAP py_str).*2
                  then KeyError "imls"
                  else ValueError xml_error)).
Proof.
  split; [ | split].
  - apply validate_ext, Forall_forall. intros k' _. apply md_get_insert_None.
  - intros elt attr_map transform. apply _set_metadata_ext.
    intros k'. apply md_get_insert_None.
  - intros p data. unfold HazardCurveXMLWriter.build.
    cbn [HazardCurveXMLWriter.metadata].
    destruct (mapped_attributes_imls md py_str) as [Hins Hdel].
    rewrite !_set_metadata_new, Hins, Hdel.
    destruct (forallb _ _); cbn [mbind result_bind]; [ | done].
    unfold md_item. by rewrite lookup_insert_eq, lookup_delete_eq.
Qed.

(** ** The nodes of a mesh *)

Lemma str_int_nat_inj (a b : nat) :
  str_int (Z.of_nat a) = str_int (Z.of_nat b) → a = b.
Proof.
  intros Heq. pose proof (parse_nat_str_int a) as Ha.
  rewrite Heq, parse_nat_str_int in Ha. congruence.
Qed.

Lemma elem_of_enumerate {A : Type} (xs : list A) (i : nat) (a : A) :
  (i, a) ∈ enumerate xs ↔ xs !! i = Some a.
Proof.
  rewrite list_elem_of_lookup. split.
  - intros [k Hk]. rewrite lookup_enumerate in Hk.
    destruct (xs !! k) as [a' | ] eqn:Hx; [ | done]. cbn in Hk. congruence.
  - intros Hi. exists i. by rewrite lookup_enumerate, Hi.
Qed.

Lemma enumerate_NoDup {A : Type} (xs : list A) : NoDup (enumerate xs).
Proof.
  apply (NoDup_fmap_1 fst). unfold enumerate.
  rewrite fst_zip by (by rewrite length_seq). apply NoDup_seq.
Qed.

Lemma length_rows_nodes {B : Type} (F : nat → nat → B) (rows : list (list number)) (k : nat) :
  length (zip (seq k (length rows)) rows
          ≫= fun ir : nat * list number => F ir.1 <$> seq 0 (length ir.2))
  = sum_list (length <$> rows).
Proof.
  revert k. induction rows as [ | row rows IH]; intros k; [done | ].
  cbn [length seq zip_with fmap list_fmap sum_list sum_list_with].
  rewrite bind_cons, length_app, IH. cbn [fst snd].
  by rewrite length_fmap, length_seq.
Qed.

Lemma mesh_nodes_distinct `{Env} (r : rupture) :
  NoDup ((fun n => (attr n "row", attr n "col")) <$> mesh_nodes r).
Proof.
  unfold mesh_nodes. rewrite fmap_list_bind. apply NoDup_bind.
  - intros [i1 row1] [i2 row2] y Hx1 Hx2 Hy1 Hy2. cbn [fst snd] in *.
    apply list_elem_of_fmap in Hy1 as (n1 & -> & Hn1).
    apply list_elem_of_fmap in Hn1 as (j1 & -> & _).
    apply list_elem_of_fmap in Hy2 as (n2 & Heq & Hn2).
    apply list_elem_of_fmap in Hn2 as (j2 & -> & _).
    cbn in Heq. injection Heq as Hrow _. apply str_int_nat_inj in Hrow as ->.
    apply elem_of_enumerate in Hx1, Hx2. congruence.
  - intros [i row] _. cbn [fst snd]. rewrite <- list_fmap_compose.
    apply NoDup_fmap_2_strong; [ | apply NoDup_seq].
    intros j1 j2 _ _ Heq. cbn in Heq. injection Heq as Hcol.
    by apply str_int_nat_inj.
  - apply enumerate_NoDup.
Qed.

(** X18: in the mesh of a grid (for which the lat and depth grids have the
    cells of the lon grid), no two nodes carry the same row and col
    attributes, and there are as many nodes as the lon grid has cells: a
    node is identified by its row and col. *)
Theorem mesh_nodes_identified `{Env} (r : rupture) (rup_elem e : element) :
  covers (lats r) (lons r) = true → covers (depths r) (lons r) = true →
  SESXMLWriter._create_rupture_mesh r rup_elem = Ok e →
  ∃ mesh,
    e = append_child rup_elem mesh
    ∧ NoDup ((fun n => (attr n "row", attr n "col")) <$> children mesh)
    ∧ length (children mesh) = sum_list (length <$> lons r).
Proof.
  intros Hlats Hdepths. rewrite create_rupture_mesh_any by done.
  destruct (last_col (lons r) None) as [j | ]; [ | done].
  intros [= <-]. eexists. split; [reflexivity | ]. cbn [children]. split.
  - apply mesh_nodes_distinct.
  - unfold mesh_nodes, enumerate. apply length_rows_nodes.
Qed.

Lemma mesh_nodes_identified_witness :
  ∃ mesh,
    NoDup ((fun n => (attr n "row", attr n "col")) <$> children mesh)
    ∧ length (children mesh) = 4%nat.
Proof.
  assert (He : ∃ e, SESXMLWriter._create_rupture_mesh rupture_jagged
                      (new_element "rupture") = Ok e) by (eexists; reflexivity).
  destruct He as [e He].
  destruct (@mesh_nodes_identified demo_env rupture_jagged (new_element "rupture") e
              eq_refl eq_refl He) as (mesh & _ & Hnd & Hlen).
  exists mesh. split; [exact Hnd | exact Hlen].
Defined.
